(** * mdlm: the manifest-based reconciliation engine of the command-line client

    A shallow embedding of [mdlm/manifest.py], of the category table of
    [mdlm/api.py], of [get_api_url] of [mdlm/config.py] and of the commands
    [clone], [pull], [status] and [push] of [mdlm/cli.py], together with the
    properties of the synchronisation engine.

    Modelling conventions

    - A Python [str] is a [string] (its UTF-8 bytes).  The characters the
      code inspects (slash, backslash, NUL, dot, space, CR, LF) are ASCII, so
      working on bytes agrees with working on code points.
    - The working directory is a finite map from normalised relative paths
      (as [str(Path)] prints them, POSIX separators) to nodes.  A node is
      either a text file or something whose [read_text] raises (no read
      permission, a directory, bytes that are not UTF-8).  A path without
      node does not exist.
    - [Path.read_text] opens the file in text mode with universal newlines:
      CR LF and a lone CR are returned as LF.  [Path.write_text] on POSIX
      writes the characters unchanged.
    - Whether [mkdir] and [write_text] succeed depends on what the map does
      not hold (permissions, directories, the length of a name, the room
      left): the host ([Host]) decides it.  A write succeeds and leaves a
      text file, succeeds and leaves a file that cannot be read back, or
      raises [OSError], which no command catches; a write that raises
      leaves the file as it was.  The same holds for the manifest file.
    - [hashlib.sha256(...).hexdigest()] is a parameter [sha256_hex].
    - The Remote Store is an interface ([RemoteStore]) over a state the
      client cannot see.  A call answers with a value, raises [ApiError],
      ends the process ([_handle_response] calls [sys.exit(1)] on 401 and
      403), or gets no usable answer (a timeout, a refused connection, a
      body that is not JSON): [requests] then raises an exception that is
      not [ApiError] and that no command catches.
    - The Credential Provider is taken to supply a key and an https URL, so
      that constructing [ApiClient] succeeds.
    - A manifest is an insertion-ordered dictionary: an association list
      whose keys are pairwise distinct.  An entry has the documented shape
      [id], [version], [category], [title]; [content_hash] may be missing
      (manifests written before hashes were stored).  A manifest file that
      parses is taken to hold such a dictionary, which is what [save]
      writes.
    - Every observable action (Remote Store call with its answer, file write,
      manifest save, printed line) is appended to a trace. *)

From Stdlib Require Import ZArith Ascii String List Permutation.
From stdpp Require Import base option list gmap strings sorting.

(** ** Strings and paths *)

Module Str.

Definition slash : ascii := "/"%char.
Definition backslash : ascii := "\"%char.
Definition nul : ascii := "000"%char.
Definition cr : ascii := "013"%char.
Definition lf : ascii := "010"%char.

(** [s.replace(ch, by)] for one-character [ch] and [by]. *)
Fixpoint replace (ch by' : ascii) (s : string) : string :=
  match s with
  | EmptyString => EmptyString
  | String c rest =>
      String (if Ascii.eqb c ch then by' else c) (replace ch by' rest)
  end.

Definition mem (c : ascii) (set : string) : bool :=
  existsb (Ascii.eqb c) (list_ascii_of_string set).

Fixpoint lstrip (set s : string) : string :=
  match s with
  | EmptyString => EmptyString
  | String c rest => if mem c set then lstrip set rest else s
  end.

Definition rstrip (set s : string) : string :=
  String.rev (lstrip set (String.rev s)).

(** [s.strip(set)]: drops the characters of [set] at both ends. *)
Definition strip (set s : string) : string := rstrip set (lstrip set s).

Definition is_empty (s : string) : bool :=
  match s with EmptyString => true | _ => false end.

Definition starts_with (pre s : string) : bool := String.prefix pre s.

Definition ends_with (suf s : string) : bool :=
  String.prefix (String.rev suf) (String.rev s).

Fixpoint drop (n : nat) (s : string) : string :=
  match n, s with
  | O, _ => s
  | S n', String _ rest => drop n' rest
  | S _, EmptyString => EmptyString
  end.

(** Splitting at slashes; [cur] is the segment being read, reversed. *)
Fixpoint split_go (cur : string) (s : string) : list string :=
  match s with
  | EmptyString => if is_empty cur then [] else [String.rev cur]
  | String c rest =>
      if Ascii.eqb c slash
      then (if is_empty cur then [] else [String.rev cur]) ++ split_go "" rest
      else split_go (String c cur) rest
  end.

(** [PurePath(s).parts] of a relative path: its non-empty segments. *)
Definition parts (s : string) : list string := split_go "" s.

(** What text mode hands back for the stored characters. *)
Fixpoint universal_newlines (s : string) : string :=
  match s with
  | EmptyString => EmptyString
  | String c rest =>
      if Ascii.eqb c cr then
        match rest with
        | String c' rest' =>
            if Ascii.eqb c' lf
            then String lf (universal_newlines rest')
            else String lf (universal_newlines rest)
        | EmptyString => String lf EmptyString
        end
      else String c (universal_newlines rest)
  end.

Definition has_cr (s : string) : bool := mem cr s.

End Str.

(** [os.path.join] on POSIX, for two components. *)
Definition path_join (a b : string) : string :=
  if Str.starts_with "/" b then b
  else if Str.is_empty a || Str.ends_with "/" a then a +:+ b
  else a +:+ "/" +:+ b.

(** ** Data model *)

(** A document as the Remote Store returns it.  [content] is read with
    [doc.get("content", "")], the other keys by subscript. *)
Record Doc := mkDoc {
  doc_id : string;
  doc_version : Z;
  doc_category : string;
  doc_title : string;
  doc_content : option string
}.

Record Entry := mkEntry {
  id : string;
  version : Z;
  category : string;
  title : string;
  content_hash : option string
}.

(** [Manifest = Dict[str, Entry]], in insertion order. *)
Definition Manifest := list (string * Entry).

Definition keys (m : Manifest) : list string := map fst m.

(** [manifest.get(rel_path)] *)
Fixpoint get_entry (m : Manifest) (rel_path : string) : option Entry :=
  match m with
  | [] => None
  | (k, e) :: rest => if String.eqb k rel_path then Some e else get_entry rest rel_path
  end.

Definition tracked (m : Manifest) (rel_path : string) : bool :=
  match get_entry m rel_path with Some _ => true | None => false end.

Fixpoint replace_entry (m : Manifest) (rel_path : string) (e : Entry) : Manifest :=
  match m with
  | [] => []
  | (k, e') :: rest =>
      if String.eqb k rel_path then (k, e) :: rest
      else (k, e') :: replace_entry rest rel_path e
  end.

(** [manifest[rel_path] = entry]: an existing key keeps its position. *)
Definition add_entry (m : Manifest) (rel_path : string) (e : Entry) : Manifest :=
  if tracked m rel_path then replace_entry m rel_path e else m ++ [(rel_path, e)].

(** [manifest.pop(rel_path, None)] *)
Definition remove_entry (m : Manifest) (rel_path : string) : Manifest :=
  List.filter (fun kv => negb (String.eqb (fst kv) rel_path)) m.

(** [VALID_CATEGORIES] of [mdlm/api.py]. *)
Definition VALID_CATEGORIES : list string :=
  [ "architecture"; "stack"; "testing"; "deployment"; "security"; "style";
    "dependencies"; "error_handling"; "business_logic"; "general" ].

Definition valid_category (c : string) : bool :=
  existsb (String.eqb c) VALID_CATEGORIES.

Definition _KNOWLEDGE_DIR : string := "knowledge".

Definition _safe_filename (name : string) : string :=
  let name :=
    fold_left (fun n ch => Str.replace ch "_"%char n)
              [Str.slash; Str.backslash; Str.nul] name in
  let stripped := Str.strip ". " name in
  if Str.is_empty stripped then "_" else stripped.

Definition _local_path (category title : string) : string :=
  path_join (path_join _KNOWLEDGE_DIR (_safe_filename category))
            (_safe_filename title).

(** [doc.get("content", "")] *)
Definition content_of (doc : Doc) : string := default "" (doc_content doc).

(** ** The outside world *)

Inductive fnode :=
| Text (raw : string)
| Unreadable.

(** [.mdlm/manifest.json]: missing; there, but [read_text] raises [OSError]
    or the text is not JSON ([BadManifest]); there, but its bytes are not
    UTF-8 ([Undecodable]); or holding a manifest. *)
Inductive disk_manifest :=
| NoManifest
| BadManifest
| Undecodable
| Stored (m : Manifest).

(** What [p.parent.mkdir(parents=True, exist_ok=True)] followed by
    [p.write_text(content)] comes to. *)
Inductive write_outcome :=
| Written
| WrittenUnreadable
| WriteFails.

(** The host: it decides the fate of a write from the files as they are,
    the path and the content, and of a write of the manifest file. *)
Class Host := {
  write_file : gmap string fnode -> string -> string -> write_outcome;
  write_manifest : disk_manifest -> Manifest -> bool
}.

(** Outcome of a Remote Store call inside [ApiClient]: [_handle_response]
    returns the decoded body, raises [ApiError], or, on 401 and 403, prints
    its message and calls [sys.exit(1)] ([ApiExit]; the answer recorded in
    the trace stands for the printed line).  [ApiDown] is the call that
    gets no usable answer: [requests] raises on a timeout or a refused
    connection, and [resp.json()] on a body that is not JSON. *)
Inductive api_result (A : Type) :=
| ApiOk (a : A)
| ApiError (status : Z) (message : string)
| ApiExit
| ApiDown.
Arguments ApiOk {A} a.
Arguments ApiError {A} status message.
Arguments ApiExit {A}.
Arguments ApiDown {A}.

Class RemoteStore (R : Type) := {
  list_docs : option string -> R -> api_result (list Doc) * R;
  get_doc : string -> R -> api_result Doc * R;
  create_doc : string -> string -> string -> R -> api_result Doc * R;
  update_doc :
    string -> string -> string -> string -> option string -> R -> api_result Doc * R;
  delete_doc : string -> R -> api_result unit * R
}.

(** The lines the commands print, each with the values its text
    interpolates. *)
Inductive message :=
| MsgAlreadyInitialized
| MsgNoManifest
| MsgManifestUnreadable
| MsgUnknownCategory (c : string)
| MsgError (m : string)
| MsgFetching
| MsgNoDocs
| MsgCloned (written : nat)
| MsgEditHint
| MsgNothingToPull
| MsgErrorPulling (rel_path m : string)
| MsgPulled (updated errors : nat)
| MsgNothingToPush
| MsgNewHeader
| MsgNewFile (f : string)
| MsgModifiedHeader
| MsgModifiedFile (f : string)
| MsgDeletedHeader
| MsgDeletedFile (f : string)
| MsgDeleted (rel_path : string)
| MsgErrorDeleting (rel_path m : string)
| MsgSkipped (rel_path : string)
| MsgErrorChecking (rel_path m : string)
| MsgConflict (rel_path : string) (local_version remote_version : Z)
| MsgUpdated (rel_path : string) (v : Z)
| MsgErrorUpdating (rel_path m : string)
| MsgCreated (rel_path : string)
| MsgErrorCreating (rel_path m : string)
| MsgPushComplete (created updated deleted errors : nat).

Inductive event :=
| EvList (category : option string) (r : api_result (list Doc))
| EvGet (doc_id : string) (r : api_result Doc)
| EvCreate (title content category : string) (r : api_result Doc)
| EvUpdate (doc_id title content category : string) (change_reason : option string)
           (r : api_result Doc)
| EvDelete (doc_id : string) (r : api_result unit)
| EvWrite (rel_path content : string)
| EvSave (m : Manifest)
| EvOut (m : message)
| EvErr (m : message).

(** Uncaught exceptions: [read_text] and [write_text] on a file, the
    manifest file that is not UTF-8, the call without usable answer. *)
Inductive exn :=
| ReadError (path : string)
| WriteError (path : string)
| ManifestDecodeError
| TransportError.

(** How a command ends: it returns, calls [sys.exit], or dies on an
    exception nobody catches. *)
Inductive res (A : Type) :=
| Ret (a : A)
| Exit (code : Z)
| Raise (e : exn).
Arguments Ret {A} a.
Arguments Exit {A} code.
Arguments Raise {A} e.

(** What [try: ... except ApiError] sees. *)
Inductive attempt (A : Type) :=
| Got (a : A)
| Failed (status : Z) (message : string).
Arguments Got {A} a.
Arguments Failed {A} status message.

(** [if x:] for an optional string: [None] and [""] are false. *)
Definition truthy (o : option string) : bool :=
  match o with
  | Some s => negb (Str.is_empty s)
  | None => false
  end.

Definition is_md (p : string) : bool :=
  Str.starts_with "knowledge/" p && Str.ends_with ".md" p.

(** [p.relative_to(knowledge_dir)] for [p] below the knowledge root. *)
Definition relative_to_knowledge (p : string) : string :=
  Str.drop (String.length "knowledge/") p.

(** [p.name] *)
Definition name (p : string) : string := List.last (Str.parts p) "".

(** [sorted(...)] on strings. *)
Definition sorted (l : list string) : list string := merge_sort String.le l.

(** [sorted(...)] on [Path] objects: two paths compare as the lists of
    their parts do, part by part. *)
Fixpoint parts_leb (l1 l2 : list string) : bool :=
  match l1, l2 with
  | [], _ => true
  | _ :: _, [] => false
  | x :: xs, y :: ys => if String.eqb x y then parts_leb xs ys else String.leb x y
  end.

Definition path_le (p q : string) : Prop :=
  parts_leb (Str.parts p) (Str.parts q) = true.

#[global] Instance path_le_dec : RelDecision path_le.
Proof. intros p q. unfold path_le. apply bool_eq_dec. Defined.

Definition sorted_paths (l : list string) : list string := merge_sort path_le l.

(** The category [push] infers for an untracked file. *)
Definition infer_category (p : string) : string :=
  let parts := Str.parts (relative_to_knowledge p) in
  let inferred_category :=
    if (1 <? length parts)%nat then List.hd "" parts else "general" in
  if valid_category inferred_category then inferred_category else "general".

Inductive read_result :=
| Absent
| Content (s : string)
| ReadFails.

Definition read_node (fs : gmap string fnode) (rel_path : string) : read_result :=
  match fs !! rel_path with
  | None => Absent
  | Some (Text raw) => Content (Str.universal_newlines raw)
  | Some Unreadable => ReadFails
  end.

(** [knowledge_dir.rglob("*.md")], in some order. *)
Definition rglob_md (fs : gmap string fnode) : list string :=
  List.filter is_md (map fst (map_to_list fs)).

(** ** The commands *)

Section Engine.

Context {R : Type} {store : RemoteStore R} {host : Host}.
Variable sha256_hex : string -> string.

Record World := mkWorld {
  fs : gmap string fnode;
  disk : disk_manifest;
  remote : R;
  trace : list event
}.

Definition M (A : Type) : Type := World -> res A * World.

Definition ret {A} (a : A) : M A := fun w => (Ret a, w).

Definition bind {A B} (m : M A) (k : A -> M B) : M B :=
  fun w =>
    match m w with
    | (Ret a, w') => k a w'
    | (Exit c, w') => (Exit c, w')
    | (Raise e, w') => (Raise e, w')
    end.

Notation "'do' x <- m ; k" := (bind m (fun x => k))
  (at level 10, x pattern, m at level 100, k at level 200).
Notation "m ;; k" := (bind m (fun _ => k))
  (at level 100, k at level 200, right associativity).

Definition exit {A} (code : Z) : M A := fun w => (Exit code, w).
Definition raise {A} (e : exn) : M A := fun w => (Raise e, w).

Definition emit (ev : event) : M unit :=
  fun w => (Ret tt, mkWorld (fs w) (disk w) (remote w) (trace w ++ [ev])).

Definition print (m : message) : M unit := emit (EvOut m).
Definition print_err (m : message) : M unit := emit (EvErr m).

Fixpoint for_each {A S} (body : A -> S -> M S) (l : list A) (s : S) : M S :=
  match l with
  | [] => ret s
  | x :: rest => do s' <- body x s; for_each body rest s'
  end.

(** *** [mdlm/manifest.py] *)

Definition is_initialized : M bool :=
  fun w => (Ret (match disk w with NoManifest => false | _ => true end), w).

Definition _MANIFEST_FILE : string := ".mdlm/manifest.json".

(** [except (json.JSONDecodeError, OSError)] lets [UnicodeDecodeError]
    through. *)
Definition load : M Manifest :=
  fun w =>
    match disk w with
    | NoManifest => ret [] w
    | Stored m => ret m w
    | BadManifest => (print_err MsgManifestUnreadable ;; exit 1%Z) w
    | Undecodable => raise ManifestDecodeError w
    end.

Definition save (manifest : Manifest) : M unit :=
  fun w =>
    if write_manifest (disk w) manifest then
      (Ret tt,
       mkWorld (fs w) (Stored manifest) (remote w) (trace w ++ [EvSave manifest]))
    else raise (WriteError _MANIFEST_FILE) w.

(** *** Helpers of [mdlm/cli.py] *)

Definition _read_local (rel_path : string) : M (option string) :=
  fun w =>
    match read_node (fs w) rel_path with
    | Absent => ret None w
    | Content s => ret (Some s) w
    | ReadFails => raise (ReadError rel_path) w
    end.

(** [p.read_text(encoding="utf-8")] for a path that [rglob] returned. *)
Definition read_text (p : string) : M string :=
  fun w =>
    match read_node (fs w) p with
    | Content s => ret s w
    | Absent | ReadFails => raise (ReadError p) w
    end.

Definition _write_local (rel_path content : string) : M unit :=
  fun w =>
    let written node :=
      (Ret tt,
       mkWorld (<[rel_path := node]> (fs w)) (disk w) (remote w)
               (trace w ++ [EvWrite rel_path content])) in
    match write_file (fs w) rel_path content with
    | Written => written (Text content)
    | WrittenUnreadable => written Unreadable
    | WriteFails => raise (WriteError rel_path) w
    end.

(** *** [ApiClient]: a call, its entry in the trace, and what the caller's
    [try] block gets. *)

Definition request {A} (call : R -> api_result A * R)
    (log : api_result A -> event) : M (attempt A) :=
  fun w =>
    let '(r, remote') := call (remote w) in
    let w' := mkWorld (fs w) (disk w) remote' (trace w ++ [log r]) in
    match r with
    | ApiOk a => (Ret (Got a), w')
    | ApiError status m => (Ret (Failed status m), w')
    | ApiExit => (Exit 1%Z, w')
    | ApiDown => (Raise TransportError, w')
    end.

Definition client_list_docs (category : option string) : M (attempt (list Doc)) :=
  request (list_docs category) (EvList category).

Definition client_get_doc (doc_id : string) : M (attempt Doc) :=
  request (get_doc doc_id) (EvGet doc_id).

Definition client_create_doc (title content category : string) : M (attempt Doc) :=
  request (create_doc title content category) (EvCreate title content category).

Definition client_update_doc (doc_id title content category : string)
    (change_reason : option string) : M (attempt Doc) :=
  request (update_doc doc_id title content category change_reason)
          (EvUpdate doc_id title content category change_reason).

Definition client_delete_doc (doc_id : string) : M (attempt unit) :=
  request (delete_doc doc_id) (EvDelete doc_id).

(** The [--category] check shared by [clone] and [push]. *)
Definition unknown_category (category : option string) : option string :=
  match category with
  | Some c => if truthy category && negb (valid_category c) then Some c else None
  | None => None
  end.

(** *** [cmd_clone] *)

Definition clone_doc (doc : Doc) (st : Manifest * nat) : M (Manifest * nat) :=
  let '(manifest, written) := st in
  let rel := _local_path (doc_category doc) (doc_title doc) in
  let content := content_of doc in
  _write_local rel content ;;
  ret (add_entry manifest rel
         (mkEntry (doc_id doc) (doc_version doc) (doc_category doc) (doc_title doc)
                  (Some (sha256_hex content))),
       S written).

Definition cmd_clone (category : option string) : M unit :=
  do init <- is_initialized;
  if init then print_err MsgAlreadyInitialized ;; exit 1%Z
  else
    match unknown_category category with
    | Some c => print_err (MsgUnknownCategory c) ;; exit 1%Z
    | None =>
        print MsgFetching ;;
        do r <- client_list_docs category;
        match r with
        | Failed _ m => print_err (MsgError m) ;; exit 1%Z
        | Got [] => print MsgNoDocs
        | Got docs =>
            do st <- for_each clone_doc docs ([], O);
            save (fst st) ;;
            print (MsgCloned (snd st)) ;;
            print MsgEditHint
        end
    end.

(** *** [cmd_pull] *)

Record pull_state := mkPull {
  pl_manifest : Manifest;
  pl_updated : nat;
  pl_errors : nat
}.

(** One entry of [list(manifest.items())].  [entry] is the very object the
    dictionary holds under [rel_path], so the assignments [entry[...] = ...]
    change the manifest: the entry under [rel_path] is replaced. *)
Definition pull_entry (item : string * Entry) (st : pull_state) : M pull_state :=
  let '(rel_path, entry) := item in
  do r <- client_get_doc (id entry);
  match r with
  | Failed _ m =>
      print_err (MsgErrorPulling rel_path m) ;;
      ret (mkPull (pl_manifest st) (pl_updated st) (S (pl_errors st)))
  | Got doc =>
      let content := content_of doc in
      _write_local rel_path content ;;
      let entry' :=
        mkEntry (id entry) (doc_version doc) (doc_category doc) (doc_title doc)
                (Some (sha256_hex content)) in
      ret (mkPull (replace_entry (pl_manifest st) rel_path entry')
                  (S (pl_updated st)) (pl_errors st))
  end.

Definition cmd_pull : M unit :=
  do init <- is_initialized;
  if negb init then print_err MsgNoManifest ;; exit 1%Z
  else
    do manifest <- load;
    match manifest with
    | [] => print MsgNothingToPull
    | _ =>
        do st <- for_each pull_entry manifest (mkPull manifest O O);
        save (pl_manifest st) ;;
        print (MsgPulled (pl_updated st) (pl_errors st))
    end.

(** *** [cmd_status] *)

(** The three lists [cmd_status] builds.  [tracked_files] enumerates
    [set(manifest.keys())] and [local_files] the set of paths [rglob]
    found; a Python set is iterated in an order the program does not
    control, so both enumerations are arguments. *)
Record changes := mkChanges {
  new_files : list string;
  modified : list string;
  deleted : list string
}.

(** The body of [for rel_path in tracked].  [manifest[rel_path]] cannot fail
    there, [rel_path] being a key; the last branch stands for the
    [KeyError] of a path that is none. *)
Definition status_tracked (manifest : Manifest) (rel_path : string)
    (st : list string * list string) : M (list string * list string) :=
  let '(modified, deleted) := st in
  do content <- _read_local rel_path;
  match content with
  | None => ret (modified, deleted ++ [rel_path])
  | Some content =>
      match get_entry manifest rel_path with
      | Some entry =>
          match content_hash entry with
          | Some stored_hash =>
              let current_hash := sha256_hex content in
              if negb (String.eqb current_hash stored_hash)
              then ret (modified ++ [rel_path], deleted)
              else ret (modified, deleted)
          | None => ret (modified, deleted)
          end
      | None => ret (modified, deleted)
      end
  end.

(** [for rel_path in local_files: if rel_path not in tracked: ...] *)
Definition status_untracked (manifest : Manifest) (local_files : list string)
    : list string :=
  List.filter (fun rel_path => negb (tracked manifest rel_path)) local_files.

Definition reconcile (manifest : Manifest) (tracked_files local_files : list string)
    : M changes :=
  do st <- for_each (status_tracked manifest) tracked_files ([], []);
  ret (mkChanges (status_untracked manifest local_files) (fst st) (snd st)).

Definition print_section (header : message) (line : string -> message)
    (files : list string) : M unit :=
  match files with
  | [] => ret tt
  | _ =>
      print header ;;
      for_each (fun f (_ : unit) => print (line f)) (sorted files) tt
  end.

Definition report (c : changes) : M unit :=
  match new_files c, modified c, deleted c with
  | [], [], [] => print MsgNothingToPush
  | _, _, _ =>
      print_section MsgNewHeader MsgNewFile (new_files c) ;;
      print_section MsgModifiedHeader MsgModifiedFile (modified c) ;;
      print_section MsgDeletedHeader MsgDeletedFile (deleted c)
  end.

Definition local_md_files : M (list string) :=
  fun w => (Ret (rglob_md (fs w)), w).

(** The sets are enumerated in manifest order and in the order of the file
    map; [report_Permutation] below shows that the order cannot be seen in
    what is printed. *)
Definition cmd_status : M unit :=
  do init <- is_initialized;
  if negb init then print_err MsgNoManifest ;; exit 1%Z
  else
    do manifest <- load;
    do local_files <- local_md_files;
    do c <- reconcile manifest (remove_dups (keys manifest)) local_files;
    report c.

(** *** [cmd_push] *)

Record push_args := mkPushArgs {
  args_message : option string;
  args_category : option string;
  args_delete : bool
}.

Record push_state := mkPush {
  ps_manifest : Manifest;
  ps_created : nat;
  ps_updated : nat;
  ps_deleted_count : nat;
  ps_errors : nat
}.

Definition with_manifest (st : push_state) (m : Manifest) : push_state :=
  mkPush m (ps_created st) (ps_updated st) (ps_deleted_count st) (ps_errors st).
Definition count_created (st : push_state) : push_state :=
  mkPush (ps_manifest st) (S (ps_created st)) (ps_updated st) (ps_deleted_count st)
         (ps_errors st).
Definition count_updated (st : push_state) : push_state :=
  mkPush (ps_manifest st) (ps_created st) (S (ps_updated st)) (ps_deleted_count st)
         (ps_errors st).
Definition count_deleted (st : push_state) : push_state :=
  mkPush (ps_manifest st) (ps_created st) (ps_updated st) (S (ps_deleted_count st))
         (ps_errors st).
Definition count_error (st : push_state) : push_state :=
  mkPush (ps_manifest st) (ps_created st) (ps_updated st) (ps_deleted_count st)
         (S (ps_errors st)).

(** [category_filter and c != category_filter] *)
Definition filtered_out (category_filter : option string) (c : string) : bool :=
  match category_filter with
  | Some f => truthy category_filter && negb (String.eqb c f)
  | None => false
  end.

(** [stored_hash == current_hash], where [stored_hash] may be [None]. *)
Definition hash_matches (stored_hash : option string) (current_hash : string) : bool :=
  match stored_hash with
  | Some h => String.eqb h current_hash
  | None => false
  end.

(** 1. One tracked file: update or delete.  As in [pull_entry], assigning
    to [entry] changes the entry the manifest holds under [rel_path]. *)
Definition push_tracked (args : push_args) (item : string * Entry)
    (st : push_state) : M push_state :=
  let '(rel_path, entry) := item in
  if filtered_out (args_category args) (category entry) then ret st
  else
    do content <- _read_local rel_path;
    match content with
    | None =>
        if args_delete args then
          do r <- client_delete_doc (id entry);
          match r with
          | Got _ =>
              let st := with_manifest st (remove_entry (ps_manifest st) rel_path) in
              print (MsgDeleted rel_path) ;;
              ret (count_deleted st)
          | Failed _ m =>
              print_err (MsgErrorDeleting rel_path m) ;;
              ret (count_error st)
          end
        else print (MsgSkipped rel_path) ;; ret st
    | Some content =>
        let stored_hash := content_hash entry in
        let current_hash := sha256_hex content in
        if hash_matches stored_hash current_hash then ret st
        else
          do r <- client_get_doc (id entry);
          match r with
          | Failed _ m =>
              print_err (MsgErrorChecking rel_path m) ;;
              ret (count_error st)
          | Got remote_doc =>
              let remote_version := doc_version remote_doc in
              let local_version := version entry in
              if negb (Z.eqb remote_version local_version) then
                print_err (MsgConflict rel_path local_version remote_version) ;;
                ret (count_error st)
              else
                do r <- client_update_doc (id entry) (title entry) content
                          (category entry) (args_message args);
                match r with
                | Got doc =>
                    let entry' :=
                      mkEntry (id entry) (doc_version doc) (category entry)
                              (title entry) (Some current_hash) in
                    let st :=
                      with_manifest st
                        (replace_entry (ps_manifest st) rel_path entry') in
                    save (ps_manifest st) ;;
                    print (MsgUpdated rel_path (doc_version doc)) ;;
                    ret (count_updated st)
                | Failed _ m =>
                    print_err (MsgErrorUpdating rel_path m) ;;
                    ret (count_error st)
                end
          end
    end.

(** 2. One [.md] file found under [knowledge/]. *)
Definition push_untracked (args : push_args) (rel_path : string)
    (st : push_state) : M push_state :=
  if tracked (ps_manifest st) rel_path then ret st
  else
    let inferred_category := infer_category rel_path in
    if filtered_out (args_category args) inferred_category then ret st
    else
      do content <- read_text rel_path;
      let title := name rel_path in
      do r <- client_create_doc title content inferred_category;
      match r with
      | Got doc =>
          let current_hash := sha256_hex content in
          let st :=
            with_manifest st
              (add_entry (ps_manifest st) rel_path
                 (mkEntry (doc_id doc) (doc_version doc) (doc_category doc)
                          (doc_title doc) (Some current_hash))) in
          save (ps_manifest st) ;;
          print (MsgCreated rel_path) ;;
          ret (count_created st)
      | Failed _ m =>
          print_err (MsgErrorCreating rel_path m) ;;
          ret (count_error st)
      end.

Definition push_summary (st : push_state) : M unit :=
  match ps_created st, ps_updated st, ps_deleted_count st, ps_errors st with
  | O, O, O, O => print MsgNothingToPush
  | c, u, d, e => print (MsgPushComplete c u d e)
  end.

Definition cmd_push (args : push_args) : M unit :=
  do init <- is_initialized;
  if negb init then print_err MsgNoManifest ;; exit 1%Z
  else
    do manifest <- load;
    match unknown_category (args_category args) with
    | Some c => print_err (MsgUnknownCategory c) ;; exit 1%Z
    | None =>
        do st <- for_each (push_tracked args) manifest (mkPush manifest O O O O);
        do paths <- local_md_files;
        do st <- for_each (push_untracked args) (sorted_paths paths) st;
        push_summary st
    end.

(** What is left of [cmd_push] when the first loop has the entries [rest]
    before it and is in state [st]. *)
Definition push_rest (args : push_args) (rest : Manifest) (st : push_state)
    : M unit :=
  do st <- for_each (push_tracked args) rest st;
  do paths <- local_md_files;
  do st <- for_each (push_untracked args) (sorted_paths paths) st;
  push_summary st.

End Engine.

Arguments mkWorld {R} fs disk remote trace.
Arguments fs {R} w.
Arguments disk {R} w.
Arguments remote {R} w.
Arguments trace {R} w.

(** The events a run added to the trace. *)
Definition new_events {R} (w w' : World (R:=R)) : list event :=
  drop (length (trace w)) (trace w').

(** ** Observations *)

(** The answers to [get_doc] recorded in a list of events, in order. *)
Definition fetched (evs : list event) : list (string * api_result Doc) :=
  omap (fun ev => match ev with EvGet i r => Some (i, r) | _ => None end) evs.

(** The manifests written to disk in a list of events, in order. *)
Definition saved (evs : list event) : list Manifest :=
  omap (fun ev => match ev with EvSave m => Some m | _ => None end) evs.



(** [push] treats a tracked entry as changed when the first thing it does for
    it is to fetch the remote document. *)
Definition push_fetches {R} {store : RemoteStore R} {host : Host}
    (sha256_hex : string -> string)
    (args : push_args) (item : string * Entry) (st : push_state)
    (w : World (R:=R)) : bool :=
  match new_events w (snd (push_tracked sha256_hex args item st w)) with
  | EvGet i _ :: _ => String.eqb i (id (snd item))
  | _ => false
  end.

(** The tests [cmd_status] applies to a tracked path, as predicates on the
    manifest and the files. *)
Definition is_modified (sha256_hex : string -> string) (m : Manifest)
    (files : gmap string fnode) (rel_path : string) : bool :=
  match read_node files rel_path, get_entry m rel_path with
  | Content s, Some entry =>
      match content_hash entry with
      | Some stored_hash => negb (String.eqb (sha256_hex s) stored_hash)
      | None => false
      end
  | _, _ => false
  end.

Definition is_deleted (files : gmap string fnode) (rel_path : string) : bool :=
  match read_node files rel_path with Absent => true | _ => false end.

Definition readable (files : gmap string fnode) (rel_path : string) : Prop :=
  read_node files rel_path <> ReadFails.

(** A path segment: non-empty, without slash. *)
Definition segment (s : string) : Prop :=
  s <> "" /\ Str.mem Str.slash s = false.

(** A relative path that names something: it has a character other than
    the slash. *)
Definition names_file (s : string) : Prop :=
  exists c, c <> Str.slash /\ Str.mem c s = true.

(** The category the specification assigns to a file below the knowledge
    root: the first segment for a file inside a directory, when that
    segment is one of the fixed categories; [general] for a file inside
    any other directory and for a file directly under the root. *)
Inductive spec_category : string -> string -> Prop :=
| cat_nested seg rest :
    segment seg -> names_file rest -> valid_category seg = true ->
    spec_category ("knowledge/" +:+ seg +:+ "/" +:+ rest) seg
| cat_collapsed seg rest :
    segment seg -> names_file rest -> valid_category seg = false ->
    spec_category ("knowledge/" +:+ seg +:+ "/" +:+ rest) "general"
| cat_top file :
    segment file ->
    spec_category ("knowledge/" +:+ file) "general".

(** The path [clone] writes a document to, and the entry it records. *)
Definition doc_path (doc : Doc) : string :=
  _local_path (doc_category doc) (doc_title doc).

Definition entry_of_doc (sha256_hex : string -> string) (doc : Doc) : Entry :=
  mkEntry (doc_id doc) (doc_version doc) (doc_category doc) (doc_title doc)
          (Some (sha256_hex (content_of doc))).

(** The last document of a list that [clone] writes to [rel_path]. *)
Definition last_for (docs : list Doc) (rel_path : string) : option Doc :=
  List.find (fun d => String.eqb (doc_path d) rel_path) (rev docs).


(** [changes_only w w' P]: from [w] to [w'] the files are untouched and the
    events added to the trace all satisfy [P]. *)
Definition changes_only {R} (w w' : World (R:=R)) (P : event -> Prop) : Prop :=
  fs w' = fs w /\ exists evs, trace w' = trace w ++ evs /\ Forall P evs.

Definition not_create (ev : event) : Prop :=
  match ev with EvCreate _ _ _ _ => False | _ => True end.

(** The only [create] call a step for the untracked file [p] can make. *)
Definition creates_for (files : gmap string fnode) (p : string) (ev : event) : Prop :=
  match ev with
  | EvCreate t c cat _ =>
      t = name p /\ read_node files p = Content c /\ cat = infer_category p
  | _ => True
  end.

(** What [Str.split_go] emits when the segment it has read ends. *)
Definition flush (cur : string) : list string :=
  if Str.is_empty cur then [] else [String.rev cur].



(** The host lets every write to the paths [paths] succeed and leave a
    readable file, and every write of the manifest file succeed. *)
Definition writes_succeed {host : Host} (paths : list string) : Prop :=
  (forall files p content, p ∈ paths -> write_file files p content = Written) /\
  (forall d m, write_manifest d m = true).

(** Case analysis on [H : x ∈ [a; b; ...]]. *)
Ltac elem_cases H :=
  repeat (apply elem_of_cons in H as [H|H]; [|]); [..|by apply elem_of_nil in H].

Ltac finish_changes :=
  split; [done|]; eexists; split;
    [cbn; rewrite <- ?app_assoc; try done; by rewrite ?app_nil_r
    |repeat constructor; try done].

(** Closes a leaf of the case analysis of a [push] step: the events the
    step added are read off the goal. *)
Ltac step_events :=
  split; [done|]; eexists; split;
    [cbn; rewrite <- ?app_assoc; reflexivity|].

(** Each event of a list is a line, or a call for which the context holds
    the reason. *)
Ltac each_event :=
  cbn [app];
  repeat first
    [ solve [constructor]
    | apply Forall_cons; split; [solve [exact I | auto]|] ].

(** ** A store and inputs to run the commands on *)

Module Demo.

(** An in-memory Remote Store: the documents it holds.  Unknown ids answer
    404; an update bumps the version. *)
Definition find_doc (doc_id' : string) (ds : list Doc) : option Doc :=
  List.find (fun d => String.eqb (doc_id d) doc_id') ds.

Definition not_found {A} : api_result A := ApiError 404%Z "not found".

#[global] Instance mem_store : RemoteStore (list Doc) := {|
  list_docs category ds :=
    (ApiOk (match category with
            | Some c =>
                if truthy category
                then List.filter (fun d => String.eqb (doc_category d) c) ds
                else ds
            | None => ds
            end), ds);
  get_doc doc_id' ds :=
    (match find_doc doc_id' ds with Some d => ApiOk d | None => not_found end, ds);
  create_doc title content category ds :=
    let d := mkDoc ("new-" +:+ title) 1%Z category title (Some content) in
    (ApiOk d, ds ++ [d]);
  update_doc doc_id' title content category _ ds :=
    match find_doc doc_id' ds with
    | Some d =>
        let d' := mkDoc doc_id' (doc_version d + 1)%Z category title (Some content) in
        (ApiOk d',
         map (fun x => if String.eqb (doc_id x) doc_id' then d' else x) ds)
    | None => (not_found, ds)
    end;
  delete_doc doc_id' ds :=
    match find_doc doc_id' ds with
    | Some _ =>
        (ApiOk tt, List.filter (fun x => negb (String.eqb (doc_id x) doc_id')) ds)
    | None => (not_found, ds)
    end
|}.

(** A host on which every write succeeds and can be read back. *)
#[global] Instance obliging : Host := {|
  write_file _ _ _ := Written;
  write_manifest _ _ := true
|}.

(** A stand-in digest that never collides. *)
Definition digest (content : string) : string := "sha256:" +:+ content.

Definition world (files : list (string * fnode)) (d : disk_manifest)
    (ds : list Doc) : World (R:=list Doc) :=
  mkWorld (list_to_map files) d ds [].

Definition layering : Doc :=
  mkDoc "d1" 1%Z "architecture" "layering.md" (Some "A").
Definition layering_path : string := "knowledge/architecture/layering.md".
Definition layering_entry : Entry :=
  mkEntry "d1" 1%Z "architecture" "layering.md" (Some (digest "A")).

Definition notes : Doc := mkDoc "d2" 1%Z "general" "notes.md" (Some "N").
Definition notes_path : string := "knowledge/general/notes.md".
Definition notes_entry : Entry :=
  mkEntry "d2" 1%Z "general" "notes.md" (Some (digest "N")).

Definition delete_args : push_args := mkPushArgs None None true.
Definition plain_args : push_args := mkPushArgs None None false.

(** The state [push] starts its batch in. *)
Definition start (m : Manifest) : push_state := mkPush m O O O O.

Abbreviation run_trace r := (trace (snd r)).

(** [layering.md] was deleted locally; the store still has the document. *)
Definition deleted_locally : World :=
  world [] (Stored [(layering_path, layering_entry)]) [layering].

(** [layering.md] was edited to "B"; the store is unchanged. *)
Definition edited : World :=
  world [(layering_path, Text "B")] (Stored [(layering_path, layering_entry)])
        [layering].

(** [layering.md] was edited to "B" while the store moved on to version 2. *)
Definition layering_v2 : Doc :=
  mkDoc "d1" 2%Z "architecture" "layering.md" (Some "A2").
Definition conflicting : World :=
  world [(layering_path, Text "B")] (Stored [(layering_path, layering_entry)])
        [layering_v2].

(** The same edit next to an unchanged [notes.md] that comes first. *)
Definition conflict_after_notes : World :=
  world [(notes_path, Text "N"); (layering_path, Text "B")]
        (Stored [(notes_path, notes_entry); (layering_path, layering_entry)])
        [layering_v2; notes].

(** A document with a Windows line end, and the empty directory it is
    cloned into. *)
Definition crlf : string := String Str.cr (String Str.lf "").
Definition windows_doc : Doc :=
  mkDoc "d1" 1%Z "architecture" "layering.md" (Some ("A" +:+ crlf +:+ "B")).
Definition windows_entry : Entry :=
  mkEntry "d1" 1%Z "architecture" "layering.md" (Some (digest ("A" +:+ crlf +:+ "B"))).
Definition before_windows_clone : World := world [] NoManifest [windows_doc].

(** A host that refuses every write (a read-only directory), and one
    whose files can be written but not read back. *)
Definition read_only : Host := {|
  write_file _ _ _ := WriteFails;
  write_manifest _ _ := false
|}.

Definition write_only : Host := {|
  write_file _ _ _ := WrittenUnreadable;
  write_manifest _ _ := true
|}.

(** A manifest written before hashes were stored. *)
Definition legacy_entry : Entry :=
  mkEntry "d1" 1%Z "architecture" "layering.md" None.
Definition legacy : World :=
  world [(layering_path, Text "A")] (Stored [(layering_path, legacy_entry)])
        [layering].
Definition legacy_deleted : World :=
  world [] (Stored [(layering_path, legacy_entry)]) [layering].

(** One edited file, one deleted file, one new file. *)
Definition mixed_manifest : Manifest :=
  [(layering_path, layering_entry); (notes_path, notes_entry)].
Definition mixed : World :=
  world [(layering_path, Text "B"); ("knowledge/new.md", Text "X")]
        (Stored mixed_manifest) [layering; notes].

(** [layering.md] was edited and [notes.md] cannot be read. *)
Definition edited_next_to_unreadable : World :=
  world [(layering_path, Text "B"); (notes_path, Unreadable)]
        (Stored mixed_manifest) [layering; notes].

(** Nothing cloned yet. *)
Definition empty_store : World := world [] NoManifest [].
Definition fresh : World := world [] NoManifest [layering; notes].

(** Everything in sync. *)
Definition clean : World :=
  world [(layering_path, Text "A"); (notes_path, Text "N")]
        (Stored mixed_manifest) [layering; notes].


(** [layering.md] exists but cannot be read; next to it, the same
    directory with the file removed. *)
Definition unreadable : World :=
  world [(layering_path, Unreadable); (notes_path, Text "N")]
        (Stored mixed_manifest) [layering; notes].
Definition removed : World :=
  world [(notes_path, Text "N")] (Stored mixed_manifest) [layering; notes].

(** Two files nobody tracks, one in a category directory, one at the top. *)
Definition untracked : World :=
  world [("knowledge/architecture/new.md", Text "X"); ("knowledge/notes.md", Text "Y")]
        (Stored []) [].

(** Two documents whose titles are sanitized to the same file name. *)
Definition twin1 : Doc := mkDoc "t1" 1%Z "general" "a/b.md" (Some "one").
Definition twin2 : Doc := mkDoc "t2" 3%Z "general" "a\b.md" (Some "two").
Definition twins : World := world [] NoManifest [twin1; twin2].

End Demo.


(** ** Configuration, and what a run may contain *)

(** [get_api_url] of [mdlm/config.py].  The argument is the value of the
    environment variable [MDLM_API_URL], if set.  [inr url] stands for the
    error line naming [url], followed by [sys.exit(1)]. *)
Definition DEFAULT_API_URL : string := "https://markdownlm.com".

Definition get_api_url (MDLM_API_URL : option string) : string + string :=
  let url := Str.rstrip "/" (default DEFAULT_API_URL MDLM_API_URL) in
  if negb (Str.starts_with "https://" url) then inr url else inl url.

(** A name [_safe_filename] has nothing to do on: not empty, free of
    slash, backslash and NUL, with no dot or space at either end. *)
Definition safe_name (s : string) : Prop :=
  s <> "" /\
  Str.mem Str.slash s = false /\ Str.mem Str.backslash s = false /\
  Str.mem Str.nul s = false /\
  Str.starts_with "." s = false /\ Str.starts_with " " s = false /\
  Str.ends_with "." s = false /\ Str.ends_with " " s = false.

(** The manifest a command works on once [load] has returned. *)
Definition loaded (d : disk_manifest) : Manifest :=
  match d with Stored m => m | _ => [] end.

(** What an event of a [push] run must look like, given the arguments, the
    manifest [m] loaded at the start and the files. *)
Definition push_call_ok (sha256_hex : string -> string) (args : push_args)
    (m : Manifest) (files : gmap string fnode) (ev : event) : Prop :=
  match ev with
  | EvGet i _ =>
      exists p e c,
        (p, e) ∈ m /\ i = id e /\
        filtered_out (args_category args) (category e) = false /\
        read_node files p = Content c /\
        hash_matches (content_hash e) (sha256_hex c) = false
  | EvUpdate i t c cat reason _ =>
      exists p e,
        (p, e) ∈ m /\ i = id e /\ t = title e /\ cat = category e /\
        reason = args_message args /\
        filtered_out (args_category args) (category e) = false /\
        read_node files p = Content c /\
        hash_matches (content_hash e) (sha256_hex c) = false
  | EvDelete i _ =>
      exists p e,
        (p, e) ∈ m /\ i = id e /\ args_delete args = true /\
        filtered_out (args_category args) (category e) = false /\
        read_node files p = Absent
  | EvCreate t c cat _ =>
      exists p,
        p ∈ rglob_md files /\ t = name p /\ read_node files p = Content c /\
        cat = infer_category p /\
        filtered_out (args_category args) cat = false
  | EvWrite _ _ | EvList _ _ => False
  | EvSave _ | EvOut _ | EvErr _ => True
  end.

(** Every [update] comes right after a successful fetch of the same
    document, which returned the version some entry of [m] with that id
    holds.  [prev] is the event before the list. *)
Definition fetch_allows (m : Manifest) (prev : option event) (i : string) : bool :=
  match prev with
  | Some (EvGet j (ApiOk doc)) =>
      String.eqb i j &&
      existsb (fun item : string * Entry =>
                 String.eqb (id (snd item)) i &&
                 Z.eqb (doc_version doc) (version (snd item))) m
  | _ => false
  end.

Fixpoint guarded (m : Manifest) (prev : option event) (evs : list event) : bool :=
  match evs with
  | [] => true
  | ev :: rest =>
      match ev with
      | EvUpdate i _ _ _ _ _ => fetch_allows m prev i
      | _ => true
      end && guarded m (Some ev) rest
  end.

Definition is_created (ev : event) : bool :=
  match ev with EvCreate _ _ _ (ApiOk _) => true | _ => false end.
Definition is_updated (ev : event) : bool :=
  match ev with EvUpdate _ _ _ _ _ (ApiOk _) => true | _ => false end.
Definition is_deleted_remotely (ev : event) : bool :=
  match ev with EvDelete _ (ApiOk _) => true | _ => false end.
Definition is_error_line (ev : event) : bool :=
  match ev with EvErr _ => true | _ => false end.

Definition count (f : event -> bool) (evs : list event) : nat :=
  length (List.filter f evs).

(** The last line of [push] for given counts. *)
Definition summary_of (created updated deleted errors : nat) : message :=
  match created, updated, deleted, errors with
  | O, O, O, O => MsgNothingToPush
  | c, u, d, e => MsgPushComplete c u d e
  end.

(** The counters of [push] after the events [evs], starting from [st0]. *)
Definition counted (st0 st : push_state) (evs : list event) : Prop :=
  ps_created st = (ps_created st0 + count is_created evs)%nat /\
  ps_updated st = (ps_updated st0 + count is_updated evs)%nat /\
  ps_deleted_count st = (ps_deleted_count st0 + count is_deleted_remotely evs)%nat /\
  ps_errors st = (ps_errors st0 + count is_error_line evs)%nat.

(** [push_inv w0 o w]: the world [w] reached from [w0] during the batch of
    a [push] with loaded manifest [m], and the counters of the loop state
    (when the batch has not been cut short). *)
Definition push_inv {R} (sha256_hex : string -> string) (args : push_args)
    (m : Manifest) (w0 : World (R:=R)) (o : option push_state)
    (w : World (R:=R)) : Prop :=
  fs w = fs w0 /\
  exists evs,
    trace w = trace w0 ++ evs /\
    Forall (push_call_ok sha256_hex args m (fs w0)) evs /\
    guarded m None evs = true /\
    forall st, o = Some st -> counted (mkPush m O O O O) st evs.

(** The entry [item] gives [push] nothing to send: it is filtered out, or
    its file does not exist, or its file reads back with the stored hash. *)
Definition settled (sha256_hex : string -> string) (args : push_args)
    (files : gmap string fnode) (item : string * Entry) : Prop :=
  filtered_out (args_category args) (category (snd item)) = true \/
  read_node files (fst item) = Absent \/
  exists c,
    read_node files (fst item) = Content c /\
    hash_matches (content_hash (snd item)) (sha256_hex c) = true.

(** [pending m done M]: every entry of [M] is settled, or is the entry [m]
    holds for a path outside [done]. *)
Definition pending (sha256_hex : string -> string) (args : push_args)
    (files : gmap string fnode) (m : Manifest) (done : list string)
    (M : Manifest) : Prop :=
  forall p e,
    get_entry M p = Some e ->
    settled sha256_hex args files (p, e) \/
    ((p ∉ done) /\ get_entry m p = Some e).

(** What a [push] that started in [w0] with manifest [m] has achieved when
    it is in state [st] and world [w], the paths [done] of [m] and the
    files [seen] being dealt with, if no error was counted so far. *)
Definition push_progress {R} (sha256_hex : string -> string) (args : push_args)
    (m : Manifest) (w0 : World (R:=R)) (done seen : list string)
    (st : push_state) (w : World (R:=R)) : Prop :=
  fs w = fs w0 /\
  (ps_errors st = O ->
   exists d,
     disk w = Stored d /\
     NoDup (keys (ps_manifest st)) /\ NoDup (keys d) /\
     pending sha256_hex args (fs w0) m done (ps_manifest st) /\
     pending sha256_hex args (fs w0) m done d /\
     (forall q, q ∈ keys (ps_manifest st) -> q ∈ keys d) /\
     (forall q, q ∈ seen ->
        tracked (ps_manifest st) q = true \/
        filtered_out (args_category args) (infer_category q) = true)).

(** [push] has a deletion to send: [--delete] is given and some path of
    the manifest [d] has no file. *)
Definition deletable (args : push_args) (d : Manifest)
    (files : gmap string fnode) : Prop :=
  args_delete args = true /\
  exists p, p ∈ keys d /\ read_node files p = Absent.

(** The events of a [push] that has nothing to send, except deletions
    when they are [allowed]. *)
Definition only_deletes (allowed : Prop) (ev : event) : Prop :=
  match ev with
  | EvDelete _ _ => allowed
  | EvOut _ | EvErr _ => True
  | _ => False
  end.

(** From [w] to [w'] files and manifest file are untouched, and nothing
    was sent but deletions, when [allowed]. *)
Definition quiet {R} (allowed : Prop) (w w' : World (R:=R)) : Prop :=
  fs w' = fs w /\ disk w' = disk w /\
  exists evs, trace w' = trace w ++ evs /\ Forall (only_deletes allowed) evs.

(** A call that the Remote Store answered with 401 or 403. *)
Definition answered_exit (ev : event) : bool :=
  match ev with
  | EvList _ ApiExit | EvGet _ ApiExit | EvCreate _ _ _ ApiExit
  | EvUpdate _ _ _ _ _ ApiExit | EvDelete _ ApiExit => true
  | _ => false
  end.

(** Among the events [evs] of a run that ended with [r], no call was
    answered with 401 or 403, or the last one was and the run exited with
    code 1. *)
Definition stops_at_exit {A} (r : res A) (evs : list event) : Prop :=
  Forall (fun ev => answered_exit ev = false) evs \/
  (r = Exit 1%Z /\
   exists evs0 ev,
     evs = evs0 ++ [ev] /\
     Forall (fun ev => answered_exit ev = false) evs0 /\
     answered_exit ev = true).

(** A computation that only adds to the trace and stops at the first 401
    or 403. *)
Definition careful {R A} (m : M (R:=R) A) : Prop :=
  forall w,
    exists evs,
      trace (snd (m w)) = trace w ++ evs /\ stops_at_exit (fst (m w)) evs.

(** The loop state a batch ends in, if it ends. *)
Definition state_of {S} (r : res S) : option S :=
  match r with Ret s => Some s | _ => None end.


Definition is_print (ev : event) : Prop :=
  match ev with EvOut _ | EvErr _ => True | _ => False end.

(** A fetch that was answered with a document without carriage return. *)
Definition plain_answer (a : string * api_result Doc) : Prop :=
  match snd a with
  | ApiOk doc => Str.has_cr (content_of doc) = false
  | _ => False
  end.

(** The world [w] after [evs] went to the trace and nothing else changed. *)
Definition logged {R} (w : World (R:=R)) (evs : list event) : World (R:=R) :=
  mkWorld (fs w) (disk w) (remote w) (trace w ++ evs).

(** The lines [status] prints for one of its three lists, and for all. *)
Definition section_lines (header : message) (line : string -> message)
    (files : list string) : list event :=
  match files with
  | [] => []
  | _ => EvOut header :: map (fun f => EvOut (line f)) (sorted files)
  end.

Definition report_lines (c : changes) : list event :=
  match new_files c, modified c, deleted c with
  | [], [], [] => [EvOut MsgNothingToPush]
  | _, _, _ =>
      section_lines MsgNewHeader MsgNewFile (new_files c) ++
      section_lines MsgModifiedHeader MsgModifiedFile (modified c) ++
      section_lines MsgDeletedHeader MsgDeletedFile (deleted c)
  end.

(** More inputs to run the commands on. *)
Module Samples.

Import Demo.

(** A store that refuses every call with 500. *)
Definition refused {A} : api_result A := ApiError 500%Z "unavailable".

Definition down : RemoteStore unit := {|
  list_docs _ u := (refused, u);
  get_doc _ u := (refused, u);
  create_doc _ _ _ u := (refused, u);
  update_doc _ _ _ _ _ u := (refused, u);
  delete_doc _ u := (refused, u)
|}.

(** A store that answers every call with 401. *)
Definition locked : RemoteStore unit := {|
  list_docs _ u := (ApiExit, u);
  get_doc _ u := (ApiExit, u);
  create_doc _ _ _ u := (ApiExit, u);
  update_doc _ _ _ _ _ u := (ApiExit, u);
  delete_doc _ u := (ApiExit, u)
|}.


Definition offline (files : list (string * fnode)) (d : disk_manifest)
    : World (R:=unit) :=
  mkWorld (list_to_map files) d tt [].


(** Both tracked files edited, a new file in each of two directories. *)
Definition busy : World :=
  world [(layering_path, Text "B"); ("knowledge/general/extra.md", Text "E");
         ("knowledge/security/keys.md", Text "K")]
        (Stored mixed_manifest) [layering; notes].

End Samples.

(** ** Facts about the manifest dictionary *)

Section ManifestFacts.

Implicit Types (m : Manifest) (p q : string) (e : Entry).

Lemma get_entry_tracked m p :
  tracked m p = true <-> is_Some (get_entry m p).
Proof.
  unfold tracked. destruct (get_entry m p); split; intros H; eauto;
    try done; by destruct H.
Qed.

Lemma get_entry_None_keys m p : get_entry m p = None <-> p ∉ keys m.
Proof.
  induction m as [|[k e] m IH]; simpl.
  - split; [intros _ H; inversion H | done].
  - destruct (String.eqb_spec k p) as [->|Hne].
    + split; [done | intros H; exfalso; apply H; by left].
    + rewrite IH. rewrite not_elem_of_cons. intuition congruence.
Qed.

Lemma tracked_keys m p : tracked m p = true <-> p ∈ keys m.
Proof.
  unfold tracked. destruct (get_entry m p) eqn:E.
  - split; [intros _ | done].
    destruct (decide (p ∈ keys m)) as [|Hn]; [done|].
    apply get_entry_None_keys in Hn. congruence.
  - split; [done | intros Hin]. by apply get_entry_None_keys in E.
Qed.

Lemma tracked_false_keys m p : tracked m p = false <-> p ∉ keys m.
Proof.
  rewrite <- tracked_keys. destruct (tracked m p); intuition congruence.
Qed.

Lemma get_entry_elem m p e : get_entry m p = Some e -> (p, e) ∈ m.
Proof.
  induction m as [|[k e'] m IH]; simpl; [done|].
  destruct (String.eqb_spec k p) as [->|Hne].
  - intros [= ->]. by left.
  - intros H. right. by apply IH.
Qed.

Lemma elem_get_entry m p e :
  NoDup (keys m) -> (p, e) ∈ m -> get_entry m p = Some e.
Proof.
  induction m as [|[k e'] m IH]; simpl; intros Hnd Hin.
  - by apply elem_of_nil in Hin.
  - apply NoDup_cons in Hnd as [Hk Hnd].
    apply elem_of_cons in Hin as [[= <- <-]|Hin].
    + by rewrite String.eqb_refl.
    + destruct (String.eqb_spec k p) as [->|Hne]; [|by apply IH].
      exfalso. apply Hk. change (p ∈ keys m).
      apply list_elem_of_fmap. by exists (p, e).
Qed.

Lemma keys_replace_entry m p e : keys (replace_entry m p e) = keys m.
Proof.
  induction m as [|[k e'] m IH]; simpl; [done|].
  destruct (String.eqb_spec k p); simpl; [done | by rewrite IH].
Qed.

Lemma get_entry_replace_eq m p e :
  p ∈ keys m -> get_entry (replace_entry m p e) p = Some e.
Proof.
  induction m as [|[k e'] m IH]; simpl; intros Hin.
  - by apply elem_of_nil in Hin.
  - destruct (String.eqb_spec k p) as [->|Hne]; simpl.
    + by rewrite String.eqb_refl.
    + apply String.eqb_neq in Hne as Hb. rewrite Hb.
      apply elem_of_cons in Hin as [->|Hin]; [done | by apply IH].
Qed.

Lemma get_entry_replace_ne m p q e :
  p <> q -> get_entry (replace_entry m p e) q = get_entry m q.
Proof.
  intros Hpq. induction m as [|[k e'] m IH]; simpl; [done|].
  destruct (String.eqb_spec k p) as [->|Hne]; simpl.
  - apply String.eqb_neq in Hpq. by rewrite Hpq.
  - by rewrite IH.
Qed.

Lemma get_entry_app_r m p e :
  get_entry (m ++ [(p, e)]) p =
  match get_entry m p with Some e' => Some e' | None => Some e end.
Proof.
  induction m as [|[k e'] m IH]; simpl.
  - by rewrite String.eqb_refl.
  - by destruct (String.eqb k p).
Qed.

Lemma get_entry_app_ne m p q e :
  p <> q -> get_entry (m ++ [(p, e)]) q = get_entry m q.
Proof.
  intros Hpq. induction m as [|[k e'] m IH]; simpl.
  - apply String.eqb_neq in Hpq. by rewrite Hpq.
  - by rewrite IH.
Qed.

Lemma get_entry_add_eq m p e : get_entry (add_entry m p e) p = Some e.
Proof.
  unfold add_entry. destruct (tracked m p) eqn:Ht.
  - apply get_entry_replace_eq. by apply tracked_keys.
  - rewrite get_entry_app_r. unfold tracked in Ht.
    by destruct (get_entry m p).
Qed.

Lemma get_entry_add_ne m p q e :
  p <> q -> get_entry (add_entry m p e) q = get_entry m q.
Proof.
  intros Hpq. unfold add_entry. destruct (tracked m p).
  - by apply get_entry_replace_ne.
  - by apply get_entry_app_ne.
Qed.

Lemma keys_add_entry m p e :
  keys (add_entry m p e) = if tracked m p then keys m else keys m ++ [p].
Proof.
  unfold add_entry. destruct (tracked m p).
  - apply keys_replace_entry.
  - unfold keys. by rewrite map_app.
Qed.

Lemma NoDup_keys_add m p e : NoDup (keys m) -> NoDup (keys (add_entry m p e)).
Proof.
  intros Hnd. rewrite keys_add_entry. destruct (tracked m p) eqn:Ht; [done|].
  apply NoDup_app. split; [done|]. split.
  - intros x Hx Hp. apply list_elem_of_singleton in Hp as ->.
    by apply tracked_false_keys in Ht.
  - apply NoDup_singleton.
Qed.

Lemma elem_keys_add m p q e :
  q ∈ keys (add_entry m p e) <-> q = p \/ q ∈ keys m.
Proof.
  rewrite keys_add_entry. destruct (tracked m p) eqn:Ht.
  - apply tracked_keys in Ht. split; [auto | by intros [->|?]].
  - rewrite elem_of_app, list_elem_of_singleton. tauto.
Qed.

End ManifestFacts.

(** ** Properties of the commands *)

Section Properties.

Context {R : Type} {store : RemoteStore R} {host : Host}.
Variable sha256_hex : string -> string.

Abbreviation World := (World (R:=R)).
Abbreviation M := (M (R:=R)).

Implicit Types (w : World) (m : Manifest) (p : string) (e : Entry).

Lemma new_events_app w w' l : trace w' = trace w ++ l -> new_events w w' = l.
Proof. unfold new_events. intros ->. by rewrite drop_app_length. Qed.

Lemma for_each_app {A S} (body : A -> S -> M S) l1 l2 s w :
  for_each body (l1 ++ l2) s w =
  match for_each body l1 s w with
  | (Ret s1, w1) => for_each body l2 s1 w1
  | (Exit c, w1) => (Exit c, w1)
  | (Raise x, w1) => (Raise x, w1)
  end.
Proof.
  revert s w. induction l1 as [|x l1 IH]; intros s w; simpl; [done|].
  unfold bind. destruct (body x s w) as [[s1|c|x'] w1]; [apply IH|done..].
Qed.

Lemma hash_matches_false stored current :
  stored <> Some current -> hash_matches stored current = false.
Proof.
  destruct stored as [h|]; simpl; [|done].
  intros Hne. apply String.eqb_neq. congruence.
Qed.

Lemma hash_matches_true stored current :
  hash_matches stored current = true <-> stored = Some current.
Proof.
  destruct stored as [h|]; simpl; [|done].
  rewrite String.eqb_eq. split; [by intros -> | by intros [= ->]].
Qed.

(** *** The reconciler *)

Lemma elem_of_List_filter {A} (f : A -> bool) (l : list A) x :
  x ∈ List.filter f l <-> x ∈ l /\ f x = true.
Proof. rewrite !list_elem_of_In. apply filter_In. Qed.

Lemma List_filter_Permutation {A} (f : A -> bool) (l1 l2 : list A) :
  l1 ≡ₚ l2 -> List.filter f l1 ≡ₚ List.filter f l2.
Proof.
  induction 1 as [|x l1 l2 _ IH|x y l|l1 l2 l3 _ IH1 _ IH2]; simpl.
  - done.
  - destruct (f x); [by constructor | done].
  - destruct (f x), (f y); try done. apply perm_swap.
  - by etrans.
Qed.

Lemma status_tracked_step m p md dl w :
  status_tracked sha256_hex m p (md, dl) w =
  match read_node (fs w) p with
  | ReadFails => (Raise (ReadError p), w)
  | _ =>
      (Ret (md ++ (if is_modified sha256_hex m (fs w) p then [p] else []),
            dl ++ (if is_deleted (fs w) p then [p] else [])), w)
  end.
Proof.
  unfold status_tracked, bind, _read_local, is_modified, is_deleted, ret, raise.
  destruct (read_node (fs w) p) as [|s|]; simpl; rewrite ?app_nil_r; try done.
  destruct (get_entry m p) as [entry|]; simpl; rewrite ?app_nil_r; [|done].
  destruct (content_hash entry) as [h|]; simpl; rewrite ?app_nil_r; [|done].
  destruct (String.eqb (sha256_hex s) h); simpl; by rewrite ?app_nil_r.
Qed.

Lemma status_loop_ok m T md dl w :
  Forall (readable (fs w)) T ->
  for_each (status_tracked sha256_hex m) T (md, dl) w =
  (Ret (md ++ List.filter (is_modified sha256_hex m (fs w)) T,
        dl ++ List.filter (is_deleted (fs w)) T), w).
Proof.
  intros HT. revert md dl.
  induction HT as [|p T Hp HT IH]; intros md dl; cbn [for_each List.filter].
  - unfold ret. by rewrite !app_nil_r.
  - unfold bind. rewrite status_tracked_step.
    unfold readable in Hp.
    destruct (read_node (fs w) p) eqn:Hr; [| |done]; rewrite IH;
      destruct (is_modified sha256_hex m (fs w) p), (is_deleted (fs w) p);
      simpl; by rewrite <- ?app_assoc, ?app_nil_r.
Qed.

Lemma status_loop_ret m T st st' w w' :
  for_each (status_tracked sha256_hex m) T st w = (Ret st', w') ->
  Forall (readable (fs w)) T.
Proof.
  revert st. induction T as [|p T IH]; intros [md dl]; cbn [for_each];
    [by constructor|].
  unfold bind. rewrite status_tracked_step. unfold readable.
  destruct (read_node (fs w) p) eqn:Hr; [| |done]; intros Hrun;
    (constructor; [by rewrite Hr | by eapply IH]).
Qed.

Lemma reconcile_ok m T L w :
  Forall (readable (fs w)) T ->
  reconcile sha256_hex m T L w =
  (Ret (mkChanges (status_untracked m L)
          (List.filter (is_modified sha256_hex m (fs w)) T)
          (List.filter (is_deleted (fs w)) T)), w).
Proof.
  intros HT. unfold reconcile, bind. by rewrite status_loop_ok.
Qed.

Lemma reconcile_ret m T L w c w' :
  reconcile sha256_hex m T L w = (Ret c, w') ->
  Forall (readable (fs w)) T /\ w' = w /\
  new_files c = status_untracked m L /\
  modified c = List.filter (is_modified sha256_hex m (fs w)) T /\
  deleted c = List.filter (is_deleted (fs w)) T.
Proof.
  intros Hrun.
  assert (Forall (readable (fs w)) T) as HT.
  { unfold reconcile, bind in Hrun.
    destruct (for_each _ T _ w) as [[st'| |] w1] eqn:Hloop; [|done..].
    by eapply status_loop_ret. }
  rewrite (reconcile_ok _ _ _ _ HT) in Hrun. by simplify_eq.
Qed.

Lemma sorted_Permutation (l1 l2 : list string) : l1 ≡ₚ l2 -> sorted l1 = sorted l2.
Proof.
  intros Hp. unfold sorted.
  apply (Sorted_unique String.le); try apply Sorted_merge_sort; try apply _.
  by rewrite !merge_sort_Permutation.
Qed.

Lemma print_section_Permutation header line (l1 l2 : list string) w :
  l1 ≡ₚ l2 -> print_section header line l1 w = print_section header line l2 w.
Proof.
  intros Hp. unfold print_section. rewrite (sorted_Permutation _ _ Hp).
  destruct l1, l2; try done.
  - by apply Permutation_nil_cons in Hp.
  - symmetry in Hp. by apply Permutation_nil_cons in Hp.
Qed.

Lemma report_Permutation (c c' : changes) w :
  new_files c ≡ₚ new_files c' -> modified c ≡ₚ modified c' ->
  deleted c ≡ₚ deleted c' -> report c w = report c' w.
Proof.
  destruct c as [n md dl], c' as [n' md' dl']. simpl. intros Hn Hm Hd.
  assert (
    bind (print_section MsgNewHeader MsgNewFile n) (fun _ =>
      bind (print_section MsgModifiedHeader MsgModifiedFile md) (fun _ =>
        print_section MsgDeletedHeader MsgDeletedFile dl)) w =
    bind (print_section MsgNewHeader MsgNewFile n') (fun _ =>
      bind (print_section MsgModifiedHeader MsgModifiedFile md') (fun _ =>
        print_section MsgDeletedHeader MsgDeletedFile dl')) w) as Hsame.
  { unfold bind.
    rewrite (print_section_Permutation _ _ _ _ w Hn).
    destruct (print_section _ _ n' w) as [[[]| |] w1]; [|done..].
    rewrite (print_section_Permutation _ _ _ _ w1 Hm).
    destruct (print_section _ _ md' w1) as [[[]| |] w2]; [|done..].
    apply (print_section_Permutation _ _ _ _ w2 Hd). }
  unfold report. cbn [new_files modified deleted].
  destruct n, n'; try (by apply Permutation_nil_cons in Hn);
    try (symmetry in Hn; by apply Permutation_nil_cons in Hn); [|apply Hsame].
  destruct md, md'; try (by apply Permutation_nil_cons in Hm);
    try (symmetry in Hm; by apply Permutation_nil_cons in Hm); [|apply Hsame].
  destruct dl, dl'; try (by apply Permutation_nil_cons in Hd);
    try (symmetry in Hd; by apply Permutation_nil_cons in Hd); [done|apply Hsame].
Qed.


Lemma read_node_text w p raw :
  fs w !! p = Some (Text raw) ->
  read_node (fs w) p = Content (Str.universal_newlines raw).
Proof. unfold read_node. by intros ->. Qed.

Lemma status_untracked_elem m L p :
  p ∈ status_untracked m L <-> p ∈ L /\ p ∉ keys m.
Proof.
  unfold status_untracked. rewrite elem_of_List_filter, <- tracked_false_keys.
  destruct (tracked m p); cbn; intuition congruence.
Qed.

(** C4, as amended.  Whatever order the two Python sets are iterated in
    ([T] for the tracked paths, [L] for the files found), when every
    tracked file can be read or is absent, [status] returns, leaves the
    world as it was, and: New, Modified and Deleted are pairwise disjoint; a
    tracked entry whose file reads back with the stored hash is in none of
    them; a tracked entry without stored hash whose file exists is in none
    of them; a second run, with the sets iterated in another order, yields
    the same three sets and prints the same report. *)
Theorem status_sets_disjoint_and_stable m w T L T' L' :
  T ≡ₚ remove_dups (keys m) ->
  T' ≡ₚ T -> L' ≡ₚ L ->
  Forall (readable (fs w)) T ->
  exists c,
    reconcile sha256_hex m T L w = (Ret c, w) /\
    (forall p, ~ (p ∈ new_files c /\ p ∈ modified c)) /\
    (forall p, ~ (p ∈ new_files c /\ p ∈ deleted c)) /\
    (forall p, ~ (p ∈ modified c /\ p ∈ deleted c)) /\
    (forall p e raw,
        get_entry m p = Some e -> fs w !! p = Some (Text raw) ->
        content_hash e = Some (sha256_hex (Str.universal_newlines raw)) ->
        (p ∉ new_files c) /\ (p ∉ modified c) /\ (p ∉ deleted c)) /\
    (forall p e raw,
        get_entry m p = Some e -> fs w !! p = Some (Text raw) ->
        content_hash e = None ->
        (p ∉ new_files c) /\ (p ∉ modified c) /\ (p ∉ deleted c)) /\
    exists c',
      reconcile sha256_hex m T' L' w = (Ret c', w) /\
      new_files c' ≡ₚ new_files c /\
      modified c' ≡ₚ modified c /\
      deleted c' ≡ₚ deleted c /\
      forall w0, report c' w0 = report c w0.
Proof.
  intros HT HT' HL' Hread.
  eexists. split; [by apply reconcile_ok|].
  set (c := mkChanges _ _ _).
  assert (new_files c = status_untracked m L) as Hnew by done.
  assert (modified c = List.filter (is_modified sha256_hex m (fs w)) T) as Hmod by done.
  assert (deleted c = List.filter (is_deleted (fs w)) T) as Hdel by done.
  clearbody c.
  assert (forall p, p ∈ T -> p ∈ keys m) as Hkeys.
  { intros p Hp. rewrite HT in Hp. by rewrite elem_of_remove_dups in Hp. }
  assert (forall p e, get_entry m p = Some e -> p ∉ new_files c) as Htracked.
  { intros p e He. rewrite Hnew, status_untracked_elem. intros [_ Hn].
    apply Hn, tracked_keys, get_entry_tracked. by eexists. }
  split; [|split; [|split; [|split; [|split]]]].
  - intros p [Hn Hm]. rewrite Hnew in Hn. rewrite Hmod in Hm.
    apply status_untracked_elem in Hn as [_ Hn].
    apply elem_of_List_filter in Hm as [Hm _]. auto.
  - intros p [Hn Hd]. rewrite Hnew in Hn. rewrite Hdel in Hd.
    apply status_untracked_elem in Hn as [_ Hn].
    apply elem_of_List_filter in Hd as [Hd _]. auto.
  - intros p [Hm Hd]. rewrite Hmod in Hm. rewrite Hdel in Hd.
    apply elem_of_List_filter in Hm as [_ Hm].
    apply elem_of_List_filter in Hd as [_ Hd].
    unfold is_modified in Hm. unfold is_deleted in Hd.
    by destruct (read_node (fs w) p).
  - intros p e raw He Hfile Hhash. split; [by eapply Htracked|]. split.
    + rewrite Hmod, elem_of_List_filter. intros [_ Hm].
      unfold is_modified in Hm.
      rewrite (read_node_text _ _ _ Hfile), He, Hhash, String.eqb_refl in Hm. done.
    + rewrite Hdel, elem_of_List_filter. intros [_ Hd].
      unfold is_deleted in Hd. by rewrite (read_node_text _ _ _ Hfile) in Hd.
  - intros p e raw He Hfile Hhash. split; [by eapply Htracked|]. split.
    + rewrite Hmod, elem_of_List_filter. intros [_ Hm].
      unfold is_modified in Hm.
      rewrite (read_node_text _ _ _ Hfile), He, Hhash in Hm. done.
    + rewrite Hdel, elem_of_List_filter. intros [_ Hd].
      unfold is_deleted in Hd. by rewrite (read_node_text _ _ _ Hfile) in Hd.
  - assert (Forall (readable (fs w)) T') as Hread' by by rewrite HT'.
    eexists. split; [by apply reconcile_ok|].
    cbn [new_files modified deleted].
    assert (status_untracked m L' ≡ₚ new_files c) as Pn.
    { rewrite Hnew. by apply List_filter_Permutation. }
    assert (List.filter (is_modified sha256_hex m (fs w)) T' ≡ₚ modified c) as Pm.
    { rewrite Hmod. by apply List_filter_Permutation. }
    assert (List.filter (is_deleted (fs w)) T' ≡ₚ deleted c) as Pd.
    { rewrite Hdel. by apply List_filter_Permutation. }
    repeat split; try done.
    intros w0. by apply report_Permutation.
Qed.

(** *** [status] against [push] *)

Lemma new_events_refl w : new_events w w = [].
Proof. unfold new_events. apply drop_all. Qed.

Lemma push_fetches_iff (args : push_args) p e raw st w :
  fs w !! p = Some (Text raw) ->
  filtered_out (args_category args) (category e) = false ->
  push_fetches sha256_hex args (p, e) st w =
  negb (hash_matches (content_hash e) (sha256_hex (Str.universal_newlines raw))).
Proof.
  intros Hfile Hfilter. unfold push_fetches, push_tracked. rewrite Hfilter.
  unfold bind at 1. unfold _read_local. rewrite (read_node_text _ _ _ Hfile).
  cbn [ret].
  destruct (hash_matches _ _); cbn [negb].
  - unfold ret. cbn [snd]. by rewrite new_events_refl.
  - unfold bind at 1. unfold client_get_doc, request.
    destruct (get_doc (id e) (remote w)) as [[doc|status msg| |] remote'].
    + cbn [snd]. destruct (negb (doc_version doc =? version e)%Z).
      * unfold bind, print_err, emit, ret. cbn.
        rewrite <- app_assoc. erewrite new_events_app; [|done]. cbn.
        apply String.eqb_refl.
      * unfold bind at 1. unfold client_update_doc, request. cbn.
        destruct (update_doc _ _ _ _ _ remote') as [[doc'|status msg| |] remote''];
          unfold bind, save, print, print_err, emit, ret, raise; cbn;
          try destruct (write_manifest _ _); cbn;
          rewrite <- ?app_assoc; (erewrite new_events_app; [|done]); cbn;
          apply String.eqb_refl.
    + unfold bind, print_err, emit, ret. cbn.
      rewrite <- app_assoc. erewrite new_events_app; [|done]. cbn.
      apply String.eqb_refl.
    + cbn. erewrite new_events_app; [|done]. cbn. apply String.eqb_refl.
    + cbn. erewrite new_events_app; [|done]. cbn. apply String.eqb_refl.
Qed.

(** C3, as amended.  [status] gets through the tracked files (each can
    be read or is absent).  For a tracked path whose file exists and whose
    entry [push] does not filter out: [status] lists it as modified exactly
    when [push] fetches the remote version for it and the entry has a
    stored hash; an entry without stored hash is never listed as modified,
    and [push] always fetches for it. *)
Theorem status_push_agree_on_hashed_entries
    (args : push_args) m T L w p e raw st :
  Forall (readable (fs w)) T ->
  p ∈ T -> get_entry m p = Some e ->
  fs w !! p = Some (Text raw) ->
  filtered_out (args_category args) (category e) = false ->
  exists c,
    reconcile sha256_hex m T L w = (Ret c, w) /\
    (p ∈ modified c <->
       push_fetches sha256_hex args (p, e) st w = true /\ is_Some (content_hash e)) /\
    (content_hash e = None ->
       (p ∉ modified c) /\ push_fetches sha256_hex args (p, e) st w = true).
Proof.
  intros Hread HpT He Hfile Hfilter.
  eexists. split; [by apply reconcile_ok|]. cbn [modified].
  rewrite (push_fetches_iff _ _ _ _ _ _ Hfile Hfilter).
  rewrite elem_of_List_filter. unfold is_modified.
  rewrite (read_node_text _ _ _ Hfile), He.
  destruct (content_hash e) as [h|]; cbn.
  - rewrite String.eqb_sym. split; [|intros [=]].
    split; [intros [_ Hne]; eauto | intros [Hne _]; eauto].
  - split; [|intros _; split; [intros [_ [=]] | done]].
    split; [intros [_ [=]] | intros [_ [? [=]]]].
Qed.

(** *** What one step of a batch can do to the world *)

Lemma changes_only_refl w P : changes_only w w P.
Proof. split; [done|]. exists []. by rewrite app_nil_r. Qed.

Lemma changes_only_trans w1 w2 w3 (P : event -> Prop) :
  changes_only w1 w2 P -> changes_only w2 w3 P -> changes_only w1 w3 P.
Proof.
  intros [Hf1 (evs1 & Ht1 & HP1)] [Hf2 (evs2 & Ht2 & HP2)].
  split; [congruence|]. exists (evs1 ++ evs2). split.
  - by rewrite Ht2, Ht1, app_assoc.
  - by apply Forall_app.
Qed.

Lemma changes_only_weaken w w' (P Q : event -> Prop) :
  (forall ev, P ev -> Q ev) -> changes_only w w' P -> changes_only w w' Q.
Proof.
  intros HPQ [Hf (evs & Ht & HP)]. split; [done|]. exists evs.
  split; [done|]. eapply Forall_impl; eauto.
Qed.

Lemma for_each_changes_only {A S} (body : A -> S -> M S) (P : A -> event -> Prop)
    (files : gmap string fnode) l s w r w' :
  (forall x s w r w',
      x ∈ l -> fs w = files -> body x s w = (r, w') -> changes_only w w' (P x)) ->
  fs w = files ->
  for_each body l s w = (r, w') ->
  changes_only w w' (fun ev => exists x, x ∈ l /\ P x ev).
Proof.
  revert s w. induction l as [|x l IH]; intros s w Hbody Hfiles; cbn [for_each].
  - intros [= <- <-]. apply changes_only_refl.
  - unfold bind. destruct (body x s w) as [r1 w1] eqn:Hstep.
    assert (changes_only w w1 (fun ev => exists y, y ∈ x :: l /\ P y ev)) as H1.
    { eapply changes_only_weaken; [|eapply (Hbody x); [by left | done | done]].
      intros ev Hev. exists x. split; [by left | done]. }
    destruct r1 as [s1|code|x']; try (intros [= <- <-]; exact H1).
    intros Hrest. eapply changes_only_trans; [exact H1|].
    eapply changes_only_weaken; [|eapply IH; [| |exact Hrest]].
    + intros ev (y & Hy & HPy). exists y. split; [by right | done].
    + intros y s' w0 r' w0' Hy. apply Hbody. by right.
    + destruct H1 as [Hf _]. congruence.
Qed.

Lemma push_tracked_changes (args : push_args) item st w r w' :
  push_tracked sha256_hex args item st w = (r, w') ->
  changes_only w w' not_create.
Proof.
  destruct item as [p e]. unfold push_tracked.
  destruct (filtered_out _ _); [intros [= <- <-]; apply changes_only_refl|].
  unfold bind at 1. unfold _read_local.
  destruct (read_node (fs w) p) as [|content|]; cbn [ret raise];
    [| |intros [= <- <-]; apply changes_only_refl].
  - destruct (args_delete args).
    + unfold bind at 1. unfold client_delete_doc, request.
      destruct (delete_doc (id e) (remote w)) as [[[]|status msg| |] remote'];
        unfold bind, print, print_err, emit, ret; cbn;
        intros [= <- <-]; finish_changes.
    + unfold bind, print, emit, ret; cbn. intros [= <- <-]. finish_changes.
  - destruct (hash_matches _ _); [intros [= <- <-]; apply changes_only_refl|].
    unfold bind at 1. unfold client_get_doc, request.
    destruct (get_doc (id e) (remote w)) as [[doc|status msg| |] remote'];
      [|unfold bind, print_err, emit, ret; cbn; intros [= <- <-]; finish_changes..].
    destruct (negb (doc_version doc =? version e)%Z).
    + unfold bind, print_err, emit, ret; cbn. intros [= <- <-]. finish_changes.
    + unfold bind at 1. unfold client_update_doc, request. cbn.
      destruct (update_doc _ _ _ _ _ remote') as [[doc'|status msg| |] remote''];
        unfold bind, save, print, print_err, emit, ret, raise; cbn;
        try destruct (write_manifest _ _); cbn;
        intros [= <- <-]; finish_changes.
Qed.

Lemma push_untracked_changes (args : push_args) p st w r w' :
  push_untracked sha256_hex args p st w = (r, w') ->
  changes_only w w' (creates_for (fs w) p).
Proof.
  unfold push_untracked.
  destruct (tracked _ _); [intros [= <- <-]; apply changes_only_refl|].
  destruct (filtered_out _ _); [intros [= <- <-]; apply changes_only_refl|].
  unfold bind at 1. unfold read_text.
  destruct (read_node (fs w) p) as [|content|] eqn:Hread; cbn [ret raise];
    [intros [= <- <-]; apply changes_only_refl| |
     intros [= <- <-]; apply changes_only_refl].
  unfold bind at 1. unfold client_create_doc, request.
  destruct (create_doc _ _ _ (remote w)) as [[doc|status msg| |] remote'];
    unfold bind, save, print, print_err, emit, ret, raise; cbn;
    try destruct (write_manifest _ _); cbn;
    intros [= <- <-]; finish_changes.
Qed.


(** *** [push] with nothing to do *)

Lemma push_tracked_unchanged (args : push_args) p e st w raw :
  fs w !! p = Some (Text raw) ->
  content_hash e = Some (sha256_hex (Str.universal_newlines raw)) ->
  push_tracked sha256_hex args (p, e) st w = (Ret st, w).
Proof.
  intros Hfile Hhash. unfold push_tracked.
  destruct (filtered_out _ _); [done|].
  unfold bind. unfold _read_local. rewrite (read_node_text _ _ _ Hfile).
  cbn [ret]. apply hash_matches_true in Hhash. by rewrite Hhash.
Qed.

Lemma push_untracked_tracked (args : push_args) p st w :
  p ∈ keys (ps_manifest st) ->
  push_untracked sha256_hex args p st w = (Ret st, w).
Proof.
  intros Hp. apply tracked_keys in Hp. unfold push_untracked. by rewrite Hp.
Qed.

Lemma elem_of_sorted (l : list string) p : p ∈ sorted l <-> p ∈ l.
Proof. unfold sorted. by rewrite merge_sort_Permutation. Qed.

Lemma elem_of_sorted_paths (l : list string) p : p ∈ sorted_paths l <-> p ∈ l.
Proof. unfold sorted_paths. by rewrite merge_sort_Permutation. Qed.

(** X23.  The manifest on disk is [m], every entry's file exists and the
    text read from it (line ends translated to line feeds) has the stored
    hash, every [.md] file under the knowledge root is tracked, and
    [--category] is absent or one of the fixed categories: [push] returns
    having added one line to the trace, "nothing to push".  Hence no call
    to the Remote Store (whose state is untouched), no save and no file
    change. *)
Theorem push_without_changes_is_silent (args : push_args) w m :
  disk w = Stored m ->
  unknown_category (args_category args) = None ->
  (forall p e, (p, e) ∈ m ->
     exists raw, fs w !! p = Some (Text raw) /\
                 content_hash e = Some (sha256_hex (Str.universal_newlines raw))) ->
  (forall p, p ∈ rglob_md (fs w) -> p ∈ keys m) ->
  cmd_push sha256_hex args w =
    (Ret tt, mkWorld (fs w) (disk w) (remote w) (trace w ++ [EvOut MsgNothingToPush])).
Proof.
  intros Hdisk Hcat Hclean Hall.
  unfold cmd_push. unfold bind at 1. unfold is_initialized. rewrite Hdisk.
  cbn [negb]. unfold bind at 1. unfold load. rewrite Hdisk. cbn [ret].
  rewrite Hcat.
  assert (forall items st,
    (forall p e, (p, e) ∈ items -> (p, e) ∈ m) ->
    for_each (push_tracked sha256_hex args) items st w = (Ret st, w)) as Hloop1.
  { induction items as [|[p e] items IH]; intros st Hsub; cbn [for_each]; [done|].
    unfold bind.
    destruct (Hclean p e) as (raw & Hfile & Hhash); [apply Hsub; by left|].
    rewrite (push_tracked_unchanged _ _ _ _ _ _ Hfile Hhash).
    apply IH. intros p' e' Hin. apply Hsub. by right. }
  assert (forall paths st,
    ps_manifest st = m -> (forall p, p ∈ paths -> p ∈ keys m) ->
    for_each (push_untracked sha256_hex args) paths st w = (Ret st, w)) as Hloop2.
  { induction paths as [|p paths IH]; intros st Hst Hsub; cbn [for_each]; [done|].
    unfold bind. rewrite push_untracked_tracked.
    - apply IH; [done|]. intros p' Hin. apply Hsub. by right.
    - rewrite Hst. apply Hsub. by left. }
  unfold bind at 1. rewrite Hloop1; [|done].
  unfold bind at 1. unfold local_md_files.
  unfold bind at 1.
  rewrite Hloop2; [unfold push_summary, print, emit; cbn; by rewrite Hdisk|done|].
  intros p Hp. apply Hall. by rewrite elem_of_sorted_paths in Hp.
Qed.

(** *** Unreadable and absent tracked files *)

Lemma for_each_push_tracked_fs (args : push_args) items st w r w' :
  for_each (push_tracked sha256_hex args) items st w = (r, w') -> fs w' = fs w.
Proof.
  intros Hrun.
  eapply (for_each_changes_only _ (fun _ => not_create) (fs w)) in Hrun
    as [Hfs _]; [done| |done].
  intros x s0 w0 r0 w0' _ _. apply push_tracked_changes.
Qed.

(** C2.  [push] runs on the manifest [pre ++ (rel_path, entry) :: rest]
    and its first loop gets through [pre].  The entry is not filtered out,
    its file reads back with a hash other than the stored one, and the
    Remote Store answers the fetch with a document whose version is not
    the stored version.  Then [push] goes on with [rest] and all that
    follows from the state reached before the entry, with one more error
    and the same manifest, in memory and on disk; the entry added to the
    trace exactly the fetch and the conflict line on stderr, hence no
    update call and no save. *)
Theorem push_conflict_reported_and_skipped
    (args : push_args) pre rel_path entry rest w st1 w1 raw remote_doc remote' :
  disk w = Stored (pre ++ (rel_path, entry) :: rest) ->
  unknown_category (args_category args) = None ->
  for_each (push_tracked sha256_hex args) pre
    (mkPush (pre ++ (rel_path, entry) :: rest) O O O O) w = (Ret st1, w1) ->
  filtered_out (args_category args) (category entry) = false ->
  fs w !! rel_path = Some (Text raw) ->
  content_hash entry <> Some (sha256_hex (Str.universal_newlines raw)) ->
  get_doc (id entry) (remote w1) = (ApiOk remote_doc, remote') ->
  doc_version remote_doc <> version entry ->
  let st2 := count_error st1 in
  let w2 :=
    mkWorld (fs w1) (disk w1) remote'
      (trace w1 ++
         [EvGet (id entry) (ApiOk remote_doc);
          EvErr (MsgConflict rel_path (version entry) (doc_version remote_doc))]) in
  cmd_push sha256_hex args w = push_rest sha256_hex args rest st2 w2 /\
  ps_manifest st2 = ps_manifest st1 /\
  ps_errors st2 = S (ps_errors st1) /\
  ps_updated st2 = ps_updated st1 /\
  ps_created st2 = ps_created st1 /\
  ps_deleted_count st2 = ps_deleted_count st1.
Proof.
  intros Hdisk Hcat Hpre Hfilter Hfile Hhash Hget Hver st2 w2.
  split; [|done].
  pose proof (for_each_push_tracked_fs _ _ _ _ _ _ Hpre) as Hfs.
  rewrite <- Hfs in Hfile.
  unfold cmd_push. unfold bind at 1. unfold is_initialized. rewrite Hdisk.
  cbn [negb]. unfold bind at 1. unfold load. rewrite Hdisk. cbn [ret].
  rewrite Hcat. unfold push_rest. unfold bind at 1 6.
  rewrite for_each_app, Hpre. cbn [for_each]. unfold bind at 1.
  unfold push_tracked at 1. rewrite Hfilter.
  unfold bind at 1. unfold _read_local, read_node. rewrite Hfile. cbn [ret].
  rewrite (hash_matches_false _ _ Hhash).
  unfold bind at 1. unfold client_get_doc, request. rewrite Hget. cbn iota zeta beta.
  apply Z.eqb_neq in Hver. rewrite Hver. cbn [negb].
  unfold bind at 1. unfold print_err at 1, emit at 1. cbn [fs disk remote trace].
  unfold ret at 1. by rewrite <- app_assoc.
Qed.

(** C8, as amended.  A tracked file that exists but cannot be read is not
    taken for an absent one: when the batch reaches its entry (not
    filtered out), the read error ends the whole [push] there; the entries
    after it are not looked at and no summary is printed.  Only a file that
    does not exist follows the deleted-locally branch: without [--delete]
    it is reported as skipped and nothing else happens; with [--delete]
    the Remote Store is asked to delete the document, and the answer
    decides between removing the entry, counting an error, and exiting
    (a call that gets no usable answer ends [push] with its exception). *)
Theorem push_stops_at_unreadable_file
    (args : push_args) pre p e rest w st1 w1 :
  disk w = Stored (pre ++ (p, e) :: rest) ->
  unknown_category (args_category args) = None ->
  for_each (push_tracked sha256_hex args) pre
    (mkPush (pre ++ (p, e) :: rest) O O O O) w = (Ret st1, w1) ->
  filtered_out (args_category args) (category e) = false ->
  (fs w !! p = Some Unreadable ->
     cmd_push sha256_hex args w = (Raise (ReadError p), w1)) /\
  (fs w !! p = None -> args_delete args = false ->
     push_tracked sha256_hex args (p, e) st1 w1 =
       (Ret st1,
        mkWorld (fs w1) (disk w1) (remote w1) (trace w1 ++ [EvOut (MsgSkipped p)]))) /\
  (fs w !! p = None -> args_delete args = true ->
     forall a remote', delete_doc (id e) (remote w1) = (a, remote') ->
     push_tracked sha256_hex args (p, e) st1 w1 =
       match a with
       | ApiOk _ =>
           (Ret (count_deleted
                   (with_manifest st1 (remove_entry (ps_manifest st1) p))),
            mkWorld (fs w1) (disk w1) remote'
              (trace w1 ++ [EvDelete (id e) a; EvOut (MsgDeleted p)]))
       | ApiError _ msg =>
           (Ret (count_error st1),
            mkWorld (fs w1) (disk w1) remote'
              (trace w1 ++ [EvDelete (id e) a; EvErr (MsgErrorDeleting p msg)]))
       | ApiExit =>
           (Exit 1%Z,
            mkWorld (fs w1) (disk w1) remote' (trace w1 ++ [EvDelete (id e) a]))
       | ApiDown =>
           (Raise TransportError,
            mkWorld (fs w1) (disk w1) remote' (trace w1 ++ [EvDelete (id e) a]))
       end).
Proof.
  intros Hdisk Hcat Hpre Hfilter.
  pose proof (for_each_push_tracked_fs _ _ _ _ _ _ Hpre) as Hfs.
  split; [|split].
  - intros Hfile.
    unfold cmd_push. unfold bind at 1. unfold is_initialized. rewrite Hdisk.
    cbn [negb]. unfold bind at 1. unfold load. rewrite Hdisk. cbn [ret].
    rewrite Hcat. unfold bind at 1.
    rewrite for_each_app, Hpre. cbn [for_each]. unfold bind at 1.
    unfold push_tracked. rewrite Hfilter. unfold bind at 1.
    unfold _read_local, read_node. rewrite Hfs, Hfile. done.
  - intros Hfile Hdel. rewrite <- Hfs in Hfile.
    unfold push_tracked. rewrite Hfilter. unfold bind at 1.
    unfold _read_local, read_node. rewrite Hfile. cbn [ret].
    rewrite Hdel. reflexivity.
  - intros Hfile Hdel a remote' Hcall. rewrite <- Hfs in Hfile.
    unfold push_tracked. rewrite Hfilter.
    unfold bind at 1. unfold _read_local, read_node. rewrite Hfile.
    cbn [ret]. rewrite Hdel. unfold bind at 1.
    unfold client_delete_doc, request. rewrite Hcall.
    destruct a as [[]|status msg| |]; unfold bind, print, print_err, emit, ret; cbn;
      by rewrite <- ?app_assoc.
Qed.


(** *** Category inference *)

Lemma append_empty_r (s : string) : s +:+ "" = s.
Proof.
  induction s as [|c s IH]; [done|].
  change (String c (s +:+ "") = String c s). by rewrite IH.
Qed.

Lemma rev_app_rev_app (a b c : string) :
  String.rev_app (String.rev_app a b) c = String.rev_app b (a +:+ c).
Proof.
  revert b c. induction a as [|x a IH]; intros b c; [done|].
  cbn [String.rev_app]. by rewrite IH.
Qed.

Lemma rev_rev (s : string) : String.rev (String.rev s) = s.
Proof.
  unfold String.rev. rewrite rev_app_rev_app. apply append_empty_r.
Qed.

Lemma rev_app_not_empty (s : string) c cur :
  Str.is_empty (String.rev_app s (String c cur)) = false.
Proof. revert c cur. induction s as [|x s IH]; intros c cur; [done|]. apply IH. Qed.

Lemma mem_slash_cons c (s : string) :
  Str.mem Str.slash (String c s) = false ->
  Ascii.eqb c Str.slash = false /\ Str.mem Str.slash s = false.
Proof.
  unfold Str.mem. cbn. intros H. apply orb_false_elim in H as [H1 H2].
  split; [|done]. by rewrite Ascii.eqb_sym.
Qed.

Lemma split_go_segment_slash (seg cur rest : string) :
  Str.mem Str.slash seg = false ->
  Str.split_go cur (seg +:+ String Str.slash rest) =
  flush (String.rev_app seg cur) ++ Str.split_go "" rest.
Proof.
  revert cur. induction seg as [|c seg IH]; intros cur Hseg.
  - done.
  - apply mem_slash_cons in Hseg as [Hc Hseg].
    change (String c seg +:+ String Str.slash rest)
      with (String c (seg +:+ String Str.slash rest)).
    cbn [Str.split_go String.rev_app]. rewrite Hc. by rewrite IH.
Qed.

Lemma split_go_segment (seg cur : string) :
  Str.mem Str.slash seg = false ->
  Str.split_go cur seg = flush (String.rev_app seg cur).
Proof.
  revert cur. induction seg as [|c seg IH]; intros cur Hseg.
  - done.
  - apply mem_slash_cons in Hseg as [Hc Hseg].
    cbn [Str.split_go String.rev_app]. rewrite Hc. by rewrite IH.
Qed.

Lemma flush_rev_segment (seg : string) :
  seg <> "" -> flush (String.rev_app seg "") = [seg].
Proof.
  intros Hne. unfold flush. destruct seg as [|c seg]; [done|].
  cbn [String.rev_app]. rewrite rev_app_not_empty.
  change (String.rev_app seg (String c "")) with (String.rev (String c seg)).
  by rewrite rev_rev.
Qed.

Lemma parts_nested (seg rest : string) :
  segment seg -> Str.parts (seg +:+ "/" +:+ rest) = seg :: Str.parts rest.
Proof.
  intros [Hne Hseg]. unfold Str.parts.
  change ("/" +:+ rest) with (String Str.slash rest).
  rewrite split_go_segment_slash by done. by rewrite flush_rev_segment.
Qed.

Lemma parts_segment (seg : string) : segment seg -> Str.parts seg = [seg].
Proof.
  intros [Hne Hseg]. unfold Str.parts.
  rewrite split_go_segment by done. by apply flush_rev_segment.
Qed.

Lemma split_go_pending (rest : string) c cur :
  Str.split_go (String c cur) rest <> [].
Proof.
  revert c cur. induction rest as [|a rest IH]; intros c cur; cbn [Str.split_go].
  - done.
  - destruct (Ascii.eqb a Str.slash); [done | apply IH].
Qed.

Lemma parts_names_file (rest : string) : names_file rest -> Str.parts rest <> [].
Proof.
  intros (c & Hc & Hin). unfold Str.parts. generalize "" as cur.
  induction rest as [|a rest IH]; intros cur; [done|].
  cbn [Str.split_go]. destruct (Ascii.eqb_spec a Str.slash) as [->|Ha].
  - unfold Str.mem in Hin. cbn [list_ascii_of_string existsb] in Hin.
    apply orb_prop in Hin as [Hin|Hin].
    + apply Ascii.eqb_eq in Hin. done.
    + intros Happ. apply app_eq_nil in Happ as [_ Happ]. by eapply IH.
  - apply split_go_pending.
Qed.

Lemma infer_category_spec p cat : spec_category p cat -> infer_category p = cat.
Proof.
  intros Hspec. unfold infer_category.
  destruct Hspec as [seg rest Hseg Hrest Hvalid|seg rest Hseg Hrest Hvalid|file Hseg].
  - apply parts_names_file in Hrest.
    change (relative_to_knowledge ("knowledge/" +:+ seg +:+ "/" +:+ rest))
      with (seg +:+ "/" +:+ rest).
    rewrite parts_nested by done.
    destruct (Str.parts rest) as [|x xs]; [done|].
    cbn -[valid_category]. by rewrite Hvalid.
  - apply parts_names_file in Hrest.
    change (relative_to_knowledge ("knowledge/" +:+ seg +:+ "/" +:+ rest))
      with (seg +:+ "/" +:+ rest).
    rewrite parts_nested by done.
    destruct (Str.parts rest) as [|x xs]; [done|].
    cbn -[valid_category]. by rewrite Hvalid.
  - change (relative_to_knowledge ("knowledge/" +:+ file)) with file.
    by rewrite parts_segment.
Qed.

(** C9.  Every [create] call of a [push] run is made for a [.md] file found
    under the knowledge root: its title is the file's name, its content is
    what the file reads as, and its category is the one inferred from the
    path.  That category is the one the specification names: the first
    segment below the root for a file inside a directory when the segment
    is one of the fixed categories, [general] when it is not, and
    [general] for a file directly under the root. *)
Theorem push_create_uses_inferred_category
    (args : push_args) w r w' title content cat a :
  cmd_push sha256_hex args w = (r, w') ->
  EvCreate title content cat a ∈ new_events w w' ->
  exists p,
    p ∈ rglob_md (fs w) /\
    title = name p /\
    read_node (fs w) p = Content content /\
    cat = infer_category p /\
    forall cat', spec_category p cat' -> cat = cat'.
Proof.
  intros Hrun Hev.
  assert (changes_only w w'
            (fun ev => ev = EvOut MsgNothingToPush \/
                       (exists c u d k, ev = EvOut (MsgPushComplete c u d k)) \/
                       (exists msg, ev = EvErr msg) \/
                       not_create ev \/
                       exists p, p ∈ sorted_paths (rglob_md (fs w)) /\
                                 creates_for (fs w) p ev)) as [_ (evs & Htr & Hall)].
  { unfold cmd_push in Hrun. unfold bind at 1 in Hrun.
    unfold is_initialized in Hrun.
    destruct (disk w) as [| | |m] eqn:Hdisk; cbn [negb] in Hrun.
    - unfold bind, print_err, emit, exit in Hrun. cbn in Hrun.
      injection Hrun as <- <-. split; [done|]. eexists. split; [done|].
      apply Forall_singleton. right. right. left. by eexists.
    - unfold bind at 1 in Hrun. unfold load in Hrun. rewrite Hdisk in Hrun.
      unfold bind, print_err, emit, exit in Hrun. cbn in Hrun.
      injection Hrun as <- <-. split; [done|]. eexists. split; [done|].
      apply Forall_singleton. right. right. left. by eexists.
    - unfold bind at 1 in Hrun. unfold load in Hrun. rewrite Hdisk in Hrun.
      unfold raise in Hrun. injection Hrun as <- <-. apply changes_only_refl.
    - unfold bind at 1 in Hrun. unfold load in Hrun. rewrite Hdisk in Hrun.
      cbn [ret] in Hrun.
      destruct (unknown_category (args_category args)) as [c|].
      { unfold bind, print_err, emit, exit in Hrun. cbn in Hrun.
        injection Hrun as <- <-. split; [done|]. eexists. split; [done|].
        apply Forall_singleton. right. right. left. by eexists. }
      unfold bind at 1 in Hrun.
      destruct (for_each (push_tracked sha256_hex args) m _ w)
        as [r1 w1] eqn:Hloop1.
      assert (changes_only w w1 not_create) as H1.
      { eapply changes_only_weaken;
          [|eapply (for_each_changes_only _ (fun _ => not_create) (fs w));
            [|done|exact Hloop1]].
        - by intros ev (_ & _ & ?).
        - intros x s0 w0 r0 w0' _ _. apply push_tracked_changes. }
      assert (fs w1 = fs w) as Hfs1 by apply H1.
      destruct r1 as [st1|code|x];
        try (injection Hrun as <- <-; eapply changes_only_weaken; [|exact H1];
             intros ev Hn; right; right; right; by left).
      unfold bind at 1 in Hrun. unfold local_md_files in Hrun.
      unfold bind at 1 in Hrun. rewrite Hfs1 in Hrun.
      destruct (for_each (push_untracked sha256_hex args) _ st1 w1)
        as [r2 w2] eqn:Hloop2.
      assert (changes_only w1 w2
                (fun ev => exists p, p ∈ sorted_paths (rglob_md (fs w)) /\
                                     creates_for (fs w) p ev)) as H2.
      { eapply (for_each_changes_only _ (fun p => creates_for (fs w) p) (fs w));
          [|done|exact Hloop2].
        intros p s0 w0 r0 w0' _ Hf0 Hstep. rewrite <- Hf0.
        by eapply push_untracked_changes. }
      eapply changes_only_trans;
        [eapply changes_only_weaken; [|exact H1]; intros ev Hn; right; right; right;
         by left|].
      eapply changes_only_trans;
        [eapply changes_only_weaken; [|exact H2]; intros ev Hn; right; right; right;
         by right|].
      destruct r2 as [st2|code|x];
        try (injection Hrun as <- <-; apply changes_only_refl).
      unfold push_summary, print, emit in Hrun.
      destruct (ps_created st2), (ps_updated st2), (ps_deleted_count st2),
        (ps_errors st2); injection Hrun as <- <-;
        (split; [done|]; eexists; split; [done|]; apply Forall_singleton;
         first [by left | right; left; by do 4 eexists]). }
  rewrite (new_events_app _ _ _ Htr) in Hev.
  rewrite Forall_forall in Hall. specialize (Hall _ Hev).
  destruct Hall as [?|[(?&?&?&?&?)|[[? ?]|[Hn|(p & Hp & Hc)]]]]; try done.
  cbn in Hc. destruct Hc as (-> & Hread & ->).
  exists p. repeat split; try done.
  - by rewrite elem_of_sorted_paths in Hp.
  - intros cat' Hspec. by apply infer_category_spec.
Qed.


(** *** [clone] *)

Lemma find_snoc {A} (f : A -> bool) (l : list A) x :
  List.find f (l ++ [x]) =
  match List.find f l with
  | Some y => Some y
  | None => if f x then Some x else None
  end.
Proof.
  induction l as [|y l IH]; cbn; [done|]. by destruct (f y).
Qed.

Lemma last_for_cons d docs q :
  last_for (d :: docs) q =
  match last_for docs q with
  | Some d' => Some d'
  | None => if String.eqb (doc_path d) q then Some d else None
  end.
Proof.
  unfold last_for. cbn [rev].
  apply (find_snoc (fun d0 => String.eqb (doc_path d0) q)).
Qed.

Lemma last_for_elem docs q d :
  last_for docs q = Some d -> d ∈ docs /\ doc_path d = q.
Proof.
  unfold last_for. intros Hfind. apply find_some in Hfind as [Hin Heq].
  split.
  - apply list_elem_of_In. by apply in_rev.
  - by apply String.eqb_eq.
Qed.

Lemma last_for_None docs q :
  last_for docs q = None <-> forall d, d ∈ docs -> doc_path d <> q.
Proof.
  unfold last_for. split.
  - intros Hfind d Hin Heq.
    eapply find_none in Hfind; [|apply in_rev; rewrite rev_involutive;
                                 by apply list_elem_of_In].
    apply String.eqb_neq in Hfind. done.
  - intros Hall. destruct (List.find _ _) as [d|] eqn:Hfind; [|done].
    apply find_some in Hfind as [Hin Heq]. exfalso.
    apply (Hall d); [apply list_elem_of_In; by apply in_rev|].
    by apply String.eqb_eq.
Qed.

Lemma last_for_app_last pre d post :
  (forall d', d' ∈ post -> doc_path d' <> doc_path d) ->
  last_for (pre ++ d :: post) (doc_path d) = Some d.
Proof.
  intros Hpost. induction pre as [|x pre IH]; cbn [app].
  - rewrite last_for_cons.
    apply last_for_None in Hpost. rewrite Hpost. by rewrite String.eqb_refl.
  - rewrite last_for_cons. by rewrite IH.
Qed.

Lemma clone_loop docs m0 n0 w :
  (forall files p content,
      p ∈ map doc_path docs -> write_file files p content = Written) ->
  exists m' w',
    for_each (clone_doc sha256_hex) docs (m0, n0) w =
      (Ret (m', (n0 + length docs)%nat), w') /\
    disk w' = disk w /\ remote w' = remote w /\
    trace w' =
      trace w ++ map (fun d => EvWrite (doc_path d) (content_of d)) docs /\
    (NoDup (keys m0) -> NoDup (keys m')) /\
    (forall q,
        get_entry m' q =
        match last_for docs q with
        | Some d => Some (entry_of_doc sha256_hex d)
        | None => get_entry m0 q
        end) /\
    (forall q,
        fs w' !! q =
        match last_for docs q with
        | Some d => Some (Text (content_of d))
        | None => fs w !! q
        end).
Proof.
  intros Hwrite. revert m0 n0 w.
  induction docs as [|d docs IH]; intros m0 n0 w.
  - exists m0, w. cbn [for_each length map]. rewrite Nat.add_0_r, app_nil_r.
    by repeat split.
  - cbn [for_each]. unfold bind at 1. unfold clone_doc at 1.
    unfold bind at 1. unfold _write_local. fold (doc_path d).
    rewrite (Hwrite (fs w) (doc_path d)) by by left. cbn [ret].
    match goal with
    | |- context [for_each _ docs (?m1, S n0) ?w1] =>
        destruct (IH ltac:(intros files p c Hp; apply Hwrite; by right)
                    m1 (S n0) w1)
          as (m' & w' & Hrun & Hdisk & Hremote & Htrace & Hnd & Hget & Hfs)
    end.
    exists m', w'. rewrite Hrun. cbn [length map].
    rewrite Nat.add_succ_r. split; [done|].
    split; [done|]. split; [done|]. split.
    { rewrite Htrace. cbn [trace]. by rewrite <- app_assoc. }
    split.
    { intros H0. apply Hnd. by apply NoDup_keys_add. }
    split.
    + intros q. rewrite Hget, last_for_cons.
      destruct (last_for docs q); [done|].
      fold (doc_path d).
      destruct (String.eqb_spec (doc_path d) q) as [<-|Hne].
      * by rewrite get_entry_add_eq.
      * by rewrite get_entry_add_ne.
    + intros q. rewrite Hfs, last_for_cons.
      destruct (last_for docs q); [done|]. cbn [fs].
      fold (doc_path d).
      destruct (String.eqb_spec (doc_path d) q) as [<-|Hne].
      * by rewrite lookup_insert_eq.
      * by rewrite lookup_insert_ne.
Qed.

Lemma NoDup_map_eq {A B} (f : A -> B) (l : list A) x y :
  NoDup (map f l) -> x ∈ l -> y ∈ l -> f x = f y -> x = y.
Proof.
  induction l as [|z l IH]; cbn [map]; intros Hnd Hx Hy Hf.
  - by apply elem_of_nil in Hx.
  - apply NoDup_cons in Hnd as [Hz Hnd].
    apply elem_of_cons in Hx as [->|Hx]; apply elem_of_cons in Hy as [->|Hy].
    + done.
    + exfalso. apply Hz. rewrite Hf. change (map f l) with (f <$> l).
      by apply list_elem_of_fmap_2.
    + exfalso. apply Hz. rewrite <- Hf. change (map f l) with (f <$> l).
      by apply list_elem_of_fmap_2.
    + by apply IH.
Qed.

Lemma cmd_clone_run (category : option string) w docs remote' :
  disk w = NoManifest ->
  unknown_category category = None ->
  list_docs category (remote w) = (ApiOk docs, remote') ->
  docs <> [] ->
  writes_succeed (map doc_path docs) ->
  exists m' files,
    cmd_clone sha256_hex category w =
      (Ret tt,
       mkWorld files (Stored m') remote'
         (trace w ++
            [EvOut MsgFetching; EvList category (ApiOk docs)] ++
            map (fun d => EvWrite (doc_path d) (content_of d)) docs ++
            [EvSave m'; EvOut (MsgCloned (length docs)); EvOut MsgEditHint])) /\
    NoDup (keys m') /\
    (forall q, get_entry m' q = entry_of_doc sha256_hex <$> last_for docs q) /\
    (forall q,
        files !! q =
        match last_for docs q with
        | Some d => Some (Text (content_of d))
        | None => fs w !! q
        end).
Proof.
  intros Hdisk Hcat Hlist Hne [Hwrite Hsave].
  destruct docs as [|d docs]; [done|]. clear Hne.
  unfold cmd_clone. unfold bind at 1. unfold is_initialized. rewrite Hdisk.
  rewrite Hcat. unfold bind at 1. unfold print, emit.
  unfold bind at 1. unfold client_list_docs, request. cbn [remote].
  rewrite Hlist. cbn [fs disk remote trace]. unfold bind at 1.
  match goal with
  | |- context [for_each _ _ ([], O) ?w1] =>
      destruct (clone_loop (d :: docs) [] O w1 Hwrite)
        as (m' & w' & Hrun & Hdisk' & Hremote & Htrace & Hnd & Hget & Hfs)
  end.
  exists m', (fs w').
  match goal with
  | |- context [for_each ?b ?l ?s ?w1] =>
      change (for_each b l s w1)
        with (for_each (clone_doc sha256_hex) (d :: docs) (([] : Manifest), O) w1)
  end.
  rewrite Hrun. split; [|split; [|split]].
  - unfold bind, save, print, emit, ret. rewrite Hsave. cbn -[length map].
    cbn [remote trace] in *. rewrite Hremote, Htrace.
    do 2 f_equal. by rewrite <- !app_assoc.
  - apply Hnd. constructor.
  - intros q. rewrite Hget. by destruct (last_for (d :: docs) q).
  - intros q. by rewrite Hfs.
Qed.

(** C10, as amended.  [clone] gets the list
    [pre ++ d1 :: mid ++ d2 :: post] in which [d1] and [d2] map to the
    same local path and no document of [post] does, and the host lets
    the writes to the documents' paths and to the manifest file succeed:
    [clone] returns normally; the file at that path holds the content of
    [d2]; the manifest saved has one entry per path and the one for this
    path carries the id, version and hash of [d2]; when ids are pairwise
    distinct no entry carries the id of [d1]; nothing is printed on stderr
    and every document is counted as cloned. *)
Theorem clone_same_path_last_wins
    (category : option string) w remote' pre d1 mid d2 post :
  let docs := pre ++ d1 :: mid ++ d2 :: post in
  disk w = NoManifest ->
  unknown_category category = None ->
  list_docs category (remote w) = (ApiOk docs, remote') ->
  doc_path d1 = doc_path d2 ->
  (forall d, d ∈ post -> doc_path d <> doc_path d2) ->
  writes_succeed (map doc_path docs) ->
  exists w' m,
    cmd_clone sha256_hex category w = (Ret tt, w') /\
    disk w' = Stored m /\
    fs w' !! doc_path d2 = Some (Text (content_of d2)) /\
    get_entry m (doc_path d2) = Some (entry_of_doc sha256_hex d2) /\
    NoDup (keys m) /\
    (NoDup (map doc_id docs) -> forall q e, (q, e) ∈ m -> id e <> doc_id d1) /\
    (forall msg, EvErr msg ∉ new_events w w') /\
    EvOut (MsgCloned (length docs)) ∈ new_events w w'.
Proof.
  intros docs Hdisk Hcat Hlist Hsame Hpost Hwrites.
  assert (docs = (pre ++ d1 :: mid) ++ d2 :: post) as Hdocs.
  { unfold docs. by rewrite <- app_assoc. }
  assert (last_for docs (doc_path d2) = Some d2) as Hlast.
  { rewrite Hdocs. by apply last_for_app_last. }
  assert (docs <> []) as Hne.
  { rewrite Hdocs. by destruct (pre ++ d1 :: mid). }
  destruct (cmd_clone_run category w docs remote' Hdisk Hcat Hlist Hne Hwrites)
    as (m & files & Hrun & Hnd & Hget & Hfs).
  eexists _, m. split; [exact Hrun|]. cbn [disk fs].
  split; [done|]. split; [by rewrite Hfs, Hlast|].
  split; [by rewrite Hget, Hlast|]. split; [done|]. split; [|split].
  - intros Hids q e Hin Hid.
    apply elem_get_entry in Hin; [|done]. rewrite Hget in Hin.
    destruct (last_for docs q) as [d|] eqn:Hq; [|done].
    injection Hin as <-. cbn [entry_of_doc id] in Hid.
    pose proof (last_for_elem _ _ _ Hq) as [Hd Hpath].
    assert (d1 ∈ docs) as Hd1.
    { unfold docs. apply elem_of_app. right. by left. }
    assert (d = d1) as -> by by eapply (NoDup_map_eq doc_id).
    rewrite <- Hpath, Hsame, Hlast in Hq. injection Hq as <-.
    unfold docs in Hids. rewrite map_app in Hids.
    apply NoDup_app in Hids as (_ & _ & Hids). cbn [map] in Hids.
    apply NoDup_cons in Hids as [Hnot _]. apply Hnot.
    rewrite map_app. apply elem_of_app. right. by left.
  - intros msg Hin. unfold new_events in Hin. cbn [trace] in Hin.
    rewrite drop_app_length in Hin.
    apply elem_of_app in Hin as [Hin|Hin].
    { apply elem_of_cons in Hin as [?|Hin]; [done|].
      apply elem_of_cons in Hin as [?|Hin]; [done|]. by apply elem_of_nil in Hin. }
    apply elem_of_app in Hin as [Hin|Hin].
    { change (map ?f docs) with (f <$> docs) in Hin.
      apply list_elem_of_fmap in Hin as (d & ? & _). done. }
    apply elem_of_cons in Hin as [?|Hin]; [done|].
    apply elem_of_cons in Hin as [?|Hin]; [done|].
    apply elem_of_cons in Hin as [?|Hin]; [done|]. by apply elem_of_nil in Hin.
  - unfold new_events. cbn [trace]. rewrite drop_app_length.
    rewrite !elem_of_app. right. right. right. by left.
Qed.


(** *** [clone], then [status] *)

Lemma universal_newlines_id (s : string) :
  Str.has_cr s = false -> Str.universal_newlines s = s.
Proof.
  induction s as [|c s IH]; [done|].
  unfold Str.has_cr, Str.mem. cbn [list_ascii_of_string existsb].
  intros H. apply orb_false_elim in H as [Hc Hs].
  cbn [Str.universal_newlines]. rewrite Ascii.eqb_sym, Hc.
  by rewrite IH.
Qed.

Lemma elem_of_rglob_md (files : gmap string fnode) p :
  p ∈ rglob_md files <-> is_md p = true /\ is_Some (files !! p).
Proof.
  unfold rglob_md. rewrite elem_of_List_filter.
  change (map fst (map_to_list files)) with (fst <$> map_to_list files).
  rewrite list_elem_of_fmap. split.
  - intros [([q x] & -> & Hin) Hmd]. split; [done|].
    apply elem_of_map_to_list in Hin. by eexists.
  - intros [Hmd [x Hx]]. split; [|done]. exists (p, x). split; [done|].
    by apply elem_of_map_to_list.
Qed.

Lemma List_filter_nil {A} (f : A -> bool) (l : list A) :
  (forall x, x ∈ l -> f x = false) -> List.filter f l = [].
Proof.
  induction l as [|x l IH]; intros Hall; cbn; [done|].
  rewrite (Hall x) by by left. apply IH. intros y Hy. apply Hall. by right.
Qed.

Lemma cmd_status_clean w m :
  disk w = Stored m ->
  (forall p, p ∈ keys m ->
     exists raw e, fs w !! p = Some (Text raw) /\ get_entry m p = Some e /\
                   content_hash e = Some (sha256_hex (Str.universal_newlines raw))) ->
  (forall p, p ∈ rglob_md (fs w) -> p ∈ keys m) ->
  cmd_status sha256_hex w =
    (Ret tt, mkWorld (fs w) (disk w) (remote w) (trace w ++ [EvOut MsgNothingToPush])).
Proof.
  intros Hdisk Htracked Hall.
  assert (forall p, p ∈ remove_dups (keys m) -> p ∈ keys m) as Hdups.
  { intros p. by rewrite elem_of_remove_dups. }
  unfold cmd_status. unfold bind at 1. unfold is_initialized. rewrite Hdisk.
  cbn [negb]. unfold bind at 1. unfold load. rewrite Hdisk. cbn [ret].
  unfold bind at 1. unfold local_md_files.
  unfold bind at 1. rewrite reconcile_ok.
  2:{ apply Forall_forall. intros p Hp. apply Hdups in Hp.
      destruct (Htracked p Hp) as (raw & e & Hfile & _ & _).
      unfold readable. by rewrite (read_node_text _ _ _ Hfile). }
  rewrite (List_filter_nil (is_modified _ _ _)).
  2:{ intros p Hp. apply Hdups in Hp.
      destruct (Htracked p Hp) as (raw & e & Hfile & He & Hhash).
      unfold is_modified. rewrite (read_node_text _ _ _ Hfile), He, Hhash.
      by rewrite String.eqb_refl. }
  rewrite (List_filter_nil (is_deleted _)).
  2:{ intros p Hp. apply Hdups in Hp.
      destruct (Htracked p Hp) as (raw & e & Hfile & _ & _).
      unfold is_deleted. by rewrite (read_node_text _ _ _ Hfile). }
  unfold status_untracked. rewrite List_filter_nil.
  - unfold report, print, emit. cbn. by rewrite Hdisk.
  - intros p Hp. apply Hall, tracked_keys in Hp. by rewrite Hp.
Qed.

(** C5, as amended.  [clone] runs where no manifest and no [.md] file under
    the knowledge root exist, the Remote Store answers a non-empty list
    of documents whose contents hold no carriage return, and the host lets
    the writes to the documents' paths and to the manifest file succeed
    and leaves the files readable: [clone] returns normally, and [status]
    run on the world it leaves returns normally, touching nothing and
    printing the single line "nothing to push", that is, no new, modified
    or deleted file. *)
Theorem clone_then_status_is_clean (category : option string) w docs remote' :
  disk w = NoManifest ->
  unknown_category category = None ->
  list_docs category (remote w) = (ApiOk docs, remote') ->
  docs <> [] ->
  (forall d, d ∈ docs -> Str.has_cr (content_of d) = false) ->
  rglob_md (fs w) = [] ->
  writes_succeed (map doc_path docs) ->
  exists w1,
    cmd_clone sha256_hex category w = (Ret tt, w1) /\
    cmd_status sha256_hex w1 =
      (Ret tt,
       mkWorld (fs w1) (disk w1) (remote w1) (trace w1 ++ [EvOut MsgNothingToPush])).
Proof.
  intros Hdisk Hcat Hlist Hne Hcr Hfresh Hwrites.
  destruct (cmd_clone_run category w docs remote' Hdisk Hcat Hlist Hne Hwrites)
    as (m & files & Hrun & Hnd & Hget & Hfs).
  eexists. split; [exact Hrun|].
  apply (cmd_status_clean _ m); [done| |]; cbn [fs].
  - intros p Hp. apply tracked_keys, get_entry_tracked in Hp as [e He].
    rewrite Hget in He. destruct (last_for docs p) as [d|] eqn:Hlast; [|done].
    apply last_for_elem in Hlast as Hd. destruct Hd as [Hd _].
    exists (content_of d), (entry_of_doc sha256_hex d).
    split; [by rewrite Hfs, Hlast|]. split; [by rewrite Hget, Hlast|].
    cbn [entry_of_doc content_hash].
    by rewrite universal_newlines_id by by apply Hcr.
  - intros p Hp. apply elem_of_rglob_md in Hp as [Hmd [x Hx]].
    apply tracked_keys. destruct (tracked m p) eqn:Ht; [done|]. exfalso.
    unfold tracked in Ht. rewrite Hget in Ht.
    destruct (last_for docs p) as [d|] eqn:Hlast; [done|].
    rewrite Hfs, Hlast in Hx.
    assert (p ∈ rglob_md (fs w)) as Hin by (apply elem_of_rglob_md; eauto).
    rewrite Hfresh in Hin. by apply elem_of_nil in Hin.
Qed.


(** *** [pull] *)



Lemma saved_app evs1 evs2 : saved (evs1 ++ evs2) = saved evs1 ++ saved evs2.
Proof. apply omap_app. Qed.




End Properties.

(** ** The commands on concrete directories *)

Module Runs.

Import Demo Samples.

Example safe_filename_examples :
  _safe_filename "a/b\c" = "a_b_c" /\ _safe_filename ".. " = "_" /\
  _safe_filename " .notes.md. " = "notes.md" /\
  _local_path "architecture" "layering.md" = layering_path.
Proof. repeat split; reflexivity. Qed.

Example parts_examples :
  Str.parts "architecture/layering.md" = ["architecture"; "layering.md"] /\
  Str.parts "notes.md" = ["notes.md"] /\
  name layering_path = "layering.md" /\
  Str.universal_newlines ("a" +:+ String Str.cr (String Str.lf "b"))
    = "a" +:+ String Str.lf "b".
Proof. repeat split; reflexivity. Qed.

(** The second scenario of the specification: a file in a category
    directory and a file at the top level. *)
Example inferred_categories :
  infer_category "knowledge/architecture/new.md" = "architecture" /\
  infer_category "knowledge/notes.md" = "general" /\
  infer_category "knowledge/misc/x.md" = "general" /\
  infer_category "knowledge/security/deep/x.md" = "security" /\
  spec_category "knowledge/architecture/new.md" "architecture" /\
  spec_category "knowledge/notes.md" "general".
Proof.
  repeat split; try reflexivity.
  - apply (cat_nested "architecture" "new.md"); [split; [discriminate|reflexivity]| |done].
    exists "n"%char. split; [discriminate | reflexivity].
  - apply (cat_top "notes.md"). split; [discriminate | reflexivity].
Qed.

Example push_creates_untracked_files :
  let r := cmd_push digest plain_args untracked in
  fst r = Ret tt /\
  List.filter (fun ev => match ev with EvCreate _ _ _ _ => true | _ => false end)
    (run_trace r) =
    [EvCreate "new.md" "X" "architecture"
       (ApiOk (mkDoc "new-new.md" 1%Z "architecture" "new.md" (Some "X")));
     EvCreate "notes.md" "Y" "general"
       (ApiOk (mkDoc "new-notes.md" 1%Z "general" "notes.md" (Some "Y")))] /\
  saved (run_trace r) <> [].
Proof. vm_compute. repeat split; try reflexivity. discriminate. Qed.

(** The scenario of the specification: clone one document, edit the file,
    push while the store is still at version 1. *)
Example clone_edit_push :
  let cloned := snd (cmd_clone digest None (world [] NoManifest [layering])) in
  fs cloned !! layering_path = Some (Text "A") /\
  disk cloned = Stored [(layering_path, layering_entry)] /\
  let r := cmd_push digest plain_args edited in
  fst r = Ret tt /\
  run_trace r =
    [EvGet "d1" (ApiOk layering);
     EvUpdate "d1" "layering.md" "B" "architecture" None
       (ApiOk (mkDoc "d1" 2%Z "architecture" "layering.md" (Some "B")));
     EvSave [(layering_path,
              mkEntry "d1" 2%Z "architecture" "layering.md" (Some (digest "B")))];
     EvOut (MsgUpdated layering_path 2%Z);
     EvOut (MsgPushComplete 0 1 0 0)].
Proof. vm_compute. repeat split; reflexivity. Qed.

(** C1.  [layering.md] is tracked and missing, [push --delete] runs and the
    Remote Store deletes the document: the run reports the deletion and
    ends, no manifest is saved, and the manifest on disk still holds the
    entry.  (An update, in the run above, is followed by a save.) *)
Theorem push_delete_is_not_persisted :
  let r := cmd_push digest delete_args deleted_locally in
  fst r = Ret tt /\
  run_trace r =
    [EvDelete "d1" (ApiOk tt); EvOut (MsgDeleted layering_path);
     EvOut (MsgPushComplete 0 0 1 0)] /\
  remote (snd r) = [] /\
  saved (run_trace r) = [] /\
  disk (snd r) = Stored [(layering_path, layering_entry)].
Proof. vm_compute. repeat split; reflexivity. Qed.

(** C3, as stated, fails: an entry without stored hash whose file exists
    is not reported as modified by [status], which prints "nothing to
    push", while [push] fetches the remote version and updates. *)
Lemma legacy_entry_status_and_push_disagree :
  let m := [(layering_path, legacy_entry)] in
  fst (reconcile digest m [layering_path] [layering_path] legacy)
    = Ret (mkChanges [] [] []) /\
  push_fetches digest plain_args (layering_path, legacy_entry)
    (mkPush m O O O O) legacy = true /\
  run_trace (cmd_status digest legacy) = [EvOut MsgNothingToPush] /\
  fetched (run_trace (cmd_push digest plain_args legacy)) = [("d1", ApiOk layering)].
Proof. vm_compute. repeat split; reflexivity. Qed.

(** C4, as stated, fails: an entry without stored hash whose file is
    missing is in Deleted. *)
Lemma legacy_entry_can_be_deleted :
  content_hash legacy_entry = None /\
  fst (reconcile digest [(layering_path, legacy_entry)] [layering_path] []
         legacy_deleted)
    = Ret (mkChanges [] [] [layering_path]).
Proof. vm_compute. split; reflexivity. Qed.

(** C5, as stated, fails: when the Remote Store answers the empty list,
    [clone] writes no manifest and [status] ends with exit code 1 and
    "no manifest found"; it reports no counts. *)
Lemma clone_of_nothing_then_status_exits :
  let r1 := cmd_clone digest None empty_store in
  let r2 := cmd_status digest (snd r1) in
  fst r1 = Ret tt /\
  run_trace r1 = [EvOut MsgFetching; EvList None (ApiOk []); EvOut MsgNoDocs] /\
  disk (snd r1) = NoManifest /\
  fst r2 = Exit 1%Z /\
  new_events (snd r1) (snd r2) = [EvErr MsgNoManifest].
Proof. vm_compute. repeat split; reflexivity. Qed.

(** Two more runs in which [status] after [clone] is not clean: a [.md]
    file that was under the knowledge root before, and a content with a
    carriage return, which reads back without it. *)
Example clone_next_to_old_file_reports_new :
  let w := world [("knowledge/old.md", Text "O")] NoManifest [layering] in
  let r1 := cmd_clone digest None w in
  new_events (snd r1) (snd (cmd_status digest (snd r1)))
    = [EvOut MsgNewHeader; EvOut (MsgNewFile "knowledge/old.md")].
Proof. vm_compute. reflexivity. Qed.

Example clone_with_carriage_return_reports_modified :
  let crlf := String Str.cr (String Str.lf "") in
  let d := mkDoc "d1" 1%Z "architecture" "layering.md" (Some ("A" +:+ crlf)) in
  let r1 := cmd_clone digest None (world [] NoManifest [d]) in
  new_events (snd r1) (snd (cmd_status digest (snd r1)))
    = [EvOut MsgModifiedHeader; EvOut (MsgModifiedFile layering_path)].
Proof. vm_compute. reflexivity. Qed.

(** C8, as stated, fails: with [layering.md] unreadable, [push] dies on the
    read error before printing anything and never looks at [notes.md];
    with the file removed instead, it reports the entry as skipped and
    finishes. *)
Lemma unreadable_file_aborts_push :
  let r := cmd_push digest plain_args unreadable in
  let r' := cmd_push digest plain_args removed in
  fst r = Raise (ReadError layering_path) /\
  run_trace r = [] /\
  fst r' = Ret tt /\
  run_trace r' = [EvOut (MsgSkipped layering_path); EvOut MsgNothingToPush].
Proof. vm_compute. repeat split; reflexivity. Qed.

(** C3 also needs the tracked files to be readable: with [notes.md]
    unreadable [status] dies and lists nothing, while [push] fetches and
    updates the edited [layering.md] before it dies on [notes.md]. *)
Example unreadable_neighbour_status_and_push_disagree :
  cmd_status digest edited_next_to_unreadable =
    (Raise (ReadError notes_path), edited_next_to_unreadable) /\
  fst (cmd_push digest plain_args edited_next_to_unreadable) =
    Raise (ReadError notes_path) /\
  run_trace (cmd_push digest plain_args edited_next_to_unreadable) =
    [EvGet "d1" (ApiOk layering);
     EvUpdate "d1" "layering.md" "B" "architecture" None
       (ApiOk (mkDoc "d1" 2%Z "architecture" "layering.md" (Some "B")));
     EvSave [(layering_path,
              mkEntry "d1" 2%Z "architecture" "layering.md" (Some (digest "B")));
             (notes_path, notes_entry)];
     EvOut (MsgUpdated layering_path 2%Z)].
Proof. vm_compute. repeat split; reflexivity. Qed.

(** C6.  A document with a Windows line end is cloned.  [clone] stores the
    hash of the content it received and writes that content; the file
    holds it, carriage return included, the stored hash is the hash of
    what the file holds, and there is no untracked file.  [push] reads the
    file with universal newlines, hashes the text without the carriage
    return, finds another hash and sends an update, although nothing was
    edited. *)
Theorem push_after_clone_of_windows_document :
  let w1 := snd (cmd_clone digest None before_windows_clone) in
  let r := cmd_push digest plain_args w1 in
  fs w1 = {[ layering_path := Text ("A" +:+ crlf +:+ "B") ]} /\
  disk w1 = Stored [(layering_path, windows_entry)] /\
  content_hash windows_entry = Some (digest ("A" +:+ crlf +:+ "B")) /\
  rglob_md (fs w1) = [layering_path] /\
  fst r = Ret tt /\
  new_events w1 (snd r) =
    [EvGet "d1" (ApiOk windows_doc);
     EvUpdate "d1" "layering.md" ("A" +:+ String Str.lf "B") "architecture" None
       (ApiOk (mkDoc "d1" 2%Z "architecture" "layering.md"
                 (Some ("A" +:+ String Str.lf "B"))));
     EvSave [(layering_path,
              mkEntry "d1" 2%Z "architecture" "layering.md"
                (Some (digest ("A" +:+ String Str.lf "B"))))];
     EvOut (MsgUpdated layering_path 2%Z);
     EvOut (MsgPushComplete 0 1 0 0)].
Proof. vm_compute. repeat split; reflexivity. Qed.


(** So does a write that fails: the fetch succeeded, nothing is saved. *)
Example failed_write_aborts_pull :
  let r := cmd_pull (host:=read_only) digest edited in
  fst r = Raise (WriteError layering_path) /\
  run_trace r = [EvGet "d1" (ApiOk layering)] /\
  fs (snd r) = fs edited /\ disk (snd r) = disk edited.
Proof. vm_compute. repeat split; reflexivity. Qed.

(** C5 needs the files [clone] wrote to be readable: where they are
    not, [clone] returns and the [status] run next dies on the first of
    them. *)
Example clone_on_write_only_host_then_status_dies :
  let r := cmd_clone (host:=write_only) digest None fresh in
  fst r = Ret tt /\
  cmd_status digest (snd r) = (Raise (ReadError layering_path), snd r).
Proof. vm_compute. repeat split; reflexivity. Qed.

(** C10, as stated, fails: where the directory cannot be written, [clone]
    dies on the first of the two documents; no file holds the content of
    the later one, no manifest is saved and so no id is recorded. *)
Lemma clone_into_read_only_directory_dies :
  let r := cmd_clone (host:=read_only) digest None twins in
  fst r = Raise (WriteError (doc_path twin1)) /\
  doc_path twin1 = doc_path twin2 /\
  run_trace r = [EvOut MsgFetching; EvList None (ApiOk [twin1; twin2])] /\
  fs (snd r) = fs twins /\
  disk (snd r) = NoManifest.
Proof. vm_compute. repeat split; reflexivity. Qed.

(** *** The theorems at work *)

Lemma obliging_writes (paths : list string) : writes_succeed paths.
Proof. by split. Defined.

(** C2 on [conflict_after_notes]: stored version 1, remote version 2; the
    unchanged [notes.md] comes before the entry. *)
Lemma push_conflict_witness :
  let st1 := start [(notes_path, notes_entry); (layering_path, layering_entry)] in
  let w2 :=
    mkWorld (fs conflict_after_notes) (disk conflict_after_notes)
      [layering_v2; notes]
      (trace conflict_after_notes ++
         [EvGet "d1" (ApiOk layering_v2);
          EvErr (MsgConflict layering_path 1%Z 2%Z)]) in
  cmd_push digest plain_args conflict_after_notes =
    push_rest digest plain_args [] (count_error st1) w2 /\
  ps_manifest (count_error st1) = ps_manifest st1 /\
  ps_errors (count_error st1) = S (ps_errors st1) /\
  ps_updated (count_error st1) = ps_updated st1 /\
  ps_created (count_error st1) = ps_created st1 /\
  ps_deleted_count (count_error st1) = ps_deleted_count st1.
Proof.
  apply (push_conflict_reported_and_skipped digest plain_args
           [(notes_path, notes_entry)] layering_path layering_entry []
           conflict_after_notes
           (start [(notes_path, notes_entry); (layering_path, layering_entry)])
           conflict_after_notes "B" layering_v2 [layering_v2; notes]).
  - reflexivity.
  - reflexivity.
  - vm_compute. reflexivity.
  - reflexivity.
  - vm_compute. reflexivity.
  - discriminate.
  - reflexivity.
  - discriminate.
Defined.

Example push_on_conflict_after_notes :
  let r := cmd_push digest plain_args conflict_after_notes in
  fst r = Ret tt /\
  run_trace r =
    [EvGet "d1" (ApiOk layering_v2);
     EvErr (MsgConflict layering_path 1%Z 2%Z);
     EvOut (MsgPushComplete 0 0 0 1)] /\
  disk (snd r) = disk conflict_after_notes /\
  remote (snd r) = remote conflict_after_notes.
Proof. vm_compute. repeat split; reflexivity. Qed.

(** C3 on [edited]: the entry has a stored hash and the file differs. *)
Lemma status_push_agree_witness :
  let m := [(layering_path, layering_entry)] in
  exists c,
    reconcile digest m [layering_path] [layering_path] edited = (Ret c, edited) /\
    (layering_path ∈ modified c <->
       push_fetches digest plain_args (layering_path, layering_entry) (start m) edited
         = true /\ is_Some (content_hash layering_entry)) /\
    (content_hash layering_entry = None ->
       (layering_path ∉ modified c) /\
       push_fetches digest plain_args (layering_path, layering_entry) (start m) edited
         = true).
Proof.
  apply (status_push_agree_on_hashed_entries digest plain_args
           [(layering_path, layering_entry)] [layering_path] [layering_path]
           edited layering_path layering_entry "B").
  - repeat constructor. unfold readable. vm_compute. discriminate.
  - by left.
  - reflexivity.
  - vm_compute. reflexivity.
  - reflexivity.
Defined.

(** C4 on [mixed], the tracked paths taken in both orders. *)
Lemma status_sets_witness :
  exists c,
    reconcile digest mixed_manifest [layering_path; notes_path]
      [layering_path; "knowledge/new.md"] mixed = (Ret c, mixed) /\
    (forall p, ~ (p ∈ new_files c /\ p ∈ modified c)) /\
    (forall p, ~ (p ∈ new_files c /\ p ∈ deleted c)) /\
    (forall p, ~ (p ∈ modified c /\ p ∈ deleted c)) /\
    (forall p e raw,
        get_entry mixed_manifest p = Some e -> fs mixed !! p = Some (Text raw) ->
        content_hash e = Some (digest (Str.universal_newlines raw)) ->
        (p ∉ new_files c) /\ (p ∉ modified c) /\ (p ∉ deleted c)) /\
    (forall p e raw,
        get_entry mixed_manifest p = Some e -> fs mixed !! p = Some (Text raw) ->
        content_hash e = None ->
        (p ∉ new_files c) /\ (p ∉ modified c) /\ (p ∉ deleted c)) /\
    exists c',
      reconcile digest mixed_manifest [notes_path; layering_path]
        ["knowledge/new.md"; layering_path] mixed = (Ret c', mixed) /\
      new_files c' ≡ₚ new_files c /\
      modified c' ≡ₚ modified c /\
      deleted c' ≡ₚ deleted c /\
      forall w0 : World (R:=list Doc), report c' w0 = report c w0.
Proof.
  apply (status_sets_disjoint_and_stable digest mixed_manifest mixed
           [layering_path; notes_path] [layering_path; "knowledge/new.md"]
           [notes_path; layering_path] ["knowledge/new.md"; layering_path]).
  - vm_compute. reflexivity.
  - apply perm_swap.
  - apply perm_swap.
  - repeat constructor; unfold readable; vm_compute; discriminate.
Defined.

Example status_of_mixed :
  fst (reconcile digest mixed_manifest [layering_path; notes_path]
         [layering_path; "knowledge/new.md"] mixed)
    = Ret (mkChanges ["knowledge/new.md"] [layering_path] [notes_path]).
Proof. vm_compute. reflexivity. Qed.

(** C5 on [fresh]: two documents, an empty directory. *)
Lemma clone_then_status_witness :
  exists w1,
    cmd_clone digest None fresh = (Ret tt, w1) /\
    cmd_status digest w1 =
      (Ret tt,
       mkWorld (fs w1) (disk w1) (remote w1) (trace w1 ++ [EvOut MsgNothingToPush])).
Proof.
  apply (clone_then_status_is_clean digest None fresh [layering; notes]
           [layering; notes]).
  - reflexivity.
  - reflexivity.
  - reflexivity.
  - discriminate.
  - intros d Hd. elem_cases Hd; subst d; reflexivity.
  - vm_compute. reflexivity.
  - apply obliging_writes.
Defined.

(** C6 on [clean]. *)
Lemma push_without_changes_witness :
  cmd_push digest plain_args clean =
    (Ret tt,
     mkWorld (fs clean) (disk clean) (remote clean)
       (trace clean ++ [EvOut MsgNothingToPush])).
Proof.
  apply (push_without_changes_is_silent digest plain_args clean mixed_manifest).
  - reflexivity.
  - reflexivity.
  - intros p e Hin. unfold mixed_manifest in Hin.
    elem_cases Hin; injection Hin as -> ->.
    + exists "A". split; vm_compute; reflexivity.
    + exists "N". split; vm_compute; reflexivity.
  - intros p Hp. vm_compute in Hp.
    elem_cases Hp; subst p; first [by left | right; by left].
Defined.



(** C8 on [unreadable]. *)
Lemma push_stops_witness :
  cmd_push digest plain_args unreadable =
    (Raise (ReadError layering_path), unreadable).
Proof.
  apply (proj1 (push_stops_at_unreadable_file digest plain_args []
                  layering_path layering_entry [(notes_path, notes_entry)]
                  unreadable (start mixed_manifest) unreadable
                  eq_refl eq_refl eq_refl eq_refl)).
  vm_compute. reflexivity.
Defined.

(** C9 on [untracked]: the file in [architecture/]. *)
Lemma push_create_witness :
  exists p,
    p ∈ rglob_md (fs untracked) /\
    "new.md" = name p /\
    read_node (fs untracked) p = Content "X" /\
    "architecture" = infer_category p /\
    forall cat', spec_category p cat' -> "architecture" = cat'.
Proof.
  apply (push_create_uses_inferred_category digest plain_args untracked
           (fst (cmd_push digest plain_args untracked))
           (snd (cmd_push digest plain_args untracked))
           "new.md" "X" "architecture"
           (ApiOk (mkDoc "new-new.md" 1%Z "architecture" "new.md" (Some "X")))).
  - by destruct (cmd_push digest plain_args untracked).
  - vm_compute. by left.
Defined.

(** C10 on [twins]: titles [a/b.md] and [a\b.md]. *)
Lemma clone_same_path_witness :
  exists w' m,
    cmd_clone digest None twins = (Ret tt, w') /\
    disk w' = Stored m /\
    fs w' !! doc_path twin2 = Some (Text (content_of twin2)) /\
    get_entry m (doc_path twin2) = Some (entry_of_doc digest twin2) /\
    NoDup (keys m) /\
    (NoDup (map doc_id ([] ++ twin1 :: [] ++ twin2 :: [])) ->
       forall q e, (q, e) ∈ m -> id e <> doc_id twin1) /\
    (forall msg, EvErr msg ∉ new_events twins w') /\
    EvOut (MsgCloned (length ([] ++ twin1 :: [] ++ twin2 :: []))) ∈ new_events twins w'.
Proof.
  apply (clone_same_path_last_wins digest None twins [twin1; twin2]
           [] twin1 [] twin2 []).
  - reflexivity.
  - reflexivity.
  - reflexivity.
  - reflexivity.
  - intros d Hd. by apply elem_of_nil in Hd.
  - apply obliging_writes.
Defined.

End Runs.

(** ** Further properties *)

Section StringFacts.

Implicit Types (s a b : string) (c : ascii).

Lemma append_cons c a b : String c a +:+ b = String c (a +:+ b).
Proof. reflexivity. Qed.

Lemma append_assoc a b s : (a +:+ b) +:+ s = a +:+ (b +:+ s).
Proof.
  induction a as [|x a IH]; [done|]. by rewrite !append_cons, IH.
Qed.

Lemma rev_app_append a b : String.rev_app a b = String.rev a +:+ b.
Proof.
  unfold String.rev. revert b. induction a as [|x a IH]; intros b; [done|].
  cbn [String.rev_app]. rewrite (IH (String x b)), (IH (String x "")).
  by rewrite append_assoc.
Qed.

Lemma rev_append a b : String.rev (a +:+ b) = String.rev b +:+ String.rev a.
Proof.
  induction a as [|x a IH].
  - symmetry. apply append_empty_r.
  - rewrite append_cons. unfold String.rev at 1 3. cbn [String.rev_app].
    rewrite !rev_app_append, IH. by rewrite append_assoc.
Qed.

Lemma mem_cons c x s : Str.mem c (String x s) = Ascii.eqb c x || Str.mem c s.
Proof. reflexivity. Qed.

Lemma mem_append c a b : Str.mem c (a +:+ b) = Str.mem c a || Str.mem c b.
Proof.
  induction a as [|x a IH]; [done|].
  by rewrite append_cons, !mem_cons, IH, orb_assoc.
Qed.

Lemma mem_rev c s : Str.mem c (String.rev s) = Str.mem c s.
Proof.
  induction s as [|x s IH]; [done|].
  unfold String.rev. cbn [String.rev_app]. rewrite rev_app_append, mem_append.
  rewrite IH, !mem_cons. cbn. rewrite orb_false_r. apply orb_comm.
Qed.

(** [lstrip] drops a prefix made of characters of the set, and stops at a
    character outside of it. *)
Lemma lstrip_suffix set s : exists pre, s = pre +:+ Str.lstrip set s.
Proof.
  induction s as [|x s [pre IH]]; [by exists ""|].
  cbn [Str.lstrip]. destruct (Str.mem x set).
  - exists (String x pre). by rewrite append_cons, <- IH.
  - by exists "".
Qed.

Lemma lstrip_head set s x rest :
  Str.lstrip set s = String x rest -> Str.mem x set = false.
Proof.
  induction s as [|y s IH]; [done|]. cbn [Str.lstrip].
  destruct (Str.mem y set) eqn:Hy; [done|]. by intros [= <- <-].
Qed.

Lemma lstrip_fixed set s :
  (forall x rest, s = String x rest -> Str.mem x set = false) ->
  Str.lstrip set s = s.
Proof.
  destruct s as [|x s]; [done|]. intros H. cbn [Str.lstrip].
  by rewrite (H x s).
Qed.

Lemma mem_lstrip c set s : Str.mem c s = false -> Str.mem c (Str.lstrip set s) = false.
Proof.
  destruct (lstrip_suffix set s) as [pre Hs]. rewrite Hs at 1.
  rewrite mem_append. by intros [_ ?]%orb_false_elim.
Qed.

Lemma mem_rstrip c set s : Str.mem c s = false -> Str.mem c (Str.rstrip set s) = false.
Proof.
  intros H. unfold Str.rstrip. rewrite mem_rev. apply mem_lstrip. by rewrite mem_rev.
Qed.

Lemma mem_replace_gone ch by' s :
  by' <> ch -> Str.mem ch (Str.replace ch by' s) = false.
Proof.
  intros Hne. induction s as [|x s IH]; [done|].
  cbn [Str.replace]. rewrite mem_cons, IH, orb_false_r.
  destruct (Ascii.eqb_spec x ch) as [->|Hx].
  - apply Ascii.eqb_neq. congruence.
  - apply Ascii.eqb_neq. congruence.
Qed.

Lemma mem_replace_other c ch by' s :
  by' <> c -> Str.mem c s = false -> Str.mem c (Str.replace ch by' s) = false.
Proof.
  intros Hne. induction s as [|x s IH]; [done|].
  cbn [Str.replace]. rewrite !mem_cons. intros [Hx Hs]%orb_false_elim.
  rewrite (IH Hs), orb_false_r.
  destruct (Ascii.eqb x ch); [|done]. apply Ascii.eqb_neq. congruence.
Qed.

Lemma replace_fixed ch by' s : Str.mem ch s = false -> Str.replace ch by' s = s.
Proof.
  induction s as [|x s IH]; [done|].
  rewrite mem_cons. intros [Hx Hs]%orb_false_elim.
  cbn [Str.replace]. rewrite (IH Hs). rewrite Ascii.eqb_sym in Hx. by rewrite Hx.
Qed.

Lemma starts_with_char c s :
  Str.starts_with (String c "") s =
  match s with String x _ => Ascii.eqb c x | EmptyString => false end.
Proof.
  unfold Str.starts_with. destruct s as [|x s]; cbn; [done|].
  destruct (ascii_dec c x) as [->|Hne].
  - by rewrite Ascii.eqb_refl; destruct s.
  - symmetry. by apply Ascii.eqb_neq.
Qed.

Lemma starts_with_append a s : Str.starts_with a (a +:+ s) = true.
Proof.
  unfold Str.starts_with. induction a as [|x a IH]; [by destruct s|].
  rewrite append_cons. cbn [String.prefix].
  by destruct (ascii_dec x x).
Qed.

Lemma ends_with_char c s :
  Str.ends_with (String c "") s = Str.starts_with (String c "") (String.rev s).
Proof. reflexivity. Qed.

Lemma rev_empty s : String.rev s = "" -> s = "".
Proof. intros H. by rewrite <- (rev_rev s), H. Qed.

End StringFacts.

Section PathFacts.

Implicit Types (s name : string).

Lemma mem_dot_space c : Str.mem c ". " = Ascii.eqb c "." || Ascii.eqb c " ".
Proof. unfold Str.mem. cbn. by rewrite orb_false_r. Qed.

Lemma starts_outside s :
  Str.starts_with "." s = false -> Str.starts_with " " s = false ->
  forall x rest, s = String x rest -> Str.mem x ". " = false.
Proof.
  intros Hd Hs x rest ->. rewrite starts_with_char in Hd, Hs.
  rewrite mem_dot_space, (Ascii.eqb_sym x), (Ascii.eqb_sym x " "). by rewrite Hd, Hs.
Qed.

Lemma outside_starts s :
  (forall x rest, s = String x rest -> Str.mem x ". " = false) ->
  Str.starts_with "." s = false /\ Str.starts_with " " s = false.
Proof.
  intros H. rewrite !starts_with_char. destruct s as [|x rest]; [done|].
  specialize (H x rest eq_refl). rewrite mem_dot_space in H.
  apply orb_false_elim in H as [Hd Hs].
  by rewrite (Ascii.eqb_sym "."), (Ascii.eqb_sym " ").
Qed.

(** Both ends of a stripped string lie outside the set. *)
Lemma strip_ends set s :
  let t := Str.strip set s in
  (forall x rest, t = String x rest -> Str.mem x set = false) /\
  (forall x rest, String.rev t = String x rest -> Str.mem x set = false).
Proof.
  unfold Str.strip, Str.rstrip. cbn zeta.
  set (y := Str.lstrip set s). set (L := Str.lstrip set (String.rev y)).
  split.
  - intros x rest Ht.
    destruct (lstrip_suffix set (String.rev y)) as [pre Hpre]. fold L in Hpre.
    assert (y = String.rev L +:+ String.rev pre) as Hy.
    { by rewrite <- (rev_rev y), Hpre, rev_append. }
    rewrite Ht, append_cons in Hy. by apply (lstrip_head set s x _ Hy).
  - intros x rest. rewrite rev_rev. apply lstrip_head.
Qed.

Lemma mem_strip c set s : Str.mem c s = false -> Str.mem c (Str.strip set s) = false.
Proof. intros H. unfold Str.strip. by apply mem_rstrip, mem_lstrip. Qed.

Lemma safe_name_underscore : safe_name "_".
Proof. by repeat split. Qed.

Lemma safe_filename_safe name : safe_name (_safe_filename name).
Proof.
  unfold _safe_filename. cbn [fold_left].
  set (cleaned := Str.replace Str.nul _ _).
  assert (Str.mem Str.slash cleaned = false) as H1.
  { unfold cleaned. do 2 (apply mem_replace_other; [done|]).
    by apply mem_replace_gone. }
  assert (Str.mem Str.backslash cleaned = false) as H2.
  { unfold cleaned. apply mem_replace_other; [done|]. by apply mem_replace_gone. }
  assert (Str.mem Str.nul cleaned = false) as H3.
  { unfold cleaned. by apply mem_replace_gone. }
  destruct (strip_ends ". " cleaned) as [Hhead Hlast].
  destruct (Str.strip ". " cleaned) as [|x rest] eqn:Hstrip; cbn [Str.is_empty].
  { apply safe_name_underscore. }
  rewrite <- Hstrip in *. unfold safe_name.
  split; [by rewrite Hstrip|].
  split; [by apply mem_strip|]. split; [by apply mem_strip|].
  split; [by apply mem_strip|].
  destruct (outside_starts _ Hhead) as [-> ->].
  rewrite !ends_with_char. by destruct (outside_starts _ Hlast) as [-> ->].
Qed.

(** X1.  Whatever the title or category, the sanitized name is not empty,
    holds no slash, backslash or NUL, and neither begins nor ends with a dot
    or a space; in particular it is neither [.] nor [..]. *)
Theorem safe_filename_is_safe name :
  safe_name (_safe_filename name) /\
  _safe_filename name <> "." /\ _safe_filename name <> "..".
Proof.
  pose proof (safe_filename_safe name) as Hsafe.
  split; [done|]. destruct Hsafe as (_ & _ & _ & _ & Hdot & _).
  split; intros Heq; by rewrite Heq in Hdot.
Qed.

Lemma safe_name_fixed s : safe_name s -> _safe_filename s = s.
Proof.
  intros (Hne & H1 & H2 & H3 & Hd & Hs & Hed & Hes).
  unfold _safe_filename. cbn [fold_left].
  rewrite (replace_fixed Str.slash), (replace_fixed Str.backslash),
    (replace_fixed Str.nul) by done.
  assert (Str.strip ". " s = s) as ->.
  { unfold Str.strip, Str.rstrip.
    rewrite (lstrip_fixed _ s) by by apply starts_outside.
    rewrite lstrip_fixed, rev_rev; [done|].
    rewrite !ends_with_char in *. by apply starts_outside. }
  by destruct s.
Qed.

(** X2.  Sanitizing is idempotent, and the names it leaves alone are
    exactly the safe ones. *)
Theorem safe_filename_idempotent name :
  _safe_filename (_safe_filename name) = _safe_filename name /\
  (_safe_filename name = name <-> safe_name name).
Proof.
  split.
  - apply safe_name_fixed, safe_filename_safe.
  - split; [|apply safe_name_fixed].
    intros Heq. rewrite <- Heq. apply safe_filename_safe.
Qed.

Lemma safe_name_segment s : safe_name s -> segment s.
Proof. intros (Hne & H1 & _). by split. Qed.

Lemma segment_head s :
  segment s -> exists x rest, s = String x rest /\ x <> Str.slash.
Proof.
  intros [Hne Hs]. destruct s as [|x rest]; [done|]. exists x, rest.
  split; [done|]. rewrite mem_cons in Hs. apply orb_false_elim in Hs as [Hx _].
  apply Ascii.eqb_neq in Hx. congruence.
Qed.

Lemma segment_names_file s : segment s -> names_file s.
Proof.
  intros Hseg. destruct (segment_head s Hseg) as (x & rest & -> & Hx).
  exists x. split; [done|]. by rewrite mem_cons, Ascii.eqb_refl.
Qed.

(** [os.path.join] of a directory that does not end in a slash and a
    segment puts one slash between them. *)
Lemma path_join_segment a s :
  a <> "" -> Str.ends_with "/" a = false -> segment s ->
  path_join a s = a +:+ "/" +:+ s.
Proof.
  intros Ha Hend Hseg. unfold path_join.
  destruct (segment_head s Hseg) as (x & rest & -> & Hx).
  rewrite starts_with_char.
  assert (Ascii.eqb "/" x = false) as ->.
  { apply Ascii.eqb_neq. intros Heq. apply Hx. by rewrite <- Heq. }
  rewrite Hend. by destruct a.
Qed.

Lemma ends_with_slash_segment a s :
  segment s -> Str.ends_with "/" (a +:+ s) = false.
Proof.
  intros Hseg. rewrite ends_with_char, rev_append.
  assert (segment (String.rev s)) as Hrev.
  { destruct Hseg as [Hne Hs]. split; [|by rewrite mem_rev].
    intros H. by apply rev_empty in H. }
  destruct (segment_head _ Hrev) as (x & rest & -> & Hx).
  rewrite append_cons, starts_with_char. apply Ascii.eqb_neq.
  intros Heq. apply Hx. by rewrite <- Heq.
Qed.

Lemma local_path_shape category title :
  _local_path category title =
  "knowledge/" +:+ _safe_filename category +:+ "/" +:+ _safe_filename title.
Proof.
  pose proof (safe_name_segment _ (safe_filename_safe category)) as Hc.
  pose proof (safe_name_segment _ (safe_filename_safe title)) as Ht.
  unfold _local_path.
  rewrite (path_join_segment _KNOWLEDGE_DIR) by done.
  rewrite path_join_segment; [|by destruct (_safe_filename category)| |done].
  - unfold _KNOWLEDGE_DIR. by rewrite !append_assoc.
  - unfold _KNOWLEDGE_DIR. rewrite <- append_assoc. by apply ends_with_slash_segment.
Qed.

(** X3.  The path [clone] writes a document to always has three segments:
    the knowledge root, the sanitized category and the sanitized title.
    No title or category can place the file elsewhere. *)
Theorem local_path_has_three_parts category title :
  Str.parts (_local_path category title) =
    ["knowledge"; _safe_filename category; _safe_filename title] /\
  Str.starts_with "knowledge/" (_local_path category title) = true.
Proof.
  pose proof (safe_name_segment _ (safe_filename_safe category)) as Hc.
  pose proof (safe_name_segment _ (safe_filename_safe title)) as Ht.
  rewrite local_path_shape. split; [|apply starts_with_append].
  change ("knowledge/" +:+ ?x) with ("knowledge" +:+ "/" +:+ x).
  rewrite (parts_nested "knowledge") by done.
  rewrite parts_nested by done. by rewrite parts_segment.
Qed.

Lemma valid_category_safe c : valid_category c = true -> _safe_filename c = c.
Proof.
  unfold valid_category. intros H. apply existsb_exists in H as (x & Hin & Heq).
  apply String.eqb_eq in Heq as ->.
  cbn in Hin. repeat (destruct Hin as [<-|Hin]; [reflexivity|]). done.
Qed.

(** X4.  Round trip between the layout of [clone] and the inference of
    [push]: for a document in one of the fixed categories, the path
    [clone] writes leads [push] back to that category, and the file name
    [push] would use as title is the sanitized title. *)
Theorem clone_path_infers_its_category category title :
  valid_category category = true ->
  infer_category (_local_path category title) = category /\
  name (_local_path category title) = _safe_filename title.
Proof.
  intros Hvalid.
  pose proof (safe_name_segment _ (safe_filename_safe category)) as Hc.
  pose proof (safe_name_segment _ (safe_filename_safe title)) as Ht.
  split.
  - rewrite local_path_shape. rewrite (valid_category_safe _ Hvalid) in *.
    apply infer_category_spec. apply cat_nested; [done| |done].
    by apply segment_names_file.
  - unfold name. rewrite local_path_shape.
    change ("knowledge/" +:+ ?x) with ("knowledge" +:+ "/" +:+ x).
    rewrite (parts_nested "knowledge") by done.
    rewrite parts_nested by done. by rewrite parts_segment.
Qed.

(** X7.  A URL that [get_api_url] returns starts with [https://] and does
    not end with a slash, whatever [MDLM_API_URL] holds; without the
    variable it is the default. *)
Theorem api_url_is_https_without_trailing_slash env url :
  get_api_url env = inl url ->
  Str.starts_with "https://" url = true /\
  Str.ends_with "/" url = false /\
  (env = None -> url = DEFAULT_API_URL).
Proof.
  unfold get_api_url. set (raw := default DEFAULT_API_URL env).
  destruct (Str.starts_with "https://" (Str.rstrip "/" raw)) eqn:Hs; [|done].
  intros [= <-]. split; [done|]. split.
  - unfold Str.rstrip. rewrite ends_with_char, rev_rev, starts_with_char.
    destruct (Str.lstrip "/" (String.rev raw)) as [|x rest] eqn:Hl; [done|].
    apply lstrip_head in Hl. rewrite mem_cons in Hl.
    apply orb_false_elim in Hl as [Hx _]. by rewrite Ascii.eqb_sym.
  - intros ->. reflexivity.
Qed.

End PathFacts.

Section ManifestLaws.

Implicit Types (m : Manifest) (p q : string) (e : Entry).

Lemma get_entry_remove m p q :
  get_entry (remove_entry m p) q = if String.eqb p q then None else get_entry m q.
Proof.
  induction m as [|[k e] m IH]; cbn [remove_entry List.filter get_entry fst].
  - by destruct (String.eqb p q).
  - fold (remove_entry m p).
    destruct (String.eqb_spec k p) as [->|Hkp]; cbn [negb get_entry].
    + rewrite IH. by destruct (String.eqb p q).
    + rewrite IH. destruct (String.eqb_spec p q) as [->|Hpq]; [|done].
      apply String.eqb_neq in Hkp. by rewrite Hkp.
Qed.

Lemma remove_entry_untracked m p : p ∉ keys m -> remove_entry m p = m.
Proof.
  induction m as [|[k e] m IH]; [done|].
  cbn [keys map fst]. intros [Hk Hm]%not_elem_of_cons.
  cbn [remove_entry List.filter fst]. fold (remove_entry m p).
  assert (String.eqb k p = false) as -> by (apply String.eqb_neq; congruence).
  cbn [negb]. by rewrite IH.
Qed.

Lemma remove_entry_app m1 m2 p :
  remove_entry (m1 ++ m2) p = remove_entry m1 p ++ remove_entry m2 p.
Proof. unfold remove_entry. apply List.filter_app. Qed.

Lemma keys_remove_entry m p :
  keys (remove_entry m p) = List.filter (fun k => negb (String.eqb k p)) (keys m).
Proof.
  unfold keys. induction m as [|[k e] m IH]; [done|].
  cbn [remove_entry List.filter map fst]. fold (remove_entry m p).
  destruct (String.eqb k p); cbn [negb map fst]; by rewrite IH.
Qed.

Lemma NoDup_List_filter {A} (f : A -> bool) (l : list A) :
  NoDup l -> NoDup (List.filter f l).
Proof.
  induction 1 as [|x l Hx Hl IH]; cbn; [constructor|].
  destruct (f x); [|done]. constructor; [|done].
  rewrite elem_of_List_filter. by intros [? _].
Qed.

(** X5.  [add_entry] then [get_entry]: the path just written maps to the
    new entry and every other path is unaffected; a path already tracked
    keeps its place in the dictionary, a new one goes to the end; keys stay
    pairwise distinct. *)
Theorem add_entry_then_get m p q e :
  get_entry (add_entry m p e) q =
    (if String.eqb p q then Some e else get_entry m q) /\
  keys (add_entry m p e) = (if tracked m p then keys m else keys m ++ [p]) /\
  (NoDup (keys m) -> NoDup (keys (add_entry m p e))).
Proof.
  split; [|split].
  - destruct (String.eqb_spec p q) as [<-|Hne].
    + apply get_entry_add_eq.
    + by apply get_entry_add_ne.
  - apply keys_add_entry.
  - apply NoDup_keys_add.
Qed.

(** X6.  [remove_entry] then [get_entry]: the path is gone and every other
    path is unaffected; removing a path that is not tracked changes nothing
    (no [KeyError]); removing a path right after adding it as a new one
    gives the dictionary back; keys stay pairwise distinct. *)
Theorem remove_entry_then_get m p q e :
  get_entry (remove_entry m p) q =
    (if String.eqb p q then None else get_entry m q) /\
  (tracked m p = false -> remove_entry m p = m) /\
  (tracked m p = false -> remove_entry (add_entry m p e) p = m) /\
  (NoDup (keys m) -> NoDup (keys (remove_entry m p))).
Proof.
  split; [apply get_entry_remove|]. split; [|split].
  - intros Ht. by apply remove_entry_untracked, tracked_false_keys.
  - intros Ht. unfold add_entry. rewrite Ht, remove_entry_app.
    rewrite remove_entry_untracked by by apply tracked_false_keys.
    cbn. rewrite String.eqb_refl. cbn. apply app_nil_r.
  - intros Hnd. rewrite keys_remove_entry. by apply NoDup_List_filter.
Qed.

End ManifestLaws.

Section Further.

Context {R : Type} {store : RemoteStore R} {host : Host}.
Variable sha256_hex : string -> string.

Abbreviation World := (World (R:=R)).

Implicit Types (w : World) (m : Manifest) (p : string) (e : Entry).

Lemma logged_nil w : logged w [] = w.
Proof. destruct w. unfold logged. cbn. by rewrite app_nil_r. Qed.

Lemma logged_logged w evs1 evs2 : logged (logged w evs1) evs2 = logged w (evs1 ++ evs2).
Proof. unfold logged. cbn. by rewrite app_assoc. Qed.

(** *** Preconditions *)

(** X8.  Without a manifest file, and with one that cannot be read or
    is not valid JSON, [pull], [status] and [push] print one error line
    and exit with code 1.  With a manifest file whose bytes are not UTF-8
    the three commands die with the decoding error, which [load] does not
    catch, and print nothing.  In all three cases there is no call to the
    Remote Store, no file is written, and the manifest file is left as it
    is. *)
Theorem commands_need_a_readable_manifest w (args : push_args)
    (out : res unit * World) :
  (disk w = NoManifest /\ out = (Exit 1%Z, logged w [EvErr MsgNoManifest])) \/
  (disk w = BadManifest /\
   out = (Exit 1%Z, logged w [EvErr MsgManifestUnreadable])) \/
  (disk w = Undecodable /\ out = (Raise ManifestDecodeError, w)) ->
  cmd_pull sha256_hex w = out /\
  cmd_status sha256_hex w = out /\
  cmd_push sha256_hex args w = out.
Proof.
  destruct w as [files d r t]. cbn [disk].
  by intros [[-> ->]|[[-> ->]|[-> ->]]].
Qed.

(** X9.  [clone] refuses a directory that already has a manifest file,
    whatever the file holds: one error line, exit code 1, no call to the
    Remote Store and nothing written. *)
Theorem clone_refuses_initialized_directory (category : option string) w :
  disk w <> NoManifest ->
  cmd_clone sha256_hex category w = (Exit 1%Z, logged w [EvErr MsgAlreadyInitialized]).
Proof.
  intros Hd. unfold cmd_clone, bind, is_initialized.
  by destruct (disk w).
Qed.

(** X10.  A non-empty [--category] outside the fixed set makes [clone] and
    [push] print the error and exit with code 1 before any call to the
    Remote Store; nothing is written. *)
Theorem unknown_category_is_rejected_first c w :
  c <> "" -> valid_category c = false ->
  (disk w = NoManifest ->
     cmd_clone sha256_hex (Some c) w =
       (Exit 1%Z, logged w [EvErr (MsgUnknownCategory c)])) /\
  (forall m (args : push_args),
     disk w = Stored m -> args_category args = Some c ->
     cmd_push sha256_hex args w =
       (Exit 1%Z, logged w [EvErr (MsgUnknownCategory c)])).
Proof.
  intros Hc Hvalid.
  assert (unknown_category (Some c) = Some c) as Hunknown.
  { unfold unknown_category, truthy. rewrite Hvalid. by destruct c. }
  split.
  - intros Hd. unfold cmd_clone, bind, is_initialized. by rewrite Hd, Hunknown.
  - intros m args Hd Hcat. unfold cmd_push, bind, is_initialized, load.
    rewrite Hd, Hcat, Hunknown. cbn. by rewrite Hd.
Qed.

(** X11.  When the listing fails, or returns no document, [clone] writes
    neither file nor manifest: the directory stays uninitialized, so that
    [clone] can be run again.  A failure exits with code 1 (a call that
    gets no usable answer ends with its exception), an empty list is not
    an error. *)
Theorem clone_without_documents_leaves_no_trace (category : option string) w a remote' :
  disk w = NoManifest ->
  unknown_category category = None ->
  list_docs category (remote w) = (a, remote') ->
  match a with ApiOk (_ :: _) => False | _ => True end ->
  exists r w',
    cmd_clone sha256_hex category w = (r, w') /\
    fs w' = fs w /\ disk w' = NoManifest /\ remote w' = remote' /\
    r = match a with
        | ApiOk _ => Ret tt
        | ApiDown => Raise TransportError
        | _ => Exit 1%Z
        end /\
    trace w' =
      trace w ++
      [EvOut MsgFetching; EvList category a] ++
      match a with
      | ApiOk _ => [EvOut MsgNoDocs]
      | ApiError _ msg => [EvErr (MsgError msg)]
      | ApiExit | ApiDown => []
      end.
Proof.
  intros Hd Hcat Hlist Ha.
  unfold cmd_clone. unfold bind at 1. unfold is_initialized. rewrite Hd, Hcat.
  unfold bind at 1. unfold print, emit. unfold bind at 1.
  unfold client_list_docs, request. cbn [remote fs disk trace]. rewrite Hlist.
  destruct a as [[|d docs]|status msg| |]; [|done| | |];
    unfold bind, print_err, print, emit, exit, raise; cbn;
    eexists _, _; (split; [reflexivity|]); cbn; rewrite <- ?app_assoc;
    by repeat split.
Qed.

(** *** [clone] *)

(** X12.  After [clone] of a non-empty list, where the writes to the
    documents' paths and to the manifest file succeed: the manifest was
    saved once; its keys are exactly the paths of the documents, pairwise
    distinct; every entry comes from a document that was written to its
    path, so that the stored hash is the hash of what was written to the
    file; and a path no document maps to is left as it was. *)
Theorem clone_manifest_matches_files (category : option string) w docs remote' :
  disk w = NoManifest ->
  unknown_category category = None ->
  list_docs category (remote w) = (ApiOk docs, remote') ->
  docs <> [] ->
  writes_succeed (map doc_path docs) ->
  exists w' m,
    cmd_clone sha256_hex category w = (Ret tt, w') /\
    disk w' = Stored m /\
    saved (new_events w w') = [m] /\
    NoDup (keys m) /\
    (forall q, q ∈ keys m <-> exists d, d ∈ docs /\ doc_path d = q) /\
    (forall q e, get_entry m q = Some e ->
       exists d, d ∈ docs /\ doc_path d = q /\ e = entry_of_doc sha256_hex d /\
                 fs w' !! q = Some (Text (content_of d))) /\
    (forall q, (forall d, d ∈ docs -> doc_path d <> q) -> fs w' !! q = fs w !! q).
Proof.
  intros Hd Hcat Hlist Hne Hhost.
  destruct (cmd_clone_run sha256_hex category w docs remote' Hd Hcat Hlist Hne
              Hhost)
    as (m & files & Hrun & Hnd & Hget & Hfs).
  eexists _, m. split; [exact Hrun|]. cbn [disk fs].
  split; [done|]. split.
  { erewrite new_events_app; [|done]. rewrite !saved_app.
    assert (forall l : list Doc,
              saved (map (fun d => EvWrite (doc_path d) (content_of d)) l) = [])
      as ->; [by induction l|done]. }
  split; [done|]. split; [|split].
  - intros q. rewrite <- tracked_keys, get_entry_tracked, Hget. split.
    + intros [e He]. destruct (last_for docs q) as [d|] eqn:Hlast; [|done].
      exists d. by apply last_for_elem.
    + intros (d & Hin & Hpath).
      destruct (last_for docs q) as [d'|] eqn:Hlast; [by eexists|].
      exfalso. by eapply (proj1 (last_for_None docs q)).
  - intros q e He. rewrite Hget in He.
    destruct (last_for docs q) as [d|] eqn:Hlast; [|done].
    injection He as <-. exists d.
    destruct (last_for_elem _ _ _ Hlast) as [Hin Hpath].
    by rewrite Hfs, Hlast.
  - intros q Hnone. rewrite Hfs.
    by rewrite (proj2 (last_for_None docs q) Hnone).
Qed.

(** *** [status] *)

Lemma print_loop (line : string -> message) files w :
  for_each (fun f (_ : unit) => print (line f)) files tt w =
  (Ret tt, logged w (map (fun f => EvOut (line f)) files)).
Proof.
  revert w. induction files as [|f files IH]; intros w; cbn [for_each map].
  - by rewrite logged_nil.
  - unfold bind.
    change (print (line f) w) with (Ret tt, logged w [EvOut (line f)]).
    cbv beta iota. rewrite IH. by rewrite logged_logged.
Qed.

Lemma print_section_spec header line files w :
  print_section header line files w =
  (Ret tt, logged w (section_lines header line files)).
Proof.
  unfold print_section, section_lines. destruct files as [|f files].
  - by rewrite logged_nil.
  - unfold bind.
    change (print header w) with (Ret tt, logged w [EvOut header]).
    cbv beta iota. rewrite print_loop. by rewrite logged_logged.
Qed.

Lemma report_spec (c : changes) w :
  report c w = (Ret tt, logged w (report_lines c)).
Proof.
  assert (bind (print_section MsgNewHeader MsgNewFile (new_files c))
            (fun _ =>
               bind (print_section MsgModifiedHeader MsgModifiedFile (modified c))
                 (fun _ =>
                    print_section MsgDeletedHeader MsgDeletedFile (deleted c)))
            w =
          (Ret tt,
           logged w
             (section_lines MsgNewHeader MsgNewFile (new_files c) ++
              section_lines MsgModifiedHeader MsgModifiedFile (modified c) ++
              section_lines MsgDeletedHeader MsgDeletedFile (deleted c))))
    as Hsections.
  { unfold bind. rewrite !print_section_spec. by rewrite !logged_logged. }
  unfold report, report_lines.
  destruct (new_files c), (modified c), (deleted c); try exact Hsections.
  done.
Qed.

Lemma is_print_section header line files :
  Forall is_print (section_lines header line files).
Proof.
  unfold section_lines. destruct files as [|f files]; [done|].
  constructor; [done|]. by apply Forall_map, Forall_true.
Qed.

Lemma is_print_report (c : changes) : Forall is_print (report_lines c).
Proof.
  assert (Forall is_print
            (section_lines MsgNewHeader MsgNewFile (new_files c) ++
             section_lines MsgModifiedHeader MsgModifiedFile (modified c) ++
             section_lines MsgDeletedHeader MsgDeletedFile (deleted c)))
    as Hsections.
  { rewrite !Forall_app. auto using is_print_section. }
  unfold report_lines.
  destruct (new_files c), (modified c), (deleted c); try exact Hsections.
  by apply Forall_singleton.
Qed.

Lemma elem_section header line files msg :
  EvOut msg ∈ section_lines header line files <->
  files <> [] /\ (msg = header \/ exists f, f ∈ files /\ msg = line f).
Proof.
  unfold section_lines. destruct files as [|f0 files].
  - split; [by intros ?%elem_of_nil|by intros [? _]].
  - rewrite elem_of_cons.
    change (map (fun f => EvOut (line f)) (sorted (f0 :: files)))
      with ((fun f => EvOut (line f)) <$> sorted (f0 :: files)).
    rewrite list_elem_of_fmap. split.
    + intros [Heq|(f & Heq & Hin)]; (split; [done|]).
      * left. congruence.
      * right. exists f. rewrite elem_of_sorted in Hin. split; [done|congruence].
    + intros [_ [->|(f & Hin & ->)]]; [by left|right].
      exists f. by rewrite elem_of_sorted.
Qed.

(** Which lines of a report name a file: the report names [p] as new,
    modified or deleted exactly when [p] is in that list. *)
Lemma elem_report (c : changes) p :
  (EvOut (MsgNewFile p) ∈ report_lines c <-> p ∈ new_files c) /\
  (EvOut (MsgModifiedFile p) ∈ report_lines c <-> p ∈ modified c) /\
  (EvOut (MsgDeletedFile p) ∈ report_lines c <-> p ∈ deleted c).
Proof.
  assert (forall l : list string, (exists f, f ∈ l) -> l <> []) as Hne.
  { intros [|] [f Hf]; [by apply elem_of_nil in Hf|done]. }
  assert (forall msg,
            EvOut msg ∈ report_lines c <->
            (new_files c = [] /\ modified c = [] /\ deleted c = [] /\
             msg = MsgNothingToPush) \/
            EvOut msg ∈
              section_lines MsgNewHeader MsgNewFile (new_files c) ++
              section_lines MsgModifiedHeader MsgModifiedFile (modified c) ++
              section_lines MsgDeletedHeader MsgDeletedFile (deleted c))
    as Hlines.
  { intros msg. unfold report_lines.
    destruct (new_files c) as [|n ns], (modified c) as [|x xs],
             (deleted c) as [|d ds];
      try (split; [by right|by intros [(? & ? & ? & ?)|?]]).
    split.
    - intros Hin%list_elem_of_singleton. left. repeat split; congruence.
    - intros [(_ & _ & _ & ->)|Hin]; [by apply list_elem_of_singleton|].
      by apply elem_of_nil in Hin. }
  rewrite !Hlines, !elem_of_app, !elem_section.
  repeat split.
  - intros [(_ & _ & _ & ?)|[[_ [?|(f & Hin & Heq)]]|[[_ [?|(f & _ & ?)]]|[_ [?|(f & _ & ?)]]]]]; try done.
    by injection Heq as ->.
  - intros Hin. right. left. split; [apply Hne|right]; by exists p.
  - intros [(_ & _ & _ & ?)|[[_ [?|(f & _ & ?)]]|[[_ [?|(f & Hin & Heq)]]|[_ [?|(f & _ & ?)]]]]]; try done.
    by injection Heq as ->.
  - intros Hin. right. right. left. split; [apply Hne|right]; by exists p.
  - intros [(_ & _ & _ & ?)|[[_ [?|(f & _ & ?)]]|[[_ [?|(f & _ & ?)]]|[_ [?|(f & Hin & Heq)]]]]]; try done.
    by injection Heq as ->.
  - intros Hin. right. right. right. split; [apply Hne|right]; by exists p.
Qed.

Lemma status_loop_same m T (st : list string * list string) w :
  snd (for_each (status_tracked sha256_hex m) T st w) = w.
Proof.
  revert st. induction T as [|p T IH]; intros [md dl]; cbn [for_each]; [done|].
  unfold bind. rewrite status_tracked_step.
  destruct (read_node (fs w) p); try apply IH. done.
Qed.

Lemma status_loop_raise m T (st : list string * list string) w :
  ~ Forall (readable (fs w)) T ->
  exists q, q ∈ T /\ fs w !! q = Some Unreadable /\
    for_each (status_tracked sha256_hex m) T st w = (Raise (ReadError q), w).
Proof.
  revert st. induction T as [|p T IH]; intros [md dl] Hnot.
  { by destruct Hnot. }
  cbn [for_each]. unfold bind. rewrite status_tracked_step.
  assert (read_node (fs w) p = ReadFails -> fs w !! p = Some Unreadable) as Hfails.
  { unfold read_node. by destruct (fs w !! p) as [[|]|]. }
  destruct (read_node (fs w) p) eqn:Hr.
  3:{ exists p. split; [by left|]. by split; [apply Hfails|]. }
  all: destruct (IH (md ++ (if is_modified sha256_hex m (fs w) p then [p] else []),
                     dl ++ (if is_deleted (fs w) p then [p] else [])))
         as (q & Hq & Hfile & Hrun);
         [intros HT; apply Hnot; constructor; [unfold readable; by rewrite Hr|done]|];
       exists q; split; [by right|done].
Qed.

Lemma cmd_status_stored w m :
  disk w = Stored m ->
  cmd_status sha256_hex w =
  bind (reconcile sha256_hex m (remove_dups (keys m)) (rglob_md (fs w)))
    report w.
Proof.
  intros Hd. unfold cmd_status. unfold bind at 1. unfold is_initialized.
  rewrite Hd. cbn [negb]. unfold bind at 1. unfold load. rewrite Hd. cbn [ret].
  unfold bind at 1. by unfold local_md_files.
Qed.

(** X13.  [status] is read-only: however it ends, the files, the manifest
    file and the Remote Store are as they were, and all it added to the
    trace are lines printed to stdout or stderr; in particular no call to
    the Remote Store. *)
Theorem status_only_prints w :
  exists evs,
    snd (cmd_status sha256_hex w) = logged w evs /\ Forall is_print evs.
Proof.
  destruct (disk w) as [| | |m] eqn:Hd.
  - exists [EvErr MsgNoManifest]. split; [|by apply Forall_singleton].
    destruct w. cbn in Hd. by subst.
  - exists [EvErr MsgManifestUnreadable]. split; [|by apply Forall_singleton].
    destruct w. cbn in Hd. by subst.
  - exists []. split; [|done]. rewrite logged_nil.
    destruct w. cbn in Hd. by subst.
  - rewrite (cmd_status_stored _ _ Hd). unfold bind.
    pose proof (status_loop_same m (remove_dups (keys m)) ([], []) w) as Hsame.
    unfold reconcile, bind.
    destruct (for_each _ _ _ w) as [[st| |] w1]; cbn in Hsame; subst w1; cbn.
    + rewrite report_spec. eexists. split; [done|apply is_print_report].
    + exists []. by rewrite logged_nil.
    + exists []. by rewrite logged_nil.
Qed.

Lemma cmd_status_report w m :
  disk w = Stored m ->
  Forall (readable (fs w)) (keys m) ->
  cmd_status sha256_hex w =
  (Ret tt,
   logged w
     (report_lines
        (mkChanges (status_untracked m (rglob_md (fs w)))
           (List.filter (is_modified sha256_hex m (fs w)) (remove_dups (keys m)))
           (List.filter (is_deleted (fs w)) (remove_dups (keys m)))))).
Proof.
  intros Hd HT.
  assert (Forall (readable (fs w)) (remove_dups (keys m))) as HT'.
  { rewrite Forall_forall in HT |- *. intros p Hp. apply HT.
    by apply elem_of_remove_dups. }
  rewrite (cmd_status_stored _ _ Hd). unfold bind.
  rewrite (reconcile_ok _ _ _ _ _ HT'). by rewrite report_spec.
Qed.

(** X14.  What [status] reports, when it can read the tracked files.  A path
    is listed as new exactly when it is a [.md] file under the knowledge
    root that the manifest does not track; as modified exactly when it is
    tracked with a stored hash, exists, and its content hashes to something
    else; as deleted exactly when it is tracked and does not exist. *)
Theorem status_report_is_exact w m :
  disk w = Stored m ->
  Forall (readable (fs w)) (keys m) ->
  exists evs,
    cmd_status sha256_hex w = (Ret tt, logged w evs) /\
    forall p,
      (EvOut (MsgNewFile p) ∈ evs <->
         is_md p = true /\ is_Some (fs w !! p) /\ p ∉ keys m) /\
      (EvOut (MsgModifiedFile p) ∈ evs <->
         exists e raw h,
           get_entry m p = Some e /\ fs w !! p = Some (Text raw) /\
           content_hash e = Some h /\
           sha256_hex (Str.universal_newlines raw) <> h) /\
      (EvOut (MsgDeletedFile p) ∈ evs <-> p ∈ keys m /\ fs w !! p = None).
Proof.
  intros Hd HT.
  eexists. split; [by apply cmd_status_report|].
  intros p. destruct (elem_report
    (mkChanges (status_untracked m (rglob_md (fs w)))
       (List.filter (is_modified sha256_hex m (fs w)) (remove_dups (keys m)))
       (List.filter (is_deleted (fs w)) (remove_dups (keys m)))) p)
    as (Hnew & Hmod & Hdel).
  cbn [new_files modified deleted] in Hnew, Hmod, Hdel.
  rewrite Hnew, Hmod, Hdel. clear Hnew Hmod Hdel.
  rewrite (status_untracked_elem sha256_hex), elem_of_rglob_md,
    !elem_of_List_filter, elem_of_remove_dups.
  split; [tauto|]. split.
  - unfold is_modified, read_node. split.
    + intros [Hp Hm]. destruct (fs w !! p) as [[raw|]|]; try done.
      destruct (get_entry m p) as [e|]; [|done].
      destruct (content_hash e) as [h|] eqn:Hh; [|done].
      exists e, raw, h. repeat split; try done.
      apply negb_true_iff, String.eqb_neq in Hm. done.
    + intros (e & raw & h & He & Hfile & Hh & Hne). split.
      * rewrite <- tracked_keys, get_entry_tracked. by eexists.
      * rewrite Hfile, He, Hh. by apply negb_true_iff, String.eqb_neq.
  - unfold is_deleted, read_node.
    destruct (fs w !! p) as [[raw|]|]; split; try done; by intros [? ?].
Qed.

(** X15.  A tracked file that exists and cannot be read makes [status]
    stop with the read error: nothing is printed and nothing reported, not
    even for the tracked files that could be read. *)
Theorem status_stops_at_unreadable_file w m p :
  disk w = Stored m ->
  p ∈ keys m ->
  fs w !! p = Some Unreadable ->
  exists q,
    q ∈ keys m /\ fs w !! q = Some Unreadable /\
    cmd_status sha256_hex w = (Raise (ReadError q), w).
Proof.
  intros Hd Hp Hfile.
  destruct (status_loop_raise m (remove_dups (keys m)) ([], []) w)
    as (q & Hq & Hq' & Hrun).
  { rewrite Forall_forall. intros Hall.
    apply (Hall p); [by apply elem_of_remove_dups|].
    unfold read_node. by rewrite Hfile. }
  rewrite elem_of_remove_dups in Hq.
  exists q. split; [done|]. split; [done|].
  rewrite (cmd_status_stored _ _ Hd). unfold bind, reconcile, bind.
  by rewrite Hrun.
Qed.

(** *** Loops *)

(** An invariant of the loop body is an invariant of the loop; [E] is what
    holds of the world when the body ends the command. *)
Lemma for_each_invariant {A S} (body : A -> S -> M S)
    (I : S -> World -> Prop) (E : World -> Prop) (items : list A) :
  (forall x s w, x ∈ items -> I s w ->
     match body x s w with
     | (Ret s', w') => I s' w'
     | (_, w') => E w'
     end) ->
  forall s w, I s w ->
    match for_each body items s w with
    | (Ret s', w') => I s' w'
    | (_, w') => E w'
    end.
Proof.
  induction items as [|x items IH]; intros Hbody s w HI; cbn [for_each].
  - done.
  - unfold bind. pose proof (Hbody x s w ltac:(by left) HI) as Hx.
    destruct (body x s w) as [[s1| |] w1]; [|done..].
    apply IH; [|done]. intros y s' w' Hy. apply Hbody. by right.
Qed.

(** *** [pull] *)




(** *** [push] *)

Lemma guarded_app m prev evs1 evs2 :
  guarded m prev evs1 = true ->
  (forall prev', guarded m prev' evs2 = true) ->
  guarded m prev (evs1 ++ evs2) = true.
Proof.
  revert prev. induction evs1 as [|ev evs1 IH]; intros prev H1 H2; cbn.
  - apply H2.
  - cbn in H1. apply andb_true_iff in H1 as [Ha Hb]. rewrite Ha. cbn.
    by apply IH.
Qed.

Lemma count_app f evs1 evs2 :
  count f (evs1 ++ evs2) = (count f evs1 + count f evs2)%nat.
Proof. unfold count. by rewrite List.filter_app, length_app. Qed.

Lemma counted_nil st : counted st st [].
Proof. unfold counted, count. cbn. by rewrite !Nat.add_0_r. Qed.

Lemma counted_app st0 st1 st2 evs1 evs2 :
  counted st0 st1 evs1 -> counted st1 st2 evs2 -> counted st0 st2 (evs1 ++ evs2).
Proof.
  unfold counted. rewrite !count_app.
  intros (-> & -> & -> & ->) (-> & -> & -> & ->). by rewrite !Nat.add_assoc.
Qed.

Lemma fetch_allows_entry m p e doc :
  (p, e) ∈ m ->
  negb (doc_version doc =? version e)%Z = false ->
  fetch_allows m (Some (EvGet (id e) (ApiOk doc))) (id e) = true.
Proof.
  intros Hin Hv. unfold fetch_allows. rewrite String.eqb_refl. cbn.
  apply existsb_exists. exists (p, e). split.
  - by apply list_elem_of_In.
  - cbn. rewrite String.eqb_refl. cbn. by destruct (doc_version doc =? version e)%Z.
Qed.

(** One step of the first loop of [push], whatever the Remote Store
    answers. *)
Lemma push_tracked_effect (args : push_args) m p e st w r w' :
  (p, e) ∈ m ->
  push_tracked sha256_hex args (p, e) st w = (r, w') ->
  fs w' = fs w /\
  exists evs,
    trace w' = trace w ++ evs /\
    Forall (push_call_ok sha256_hex args m (fs w)) evs /\
    (forall prev, guarded m prev evs = true) /\
    forall st', r = Ret st' -> counted st st' evs.
Proof.
  intros Hin. unfold push_tracked.
  assert (forall st0, fs w = fs w /\
            exists evs,
              trace w = trace w ++ evs /\
              Forall (push_call_ok sha256_hex args m (fs w)) evs /\
              (forall prev, guarded m prev evs = true) /\
              forall st', Ret st0 = Ret st' -> counted st0 st' evs) as Hnone.
  { intros st0. split; [done|]. exists []. rewrite app_nil_r.
    repeat split; try done; injection H as <-; apply counted_nil. }
  assert (forall x, fs w = fs w /\
            exists evs,
              trace w = trace w ++ evs /\
              Forall (push_call_ok sha256_hex args m (fs w)) evs /\
              (forall prev, guarded m prev evs = true) /\
              forall st', Raise x = Ret st' -> counted st st' evs) as Hraise.
  { intros x. split; [done|]. exists []. rewrite app_nil_r.
    by repeat split. }
  destruct (filtered_out _ _) eqn:Hfilt; [intros [= <- <-]; apply Hnone|].
  unfold bind at 1. unfold _read_local.
  destruct (read_node (fs w) p) as [|content|] eqn:Hread; cbn [ret raise];
    [| |intros [= <- <-]; apply Hraise].
  - destruct (args_delete args) eqn:Hdel.
    + unfold bind at 1. unfold client_delete_doc, request.
      assert (forall a, push_call_ok sha256_hex args m (fs w) (EvDelete (id e) a))
        as Hcall.
      { intros a. cbn. by exists p, e. }
      destruct (delete_doc (id e) (remote w)) as [[[]|status msg| |] remote'];
        unfold bind, print, print_err, emit, ret, raise; cbn;
        intros [= <- <-]; step_events.
      all: split; [each_event|];
        (split; [done|]); intros st' [= <-]; unfold counted, count; cbn; lia.
    + unfold bind, print, emit, ret; cbn. intros [= <- <-]. step_events.
      split; [each_event|].
      split; [done|]. intros st' [= <-]. unfold counted, count; cbn; lia.
  - destruct (hash_matches _ _) eqn:Hhash; [intros [= <- <-]; apply Hnone|].
    unfold bind at 1. unfold client_get_doc, request.
    assert (forall a, push_call_ok sha256_hex args m (fs w) (EvGet (id e) a))
      as Hcall.
    { intros a. cbn. by exists p, e, content. }
    destruct (get_doc (id e) (remote w)) as [[doc|status msg| |] remote'].
    2,3,4: unfold bind, print_err, emit, ret, raise; cbn; intros [= <- <-];
      step_events;
      (split; [each_event|]);
      (split; [done|]); intros st' [= <-]; unfold counted, count; cbn; lia.
    destruct (negb (doc_version doc =? version e)%Z) eqn:Hversion.
    + unfold bind, print_err, emit, ret; cbn. intros [= <- <-]. step_events.
      split; [each_event|].
      split; [done|]. intros st' [= <-]. unfold counted, count; cbn; lia.
    + unfold bind at 1. unfold client_update_doc, request. cbn.
      assert (forall a,
                push_call_ok sha256_hex args m (fs w)
                  (EvUpdate (id e) (title e) content (category e)
                     (args_message args) a)) as Hupdate.
      { intros a. cbn. by exists p, e. }
      pose proof (fetch_allows_entry m p e doc Hin Hversion) as Hallowed.
      destruct (update_doc _ _ _ _ _ remote') as [[doc'|status msg| |] remote''];
        unfold bind, save, print, print_err, emit, ret, raise;
        try destruct (write_manifest _ _); cbn;
        intros [= <- <-]; step_events.
      all: split; [each_event|];
        (split; [intros prev; cbn [guarded app]; by rewrite Hallowed|]);
        intros st' [= <-]; unfold counted, count; cbn; lia.
Qed.

(** One step of the second loop of [push]. *)
Lemma push_untracked_effect (args : push_args) m p st w r w' :
  p ∈ rglob_md (fs w) ->
  push_untracked sha256_hex args p st w = (r, w') ->
  fs w' = fs w /\
  exists evs,
    trace w' = trace w ++ evs /\
    Forall (push_call_ok sha256_hex args m (fs w)) evs /\
    (forall prev, guarded m prev evs = true) /\
    forall st', r = Ret st' -> counted st st' evs.
Proof.
  intros Hin. unfold push_untracked.
  assert (forall r0, (forall st', r0 = Ret st' -> st' = st) ->
            fs w = fs w /\
            exists evs,
              trace w = trace w ++ evs /\
              Forall (push_call_ok sha256_hex args m (fs w)) evs /\
              (forall prev, guarded m prev evs = true) /\
              forall st', r0 = Ret st' -> counted st st' evs) as Hnone.
  { intros r0 Hr0. split; [done|]. exists []. rewrite app_nil_r.
    repeat split; try done; rewrite (Hr0 _ H); apply counted_nil. }
  destruct (tracked _ _); [intros [= <- <-]; apply Hnone; by intros st' [= <-]|].
  destruct (filtered_out _ _) eqn:Hfilt;
    [intros [= <- <-]; apply Hnone; by intros st' [= <-]|].
  unfold bind at 1. unfold read_text.
  destruct (read_node (fs w) p) as [|content|] eqn:Hread; cbn [ret raise];
    [intros [= <- <-]; by apply Hnone| |intros [= <- <-]; by apply Hnone].
  unfold bind at 1. unfold client_create_doc, request.
  assert (forall a,
            push_call_ok sha256_hex args m (fs w)
              (EvCreate (name p) content (infer_category p) a)) as Hcall.
  { intros a. cbn. by exists p. }
  destruct (create_doc _ _ _ (remote w)) as [[doc|status msg| |] remote'];
    unfold bind, save, print, print_err, emit, ret, raise;
    try destruct (write_manifest _ _); cbn;
    intros [= <- <-]; step_events.
  all: split; [each_event|];
    (split; [done|]); intros st' [= <-]; unfold counted, count; cbn; lia.
Qed.

Lemma push_inv_start (args : push_args) m w :
  push_inv sha256_hex args m w (Some (mkPush m O O O O)) w.
Proof.
  split; [done|]. exists []. rewrite app_nil_r. repeat split; try done.
  all: by injection H as <-.
Qed.

Lemma push_inv_line (args : push_args) m w0 o w ev :
  is_print ev ->
  push_inv sha256_hex args m w0 o w ->
  push_inv sha256_hex args m w0 None (logged w [ev]).
Proof.
  intros Hev (Hfs & evs & Htr & Hok & Hg & _). split; [done|].
  exists (evs ++ [ev]). cbn. rewrite Htr, <- app_assoc.
  split; [done|]. split; [|split; [|done]].
  - apply Forall_app. split; [done|]. apply Forall_singleton. by destruct ev.
  - apply guarded_app; [done|]. intros prev. by destruct ev.
Qed.

Lemma push_inv_step (args : push_args) m w0 st w (r : res push_state) w' :
  push_inv sha256_hex args m w0 (Some st) w ->
  (fs w' = fs w /\
   exists evs,
     trace w' = trace w ++ evs /\
     Forall (push_call_ok sha256_hex args m (fs w)) evs /\
     (forall prev, guarded m prev evs = true) /\
     forall st', r = Ret st' -> counted st st' evs) ->
  push_inv sha256_hex args m w0 (state_of r) w'.
Proof.
  intros (Hfs & evs & Htr & Hok & Hg & Hcount)
         (Hfs' & evs' & Htr' & Hok' & Hg' & Hcount').
  split; [congruence|]. exists (evs ++ evs').
  split; [by rewrite Htr', Htr, app_assoc|].
  split; [apply Forall_app; split; [done|by rewrite <- Hfs]|].
  split; [by apply guarded_app|].
  intros st' Hst'. destruct r as [s| |]; [|done..]. injection Hst' as ->.
  eapply counted_app; [by apply Hcount|by apply Hcount'].
Qed.

Lemma push_inv_forget (args : push_args) m w0 o w :
  push_inv sha256_hex args m w0 o w -> push_inv sha256_hex args m w0 None w.
Proof.
  intros (Hfs & evs & Htr & Hok & Hg & _). split; [done|]. by exists evs.
Qed.

Lemma push_loop_inv {A} (body : A -> push_state -> M push_state)
    (args : push_args) m w0 items st w :
  (forall x st w r w',
     x ∈ items -> fs w = fs w0 -> body x st w = (r, w') ->
     fs w' = fs w /\
     exists evs,
       trace w' = trace w ++ evs /\
       Forall (push_call_ok sha256_hex args m (fs w)) evs /\
       (forall prev, guarded m prev evs = true) /\
       forall st', r = Ret st' -> counted st st' evs) ->
  push_inv sha256_hex args m w0 (Some st) w ->
  push_inv sha256_hex args m w0 (state_of (fst (for_each body items st w)))
    (snd (for_each body items st w)).
Proof.
  intros Hbody Hinv.
  pose proof (for_each_invariant body
    (fun st w => push_inv sha256_hex args m w0 (Some st) w)
    (fun w => push_inv sha256_hex args m w0 None w) items) as Hloop.
  cbv beta in Hloop.
  specialize (Hloop ltac:(
    intros x s1 w1 Hx Hinv1;
    destruct (body x s1 w1) as [r1 w2] eqn:Hstep;
    pose proof (push_inv_step _ _ _ _ _ _ _ Hinv1
                  (Hbody _ _ _ _ _ Hx (proj1 Hinv1) Hstep)) as Hnext;
    by destruct r1) st w Hinv).
  by destruct (for_each body items st w) as [[s| |] w1].
Qed.

Lemma cmd_push_stored (args : push_args) w m :
  disk w = Stored m ->
  unknown_category (args_category args) = None ->
  cmd_push sha256_hex args w =
  bind (for_each (push_tracked sha256_hex args) m (mkPush m O O O O))
    (fun st =>
       bind (for_each (push_untracked sha256_hex args)
               (sorted_paths (rglob_md (fs w))) st)
         push_summary) w
  /\ fs (snd (for_each (push_tracked sha256_hex args) m (mkPush m O O O O) w))
     = fs w.
Proof.
  intros Hd Hcat.
  assert (fs (snd (for_each (push_tracked sha256_hex args) m (mkPush m O O O O) w))
          = fs w) as Hfs.
  { destruct (for_each _ m _ w) as [r w1] eqn:Hrun.
    by apply for_each_push_tracked_fs in Hrun. }
  split; [|done].
  unfold cmd_push. unfold bind at 1. unfold is_initialized. rewrite Hd.
  cbn [negb]. unfold bind at 1. unfold load. rewrite Hd. cbn [ret].
  rewrite Hcat. unfold bind.
  destruct (for_each _ m _ w) as [[st| |] w1]; [|done..].
  cbn [snd] in Hfs. unfold local_md_files. by rewrite Hfs.
Qed.

Lemma push_summary_spec (st : push_state) w :
  push_summary st w =
  (Ret tt,
   logged w [EvOut (summary_of (ps_created st) (ps_updated st)
                      (ps_deleted_count st) (ps_errors st))]).
Proof.
  unfold push_summary, summary_of.
  by destruct (ps_created st), (ps_updated st), (ps_deleted_count st),
              (ps_errors st).
Qed.

(** A run of [push] from [w], with [m] the manifest it loads. *)
Lemma push_run (args : push_args) w :
  let m := loaded (disk w) in
  let run := cmd_push sha256_hex args w in
  push_inv sha256_hex args m w None (snd run) /\
  (fst run = Ret tt ->
   exists evs,
     trace (snd run) =
       trace w ++ evs ++
       [EvOut (summary_of (count is_created evs) (count is_updated evs)
                 (count is_deleted_remotely evs) (count is_error_line evs))]).
Proof.
  intros m run. subst m run.
  assert (forall ev, is_print ev ->
            push_inv sha256_hex args (loaded (disk w)) w None (logged w [ev]))
    as Hline.
  { intros ev Hev. eapply push_inv_line; [done|]. apply push_inv_start. }
  destruct (disk w) as [| | |m] eqn:Hd.
  - destruct w as [files d r t]. cbn in Hd. subst d.
    split; [by apply (Hline (EvErr MsgNoManifest))|done].
  - destruct w as [files d r t]. cbn in Hd. subst d.
    split; [by apply (Hline (EvErr MsgManifestUnreadable))|done].
  - destruct w as [files d r t]. cbn in Hd. subst d.
    split; [|done]. eapply push_inv_forget. apply push_inv_start.
  - cbn [loaded] in *.
    destruct (unknown_category (args_category args)) as [c|] eqn:Hcat.
    { assert (cmd_push sha256_hex args w =
              (Exit 1%Z, logged w [EvErr (MsgUnknownCategory c)])) as ->.
      { unfold cmd_push, bind, is_initialized, load. rewrite Hd, Hcat. cbn.
        by rewrite Hd. }
      split; [by apply Hline|done]. }
    destruct (cmd_push_stored args w m Hd Hcat) as [-> Hfs1].
    unfold bind.
    pose proof (push_loop_inv (push_tracked sha256_hex args) args m w m
                  (mkPush m O O O O) w) as Hloop1.
    specialize (Hloop1 ltac:(
      intros [p e] s1 w1 r1 w2 Hx _ Hstep;
      by eapply push_tracked_effect) (push_inv_start args m w)).
    destruct (for_each (push_tracked sha256_hex args) m _ w) as [[st1| |] w1];
      cbn [fst snd state_of] in *; [|done..].
    pose proof (push_loop_inv (push_untracked sha256_hex args) args m w
                  (sorted_paths (rglob_md (fs w))) st1 w1) as Hloop2.
    specialize (Hloop2 ltac:(
      intros p s2 w2 r2 w3 Hx Hfs2 Hstep;
      eapply push_untracked_effect; [|done];
      rewrite Hfs2; by apply elem_of_sorted_paths) Hloop1).
    destruct (for_each (push_untracked sha256_hex args) _ st1 w1)
      as [[st2| |] w2]; cbn [fst snd state_of] in *; [|done..].
    rewrite push_summary_spec. cbn [fst snd]. split.
    + by eapply push_inv_line.
    + intros _. destruct Hloop2 as (_ & evs & Htr & _ & _ & Hcount).
      destruct (Hcount st2 eq_refl) as (-> & -> & -> & ->).
      exists evs. cbn. by rewrite Htr, <- app_assoc.
Qed.

(** X18.  What a [push] run can do, however the Remote Store answers and
    however the run ends.  No file is written.  With [m] the manifest it
    loaded, every call it made has its reason in [m] and in the files:
    no listing; a fetch or an update only for an entry of [m] that passes
    the category filter and whose file reads back with a hash other than
    the stored one, the update sending that content under the entry's
    title and category with the given message; a deletion only with
    [--delete], for such an entry whose file does not exist; a creation
    only for a [.md] file under the knowledge root, with the file's name
    and content and the inferred category, which passes the filter.  And
    every update follows at once a successful fetch of the same document
    that returned the version an entry with that id holds. *)
Theorem push_calls_are_justified (args : push_args) w :
  let m := loaded (disk w) in
  let w' := snd (cmd_push sha256_hex args w) in
  fs w' = fs w /\
  exists evs,
    trace w' = trace w ++ evs /\
    Forall (push_call_ok sha256_hex args m (fs w)) evs /\
    guarded m None evs = true.
Proof.
  intros m w'. subst m w'.
  destruct (push_run args w) as [(Hfs & evs & Htr & Hok & Hg & _) _].
  split; [done|]. by exists evs.
Qed.

(** X19.  When [push] returns, the last thing it did was to print the
    summary, and the summary counts what happened before it: the
    documents created, updated and deleted are the [create], [update] and
    [delete] calls the Remote Store answered with success, the errors are
    the lines written to stderr; "nothing to push" stands for four zeros. *)
Theorem push_summary_counts_the_calls (args : push_args) w w' :
  cmd_push sha256_hex args w = (Ret tt, w') ->
  exists evs,
    new_events w w' =
      evs ++
      [EvOut (summary_of (count is_created evs) (count is_updated evs)
                (count is_deleted_remotely evs) (count is_error_line evs))].
Proof.
  intros Hrun. destruct (push_run args w) as [_ Hsummary].
  rewrite Hrun in Hsummary. destruct (Hsummary eq_refl) as (evs & Htr).
  exists evs. by apply new_events_app.
Qed.

(** *** [push] after [push] *)

Lemma for_each_prefix {A S} (body : A -> S -> M S)
    (I : list A -> S -> World -> Prop) (items : list A) :
  (forall done x rest s w s' w',
     items = done ++ x :: rest ->
     I done s w -> body x s w = (Ret s', w') -> I (done ++ [x]) s' w') ->
  forall s w s' w',
    I [] s w -> for_each body items s w = (Ret s', w') -> I items s' w'.
Proof.
  intros Hbody.
  assert (forall rest done s w s' w',
            items = done ++ rest -> I done s w ->
            for_each body rest s w = (Ret s', w') -> I items s' w') as Hgen.
  { induction rest as [|x rest IH]; intros done s w s' w' Hitems HI;
      cbn [for_each].
    - intros [= <- <-]. rewrite app_nil_r in Hitems. by subst.
    - unfold bind. destruct (body x s w) as [[s1| |] w1] eqn:Hstep; [|done..].
      apply (IH (done ++ [x])).
      + by rewrite <- app_assoc.
      + by eapply Hbody. }
  intros s w s' w'. by apply (Hgen items []).
Qed.

Lemma get_entry_replace_inv m p e e' :
  get_entry (replace_entry m p e) p = Some e' -> e' = e.
Proof.
  induction m as [|[k e0] m IH]; cbn; [done|].
  destruct (String.eqb_spec k p) as [->|Hne]; cbn.
  - rewrite String.eqb_refl. congruence.
  - apply String.eqb_neq in Hne. by rewrite Hne.
Qed.

Lemma hash_matches_refl h : hash_matches (Some h) h = true.
Proof. apply String.eqb_refl. Qed.

(** What a step of the first loop leaves behind when it counts no error. *)
Lemma push_tracked_outcome (args : push_args) p e st w st' w' :
  push_tracked sha256_hex args (p, e) st w = (Ret st', w') ->
  fs w' = fs w /\
  (ps_errors st <= ps_errors st')%nat /\
  (ps_errors st' = ps_errors st ->
   (st' = st /\ disk w' = disk w /\ settled sha256_hex args (fs w) (p, e)) \/
   (ps_manifest st' = remove_entry (ps_manifest st) p /\ disk w' = disk w /\
    read_node (fs w) p = Absent) \/
   (exists e',
      ps_manifest st' = replace_entry (ps_manifest st) p e' /\
      disk w' = Stored (ps_manifest st') /\
      settled sha256_hex args (fs w) (p, e'))).
Proof.
  unfold push_tracked.
  destruct (filtered_out _ _) eqn:Hfilt.
  { intros [= <- <-]. repeat split; [done|]. intros _. left.
    repeat split. by left. }
  unfold bind at 1. unfold _read_local.
  destruct (read_node (fs w) p) as [|content|] eqn:Hread; cbn [ret raise];
    [| |done].
  - destruct (args_delete args) eqn:Hdel.
    + unfold bind at 1. unfold client_delete_doc, request.
      destruct (delete_doc (id e) (remote w)) as [[[]|status msg| |] remote'];
        unfold bind, print, print_err, emit, ret, raise; cbn; intros [= <- <-];
        cbn; repeat split; try lia.
      intros _. right. left. by repeat split.
    + unfold bind, print, emit, ret; cbn. intros [= <- <-].
      repeat split; [done|]. intros _. left. repeat split. right. by left.
  - destruct (hash_matches _ _) eqn:Hhash.
    { intros [= <- <-]. repeat split; [done|]. intros _. left.
      repeat split. right. right. by exists content. }
    unfold bind at 1. unfold client_get_doc, request.
    destruct (get_doc (id e) (remote w)) as [[doc|status msg| |] remote'];
      [|unfold bind, print_err, emit, ret, raise; cbn; intros [= <- <-];
        cbn; repeat split; lia..].
    destruct (negb (doc_version doc =? version e)%Z).
    + unfold bind, print_err, emit, ret; cbn. intros [= <- <-].
      cbn; repeat split; lia.
    + unfold bind at 1. unfold client_update_doc, request. cbn.
      destruct (update_doc _ _ _ _ _ remote') as [[doc'|status msg| |] remote''];
        unfold bind, save, print, print_err, emit, ret, raise;
        try destruct (write_manifest _ _); cbn; intros [= <- <-];
        cbn; repeat split; try lia.
      intros _. right. right. eexists. repeat split.
      right. right. exists content. cbn. split; [done|].
      apply hash_matches_refl.
Qed.

(** The same for the second loop. *)
Lemma push_untracked_outcome (args : push_args) p st w st' w' :
  push_untracked sha256_hex args p st w = (Ret st', w') ->
  fs w' = fs w /\
  (ps_errors st <= ps_errors st')%nat /\
  (ps_errors st' = ps_errors st ->
   (st' = st /\ disk w' = disk w /\
    (tracked (ps_manifest st) p = true \/
     filtered_out (args_category args) (infer_category p) = true)) \/
   (tracked (ps_manifest st) p = false /\
    exists e',
      ps_manifest st' = add_entry (ps_manifest st) p e' /\
      disk w' = Stored (ps_manifest st') /\
      settled sha256_hex args (fs w) (p, e'))).
Proof.
  unfold push_untracked.
  destruct (tracked _ _) eqn:Htracked.
  { intros [= <- <-]. repeat split; [done|]. intros _. left.
    repeat split. by left. }
  destruct (filtered_out _ _) eqn:Hfilt.
  { intros [= <- <-]. repeat split; [done|]. intros _. left.
    repeat split. by right. }
  unfold bind at 1. unfold read_text.
  destruct (read_node (fs w) p) as [|content|] eqn:Hread; cbn [ret raise];
    [done| |done].
  unfold bind at 1. unfold client_create_doc, request.
  destruct (create_doc _ _ _ (remote w)) as [[doc|status msg| |] remote'];
    unfold bind, save, print, print_err, emit, ret, raise;
    try destruct (write_manifest _ _); cbn; intros [= <- <-];
    cbn; repeat split; try lia.
  intros _. right. split; [done|]. eexists. repeat split.
  right. right. exists content. cbn. split; [done|].
  apply hash_matches_refl.
Qed.

Lemma pending_update (args : push_args) files m done M M' p :
  pending sha256_hex args files m done M ->
  (forall e, get_entry M' p = Some e -> settled sha256_hex args files (p, e)) ->
  (forall q, q <> p -> get_entry M' q = get_entry M q) ->
  pending sha256_hex args files m (done ++ [p]) M' /\
  pending sha256_hex args files m done M'.
Proof.
  intros HM Hp Hother.
  assert (forall q e,
            get_entry M' q = Some e ->
            settled sha256_hex args files (q, e) \/
            (q <> p /\ (q ∉ done) /\ get_entry m q = Some e)) as Hboth.
  { intros q e Hq. destruct (decide (q = p)) as [->|Hne]; [left; by apply Hp|].
    rewrite (Hother q Hne) in Hq. destruct (HM q e Hq) as [?|[? ?]]; auto. }
  split; intros q e Hq; destruct (Hboth q e Hq) as [?|(Hne & Hdone & Hm)];
    [by left| |by left|by right].
  right. split; [|done]. rewrite elem_of_app, list_elem_of_singleton. tauto.
Qed.

Lemma elem_keys_remove m p q : q ∈ keys (remove_entry m p) -> q ∈ keys m.
Proof. rewrite keys_remove_entry, elem_of_List_filter. by intros [? _]. Qed.

Lemma NoDup_keys_remove m p : NoDup (keys m) -> NoDup (keys (remove_entry m p)).
Proof. rewrite keys_remove_entry. apply NoDup_List_filter. Qed.

(** The first loop keeps [push_progress]. *)
Lemma progress_tracked (args : push_args) m w0 done p e rest st w st' w' :
  NoDup (keys m) ->
  m = done ++ (p, e) :: rest ->
  push_progress sha256_hex args m w0 (map fst done) [] st w ->
  push_tracked sha256_hex args (p, e) st w = (Ret st', w') ->
  push_progress sha256_hex args m w0 (map fst (done ++ [(p, e)])) [] st' w'.
Proof.
  intros Hnd Hm [Hfs0 Hinv] Hstep.
  destruct (push_tracked_outcome _ _ _ _ _ _ _ Hstep) as (Hfs & Hle & Hcases).
  split; [congruence|]. intros Hzero.
  assert (ps_errors st = O) as Hzero0 by lia.
  destruct (Hinv Hzero0) as (d & Hd & HndM & Hndd & HpM & Hpd & Hsub & _).
  rewrite Hfs0 in Hcases.
  assert (get_entry m p = Some e) as Hget.
  { apply elem_get_entry; [done|]. rewrite Hm. apply elem_of_app. right. by left. }
  assert (p ∉ map fst done) as Hnew.
  { unfold keys in Hnd. rewrite Hm, map_app in Hnd. cbn [map fst] in Hnd.
    apply NoDup_app in Hnd as (_ & Hdisj & _). intros Hin.
    apply (Hdisj p Hin). by left. }
  assert (forall M, pending sha256_hex args (fs w0) m (map fst done) M ->
            settled sha256_hex args (fs w0) (p, e) ->
            forall e0, get_entry M p = Some e0 ->
              settled sha256_hex args (fs w0) (p, e0)) as Hsame.
  { intros M HM Hset e0 He0. destruct (HM p e0 He0) as [?|[_ Hm0]]; [done|].
    congruence. }
  rewrite map_app. cbn [map fst].
  assert (forall q, q ∈ [] ->
            tracked (ps_manifest st') q = true \/
            filtered_out (args_category args) (infer_category q) = true)
    as Hseen by (by intros q ?%elem_of_nil).
  destruct (Hcases ltac:(lia)) as
    [(-> & Hdisk & Hset)|[(HM' & Hdisk & Habsent)|(e' & HM' & Hdisk & Hset)]].
  - exists d. split; [congruence|]. split; [done|]. split; [done|].
    split; [|split; [|done]].
    + by apply (pending_update args _ _ _ _ _ p HpM); [apply Hsame|].
    + by apply (pending_update args _ _ _ _ _ p Hpd); [apply Hsame|].
  - assert (settled sha256_hex args (fs w0) (p, e)) as Hset
      by (right; by left).
    exists d. split; [congruence|]. rewrite HM'.
    split; [by apply NoDup_keys_remove|]. split; [done|].
    split; [|split; [|split; [|by intros q ?%elem_of_nil]]].
    + apply (pending_update args _ _ _ _ _ p HpM).
      * intros e0. by rewrite get_entry_remove, String.eqb_refl.
      * intros q Hq. rewrite get_entry_remove.
        apply not_eq_sym, String.eqb_neq in Hq. by rewrite Hq.
    + by apply (pending_update args _ _ _ _ _ p Hpd); [apply Hsame|].
    + intros q Hq. by apply Hsub, (elem_keys_remove _ p).
  - exists (ps_manifest st'). split; [done|]. rewrite HM'.
    rewrite keys_replace_entry.
    assert (pending sha256_hex args (fs w0) m (map fst done ++ [p])
              (replace_entry (ps_manifest st) p e')) as Hpending.
    { apply (pending_update args _ _ _ _ _ p HpM).
      - intros e0 He0. by rewrite (get_entry_replace_inv _ _ _ _ He0).
      - intros q Hq. by apply get_entry_replace_ne. }
    repeat split; try done. by intros q ?%elem_of_nil.
Qed.

(** The second loop keeps it too. *)
Lemma progress_untracked (args : push_args) m w0 done seen p st w st' w' :
  push_progress sha256_hex args m w0 done seen st w ->
  push_untracked sha256_hex args p st w = (Ret st', w') ->
  push_progress sha256_hex args m w0 done (seen ++ [p]) st' w'.
Proof.
  intros [Hfs0 Hinv] Hstep.
  destruct (push_untracked_outcome _ _ _ _ _ _ Hstep) as (Hfs & Hle & Hcases).
  split; [congruence|]. intros Hzero.
  assert (ps_errors st = O) as Hzero0 by lia.
  destruct (Hinv Hzero0) as (d & Hd & HndM & Hndd & HpM & Hpd & Hsub & Hseen).
  rewrite Hfs0 in Hcases.
  destruct (Hcases ltac:(lia)) as
    [(-> & Hdisk & Hp)|(Hnew & e' & HM' & Hdisk & Hset)].
  - exists d. split; [congruence|]. repeat split; try done.
    intros q [Hq| ->%list_elem_of_singleton]%elem_of_app; [by apply Hseen|done].
  - exists (ps_manifest st'). split; [done|]. rewrite HM'.
    assert (pending sha256_hex args (fs w0) m done
              (add_entry (ps_manifest st) p e')) as Hpending.
    { apply (pending_update args _ _ _ _ _ p HpM).
      - intros e0. rewrite get_entry_add_eq. by intros [= <-].
      - intros q Hq. by apply get_entry_add_ne. }
    split; [by apply NoDup_keys_add|]. split; [by apply NoDup_keys_add|].
    repeat split; try done.
    intros q [Hq| ->%list_elem_of_singleton]%elem_of_app.
    + destruct (Hseen q Hq) as [Ht|Hf]; [left|by right].
      apply tracked_keys, elem_keys_add. right. by apply tracked_keys.
    + left. apply tracked_keys, elem_keys_add. by left.
Qed.

(** A [push] that returns went through both loops. *)
Lemma push_returns (args : push_args) w m w' :
  disk w = Stored m ->
  cmd_push sha256_hex args w = (Ret tt, w') ->
  exists st1 w1 st2 w2,
    for_each (push_tracked sha256_hex args) m (mkPush m O O O O) w
      = (Ret st1, w1) /\
    for_each (push_untracked sha256_hex args) (sorted_paths (rglob_md (fs w))) st1 w1
      = (Ret st2, w2) /\
    w' = logged w2 [EvOut (summary_of (ps_created st2) (ps_updated st2)
                             (ps_deleted_count st2) (ps_errors st2))].
Proof.
  intros Hd.
  destruct (unknown_category (args_category args)) as [c|] eqn:Hcat.
  { unfold cmd_push, bind, is_initialized, load. rewrite Hd, Hcat. cbn.
    by rewrite Hd. }
  destruct (cmd_push_stored args w m Hd Hcat) as [-> _]. unfold bind.
  destruct (for_each (push_tracked sha256_hex args) m _ w) as [[st1| |] w1];
    [|done..].
  destruct (for_each (push_untracked sha256_hex args) _ st1 w1)
    as [[st2| |] w2] eqn:H2; [|done..].
  rewrite push_summary_spec. intros [= <-]. by exists st1, w1, st2, w2.
Qed.

Lemma pending_done (args : push_args) files m M p e :
  pending sha256_hex args files m (keys m) M ->
  get_entry M p = Some e ->
  settled sha256_hex args files (p, e).
Proof.
  intros HM He. destruct (HM p e He) as [?|[Hout Hm]]; [done|].
  exfalso. apply Hout, tracked_keys, get_entry_tracked. by eexists.
Qed.

(** After a [push] that returned without an error line, every entry of
    the manifest file is settled and every [.md] file is tracked or
    filtered out. *)
Lemma push_without_errors_settles (args : push_args) w m w' :
  disk w = Stored m ->
  NoDup (keys m) ->
  cmd_push sha256_hex args w = (Ret tt, w') ->
  count is_error_line (new_events w w') = O ->
  unknown_category (args_category args) = None /\
  fs w' = fs w /\
  exists d,
    disk w' = Stored d /\ NoDup (keys d) /\
    (forall p e, get_entry d p = Some e ->
       settled sha256_hex args (fs w) (p, e)) /\
    (forall q, q ∈ rglob_md (fs w) ->
       tracked d q = true \/
       filtered_out (args_category args) (infer_category q) = true).
Proof.
  intros Hd Hnd Hrun Hclean.
  assert (unknown_category (args_category args) = None) as Hcat.
  { destruct (unknown_category (args_category args)) as [c|] eqn:Hcat; [|done].
    unfold cmd_push, bind, is_initialized, load in Hrun.
    rewrite Hd, Hcat in Hrun. cbn in Hrun. by rewrite Hd in Hrun. }
  split; [done|].
  destruct (push_returns _ _ _ _ Hd Hrun) as (st1 & w1 & st2 & w2 & H1 & H2 & ->).
  (* the counters *)
  pose proof (push_loop_inv (push_tracked sha256_hex args) args m w m
                (mkPush m O O O O) w) as Hloop1.
  specialize (Hloop1 ltac:(
    intros [p e] s1 w3 r1 w4 Hx _ Hstep;
    by eapply push_tracked_effect) (push_inv_start args m w)).
  rewrite H1 in Hloop1. cbn [fst snd state_of] in Hloop1.
  pose proof (push_loop_inv (push_untracked sha256_hex args) args m w
                (sorted_paths (rglob_md (fs w))) st1 w1) as Hloop2.
  specialize (Hloop2 ltac:(
    intros p s2 w3 r2 w4 Hx Hfs2 Hstep;
    eapply push_untracked_effect; [|done];
    rewrite Hfs2; by apply elem_of_sorted_paths) Hloop1).
  rewrite H2 in Hloop2. cbn [fst snd state_of] in Hloop2.
  destruct Hloop2 as (Hfs2 & evs & Htr & _ & _ & Hcount).
  destruct (Hcount st2 eq_refl) as (_ & _ & _ & Herrors). cbn in Herrors.
  erewrite new_events_app in Hclean; [|cbn; by rewrite Htr, <- app_assoc].
  rewrite count_app in Hclean.
  assert (ps_errors st2 = O) as Hzero by lia.
  (* the manifests *)
  assert (push_progress sha256_hex args m w (keys m) [] st1 w1) as Hp1.
  { apply (for_each_prefix (push_tracked sha256_hex args)
             (fun done st w' =>
                push_progress sha256_hex args m w (map fst done) [] st w')
             m) in H1; [done| |].
    - intros done [p e] rest s w3 s' w4 Hm Hinv Hstep.
      by eapply progress_tracked.
    - split; [done|]. intros _. exists m. cbn.
      repeat split; try done.
      + intros p e He. right. by split; [apply not_elem_of_nil|].
      + intros p e He. right. by split; [apply not_elem_of_nil|].
      + by intros q ?%elem_of_nil. }
  assert (push_progress sha256_hex args m w (keys m)
            (sorted_paths (rglob_md (fs w))) st2 w2) as Hp2.
  { apply (for_each_prefix (push_untracked sha256_hex args)
             (fun seen st w' =>
                push_progress sha256_hex args m w (keys m) seen st w')
             (sorted_paths (rglob_md (fs w)))) in H2; [done| |done].
    intros seen p rest s w3 s' w4 _ Hinv Hstep.
    by eapply progress_untracked. }
  destruct Hp2 as [Hfs Hinv].
  destruct (Hinv Hzero) as (d & Hdisk & HndM & Hndd & HpM & Hpd & Hsub & Hseen).
  split; [done|]. exists d. cbn [disk logged]. split; [done|]. split; [done|].
  split.
  - intros p e He. by eapply pending_done.
  - intros q Hq. destruct (Hseen q) as [Ht|Hf]; [by apply elem_of_sorted_paths| |by right].
    left. by apply tracked_keys, Hsub, tracked_keys.
Qed.

Lemma quiet_refl (allowed : Prop) w : quiet allowed w w.
Proof. split; [done|]. split; [done|]. exists []. by rewrite app_nil_r. Qed.

Lemma quiet_trans (allowed : Prop) w1 w2 w3 :
  quiet allowed w1 w2 -> quiet allowed w2 w3 -> quiet allowed w1 w3.
Proof.
  intros (Hf1 & Hd1 & evs1 & Ht1 & H1) (Hf2 & Hd2 & evs2 & Ht2 & H2).
  split; [congruence|]. split; [congruence|]. exists (evs1 ++ evs2).
  split; [by rewrite Ht2, Ht1, app_assoc|by apply Forall_app].
Qed.

(** A step of the first loop for a settled entry of [d]. *)
Lemma push_tracked_settled (args : push_args) d p e st w r w' :
  p ∈ keys d ->
  settled sha256_hex args (fs w) (p, e) ->
  push_tracked sha256_hex args (p, e) st w = (r, w') ->
  quiet (deletable args d (fs w)) w w' /\
  match r with
  | Ret st' =>
      ps_manifest st' = ps_manifest st \/
      (ps_manifest st' = remove_entry (ps_manifest st) p /\
       read_node (fs w) p = Absent)
  | _ => deletable args d (fs w)
  end.
Proof.
  unfold settled, push_tracked. cbn [fst snd]. intros Hp Hset.
  destruct (filtered_out _ _) eqn:Hfilt.
  { intros [= <- <-]. split; [apply quiet_refl|by left]. }
  destruct Hset as [?|Hset]; [done|].
  unfold bind at 1. unfold _read_local.
  destruct (read_node (fs w) p) as [|content|] eqn:Hread; cbn [ret raise].
  - destruct (args_delete args) eqn:Hdel.
    + assert (deletable args d (fs w)) as Hdeletable.
      { split; [done|]. by exists p. }
      unfold bind at 1. unfold client_delete_doc, request.
      destruct (delete_doc (id e) (remote w)) as [[[]|status msg| |] remote'];
        unfold bind, print, print_err, emit, ret, raise; cbn; intros [= <- <-];
        (split; [split; [done|]; split; [done|]; eexists;
                 split; [cbn; rewrite <- ?app_assoc; reflexivity|each_event]|]);
        cbn; auto.
    + unfold bind, print, emit, ret; cbn. intros [= <- <-].
      split; [|by left]. split; [done|]. split; [done|]. eexists.
      split; [cbn; reflexivity|each_event].
  - destruct Hset as [?|(c & [= <-] & Hhash)]; [done|]. rewrite Hhash.
    intros [= <- <-]. split; [apply quiet_refl|by left].
  - by destruct Hset as [?|(c & ? & _)].
Qed.

(** A [push] over a directory where every entry is settled and every
    [.md] file is tracked or filtered out. *)
Lemma push_settled_run (args : push_args) w d :
  disk w = Stored d ->
  NoDup (keys d) ->
  unknown_category (args_category args) = None ->
  (forall p e, get_entry d p = Some e -> settled sha256_hex args (fs w) (p, e)) ->
  (forall q, q ∈ rglob_md (fs w) ->
     tracked d q = true \/
     filtered_out (args_category args) (infer_category q) = true) ->
  quiet (deletable args d (fs w)) w (snd (cmd_push sha256_hex args w)) /\
  (~ deletable args d (fs w) -> fst (cmd_push sha256_hex args w) = Ret tt).
Proof.
  intros Hd Hnd Hcat Hsettled Hfiles.
  destruct (cmd_push_stored args w d Hd Hcat) as [-> _]. unfold bind.
  (* the first loop *)
  pose proof (for_each_invariant (push_tracked sha256_hex args)
    (fun st w1 =>
       quiet (deletable args d (fs w)) w w1 /\
       forall q, tracked d q = true -> read_node (fs w) q <> Absent ->
                 tracked (ps_manifest st) q = true)
    (fun w1 => quiet (deletable args d (fs w)) w w1 /\ deletable args d (fs w))
    d) as Hloop1.
  cbv beta in Hloop1.
  specialize (Hloop1 ltac:(
    intros [p e] st w1 Hin [Hq Hkept];
    pose proof (Hsettled p e (elem_get_entry _ _ _ Hnd Hin)) as Hset;
    assert (p ∈ keys d) as Hp
      by (apply tracked_keys, get_entry_tracked; exists e;
          by apply elem_get_entry);
    rewrite <- (proj1 Hq) in Hset;
    destruct (push_tracked sha256_hex args (p, e) st w1) as [r w2] eqn:Hstep;
    destruct (push_tracked_settled _ d _ _ _ _ _ _ Hp Hset Hstep) as [Hq2 Hr];
    rewrite (proj1 Hq) in Hq2, Hr;
    pose proof (quiet_trans _ _ _ _ Hq Hq2) as Hq3;
    destruct r as [st'| |]; [|done..];
    split; [done|];
    intros q Hq1 Hq0;
    destruct Hr as [->|[-> Habsent]]; [by apply Hkept|];
    unfold tracked; rewrite get_entry_remove;
    destruct (String.eqb_spec p q) as [->|_]; [done|];
    by apply Hkept) (mkPush d O O O O) w
    (conj (quiet_refl _ w) (fun q H _ => H))).
  destruct (for_each (push_tracked sha256_hex args) d _ w) as [[st1| |] w1];
    cbn [fst snd].
  2,3: by destruct Hloop1 as [Hq1 Hdel].
  destruct Hloop1 as [Hq1 Hkept].
  (* the second loop *)
  pose proof (for_each_invariant (push_untracked sha256_hex args)
    (fun st w2 => st = st1 /\ w2 = w1) (fun _ => False)
    (sorted_paths (rglob_md (fs w)))) as Hloop2.
  cbv beta in Hloop2.
  specialize (Hloop2 ltac:(
    intros q st w2 Hin [-> ->];
    rewrite elem_of_sorted_paths in Hin;
    unfold push_untracked;
    destruct (tracked (ps_manifest st1) q) eqn:Ht; [done|];
    destruct (Hfiles q Hin) as [Hd1|Hf]; [|by rewrite Hf];
    rewrite Hkept in Ht; [done|done|];
    apply elem_of_rglob_md in Hin as [_ [x Hx]];
    unfold read_node; rewrite Hx; by destruct x) st1 w1 (conj eq_refl eq_refl)).
  destruct (for_each (push_untracked sha256_hex args) _ st1 w1)
    as [[st2| |] w2]; [|done..].
  destruct Hloop2 as [-> ->].
  rewrite push_summary_spec. cbn [fst snd]. split; [|done].
  eapply quiet_trans; [exact Hq1|].
  split; [done|]. split; [done|]. eexists. split; [done|]. each_event.
Qed.

(** X20.  [push] after [push].  The manifest has distinct paths, and a
    [push] returned without writing a line to stderr.  Then a second
    [push] with the same arguments, run on what the first one left, has
    nothing to send: it fetches, updates and creates nothing, saves no
    manifest and touches no file, whatever the Remote Store does.  All it
    may still send are deletions, and only when [--delete] is given and a
    path of the manifest file has no file; otherwise it returns. *)
Theorem push_again_has_nothing_to_send (args : push_args) w m w1 :
  disk w = Stored m ->
  NoDup (keys m) ->
  cmd_push sha256_hex args w = (Ret tt, w1) ->
  count is_error_line (new_events w w1) = O ->
  let again := deletable args (loaded (disk w1)) (fs w1) in
  quiet again w1 (snd (cmd_push sha256_hex args w1)) /\
  (~ again -> fst (cmd_push sha256_hex args w1) = Ret tt).
Proof.
  intros Hd Hnd Hrun Hclean.
  destruct (push_without_errors_settles args w m w1 Hd Hnd Hrun Hclean)
    as (Hcat & Hfs & d & Hd1 & Hnd1 & Hsettled & Hfiles).
  rewrite Hd1. cbn [loaded].
  apply (push_settled_run args w1 d); try done; by rewrite Hfs.
Qed.


(** *** 401 and 403 *)

Lemma careful_ret {A} (a : A) : careful (R:=R) (ret a).
Proof. intros w. exists []. cbn. rewrite app_nil_r. split; [done|by left]. Qed.

Lemma careful_exit {A} (c : Z) : careful (R:=R) (A:=A) (exit c).
Proof. intros w. exists []. cbn. rewrite app_nil_r. split; [done|by left]. Qed.

Lemma careful_raise {A} (x : exn) : careful (R:=R) (A:=A) (raise x).
Proof. intros w. exists []. cbn. rewrite app_nil_r. split; [done|by left]. Qed.

Lemma careful_emit (ev : event) : answered_exit ev = false -> careful (R:=R) (emit ev).
Proof.
  intros Hev w. exists [ev]. cbn. split; [done|]. left. by apply Forall_singleton.
Qed.

Lemma careful_bind {A B} (m : M (R:=R) A) (k : A -> M (R:=R) B) :
  careful m -> (forall a, careful (k a)) -> careful (bind m k).
Proof.
  intros Hm Hk w. destruct (Hm w) as (evs1 & Htr1 & H1). unfold bind.
  destruct (m w) as [[a|c|x] w1]; cbn [fst snd] in *.
  - destruct (Hk a w1) as (evs2 & Htr2 & H2). exists (evs1 ++ evs2).
    split; [by rewrite Htr2, Htr1, app_assoc|].
    destruct H1 as [H1|[? _]]; [|done].
    destruct H2 as [H2|(Hr & evs0 & ev & -> & H0 & Hev)].
    + left. by apply Forall_app.
    + right. split; [done|]. exists (evs1 ++ evs0), ev.
      rewrite app_assoc. split; [done|]. split; [by apply Forall_app|done].
  - exists evs1. split; [done|].
    destruct H1 as [H1|([= ->] & Hlast)]; [by left|by right].
  - exists evs1. split; [done|]. destruct H1 as [H1|[? _]]; [by left|done].
Qed.

Lemma careful_request {A} (call : R -> api_result A * R)
    (log : api_result A -> event) :
  (forall r, answered_exit (log r) = match r with ApiExit => true | _ => false end) ->
  careful (request call log).
Proof.
  intros Hlog w. unfold request. destruct (call (remote w)) as [r remote'].
  exists [log r]. pose proof (Hlog r) as Hr.
  destruct r as [a|status msg| |]; cbn; (split; [done|]).
  - left. by apply Forall_singleton.
  - left. by apply Forall_singleton.
  - right. split; [done|]. by exists [], (log ApiExit).
  - left. by apply Forall_singleton.
Qed.

Lemma careful_for_each {A S} (body : A -> S -> M (R:=R) S) (items : list A) (s : S) :
  (forall x s', careful (body x s')) -> careful (for_each body items s).
Proof.
  intros Hbody. revert s. induction items as [|x items IH]; intros s;
    cbn [for_each].
  - apply careful_ret.
  - apply careful_bind; [apply Hbody|apply IH].
Qed.

(** A computation that leaves the trace alone. *)
Lemma careful_silent {A} (m : M (R:=R) A) :
  (forall w, trace (snd (m w)) = trace w) -> careful m.
Proof. intros Hm w. exists []. rewrite app_nil_r. split; [apply Hm|by left]. Qed.

Lemma careful_is_initialized : careful (is_initialized (R:=R)).
Proof. by apply careful_silent. Qed.

Lemma careful_load : careful (load (R:=R)).
Proof.
  intros w. unfold load. destruct (disk w).
  - apply careful_ret.
  - apply (careful_bind _ _ (careful_emit (EvErr MsgManifestUnreadable) eq_refl)
             (fun _ => careful_exit 1%Z)).
  - apply careful_raise.
  - apply careful_ret.
Qed.

Lemma careful_save m : careful (save (R:=R) m).
Proof.
  intros w. unfold save. destruct (write_manifest (disk w) m).
  - exists [EvSave m]. split; [done|]. left. by apply Forall_singleton.
  - apply careful_raise.
Qed.

Lemma careful_read_local p : careful (_read_local (R:=R) p).
Proof.
  apply careful_silent. intros w. unfold _read_local.
  by destruct (read_node (fs w) p).
Qed.

Lemma careful_read_text p : careful (read_text (R:=R) p).
Proof.
  apply careful_silent. intros w. unfold read_text.
  by destruct (read_node (fs w) p).
Qed.

Lemma careful_write_local p c : careful (_write_local (R:=R) p c).
Proof.
  intros w. unfold _write_local. destruct (write_file (fs w) p c).
  1,2: exists [EvWrite p c]; split; [done|]; left; by apply Forall_singleton.
  apply careful_raise.
Qed.

Lemma careful_local_md_files : careful (local_md_files (R:=R)).
Proof. by apply careful_silent. Qed.

Lemma careful_client :
  (forall c, careful (client_list_docs c)) /\
  (forall i, careful (client_get_doc i)) /\
  (forall t c cat, careful (client_create_doc t c cat)) /\
  (forall i t c cat r, careful (client_update_doc i t c cat r)) /\
  (forall i, careful (client_delete_doc i)).
Proof. repeat split; intros; apply careful_request; by intros []. Qed.

Lemma careful_steps (args : push_args) :
  (forall d st, careful (R:=R) (clone_doc sha256_hex d st)) /\
  (forall item st, careful (R:=R) (pull_entry sha256_hex item st)) /\
  (forall m p st, careful (R:=R) (status_tracked sha256_hex m p st)) /\
  (forall item st, careful (R:=R) (push_tracked sha256_hex args item st)) /\
  (forall p st, careful (R:=R) (push_untracked sha256_hex args p st)).
Proof.
  destruct careful_client as (Hlist & Hget & Hcreate & Hupdate & Hdelete).
  repeat split.
  - intros d [m n]. unfold clone_doc.
    apply careful_bind; [apply careful_write_local|intros; apply careful_ret].
  - intros [p e] st. unfold pull_entry.
    apply careful_bind; [apply Hget|]. intros [doc|status msg].
    + apply careful_bind; [apply careful_write_local|intros; apply careful_ret].
    + apply careful_bind; [by apply careful_emit|intros; apply careful_ret].
  - intros m p [md dl]. unfold status_tracked.
    apply careful_bind; [apply careful_read_local|]. intros [content|];
      [|apply careful_ret].
    destruct (get_entry m p) as [e|]; [|apply careful_ret].
    destruct (content_hash e) as [h|]; [|apply careful_ret].
    destruct (negb _); apply careful_ret.
  - intros [p e] st. unfold push_tracked.
    destruct (filtered_out _ _); [apply careful_ret|].
    apply careful_bind; [apply careful_read_local|]. intros [content|].
    + destruct (hash_matches _ _); [apply careful_ret|].
      apply careful_bind; [apply Hget|]. intros [doc|status msg].
      * destruct (negb _).
        { apply careful_bind; [by apply careful_emit|intros; apply careful_ret]. }
        apply careful_bind; [apply Hupdate|]. intros [doc'|status msg].
        { apply careful_bind; [apply careful_save|]. intros _.
          apply careful_bind; [by apply careful_emit|intros; apply careful_ret]. }
        apply careful_bind; [by apply careful_emit|intros; apply careful_ret].
      * apply careful_bind; [by apply careful_emit|intros; apply careful_ret].
    + destruct (args_delete args).
      * apply careful_bind; [apply Hdelete|]. intros [[]|status msg];
          (apply careful_bind; [by apply careful_emit|intros; apply careful_ret]).
      * apply careful_bind; [by apply careful_emit|intros; apply careful_ret].
  - intros p st. unfold push_untracked.
    destruct (tracked _ _); [apply careful_ret|].
    destruct (filtered_out _ _); [apply careful_ret|].
    apply careful_bind; [apply careful_read_text|]. intros content.
    apply careful_bind; [apply Hcreate|]. intros [doc|status msg].
    + apply careful_bind; [apply careful_save|]. intros _.
      apply careful_bind; [by apply careful_emit|intros; apply careful_ret].
    + apply careful_bind; [by apply careful_emit|intros; apply careful_ret].
Qed.

Lemma careful_report (c : changes) : careful (R:=R) (report c).
Proof.
  intros w. rewrite report_spec. exists (report_lines c). split; [done|]. left.
  eapply Forall_impl; [apply is_print_report|]. by intros [].
Qed.

(** X22.  401 and 403.  In a run of [clone], [pull], [status] or [push],
    either no call to the Remote Store is answered with 401 or 403, or
    exactly one is: it is the last thing the command does, and the command
    exits with code 1.  Nothing is caught, retried or saved after it. *)
Theorem auth_failure_ends_the_command (category : option string)
    (args : push_args) :
  careful (R:=R) (cmd_clone sha256_hex category) /\
  careful (R:=R) (cmd_pull sha256_hex) /\
  careful (R:=R) (cmd_status sha256_hex) /\
  careful (R:=R) (cmd_push sha256_hex args).
Proof.
  destruct (careful_steps args) as (Hclone & Hpull & Hstatus & Htracked & Huntracked).
  destruct careful_client as (Hlist & _).
  assert (forall (msg : message) (c : Z),
            careful (R:=R) (A:=unit)
              (bind (print_err msg) (fun _ => exit c))) as Hfail.
  { intros msg c.
    apply careful_bind; [by apply careful_emit|intros; apply careful_exit]. }
  repeat split.
  - unfold cmd_clone. apply careful_bind; [apply careful_is_initialized|].
    intros [|]; [apply Hfail|].
    destruct (unknown_category category); [apply Hfail|].
    apply careful_bind; [by apply careful_emit|]. intros _.
    apply careful_bind; [apply Hlist|]. intros [[|d docs]|status msg].
    + by apply careful_emit.
    + apply careful_bind; [by apply careful_for_each|]. intros st.
      apply careful_bind; [apply careful_save|]. intros _.
      apply careful_bind; [by apply careful_emit|]. intros _.
      by apply careful_emit.
    + apply Hfail.
  - unfold cmd_pull. apply careful_bind; [apply careful_is_initialized|].
    intros [|]; [|apply Hfail].
    apply careful_bind; [apply careful_load|]. intros [|item m].
    + by apply careful_emit.
    + apply careful_bind; [by apply careful_for_each|]. intros st.
      apply careful_bind; [apply careful_save|]. intros _.
      by apply careful_emit.
  - unfold cmd_status. apply careful_bind; [apply careful_is_initialized|].
    intros [|]; [|apply Hfail].
    apply careful_bind; [apply careful_load|]. intros m.
    apply careful_bind; [apply careful_local_md_files|]. intros files.
    apply careful_bind; [|apply careful_report].
    unfold reconcile.
    apply careful_bind; [by apply careful_for_each|intros; apply careful_ret].
  - unfold cmd_push. apply careful_bind; [apply careful_is_initialized|].
    intros [|]; [|apply Hfail].
    apply careful_bind; [apply careful_load|]. intros m.
    destruct (unknown_category _); [apply Hfail|].
    apply careful_bind; [by apply careful_for_each|]. intros st1.
    apply careful_bind; [apply careful_local_md_files|]. intros files.
    apply careful_bind; [by apply careful_for_each|]. intros st2.
    intros w. rewrite push_summary_spec. eexists. split; [done|].
    left. by apply Forall_singleton.
Qed.

End Further.

(** ** More runs *)

Module MoreRuns.

Import Demo Samples.

Example api_url_examples :
  get_api_url None = inl "https://markdownlm.com" /\
  get_api_url (Some "https://example.com//") = inl "https://example.com" /\
  get_api_url (Some "http://example.com") = inr "http://example.com" /\
  get_api_url (Some "") = inr "".
Proof. repeat split; reflexivity. Qed.

(** X4 for a document of category [architecture] titled [a/b.md]. *)
Lemma clone_path_witness :
  infer_category (_local_path "architecture" "a/b.md") = "architecture" /\
  name (_local_path "architecture" "a/b.md") = _safe_filename "a/b.md".
Proof.
  apply (clone_path_infers_its_category "architecture" "a/b.md").
  reflexivity.
Defined.

(** X5 and X6 on the manifest of [mixed]. *)
Lemma add_entry_witness :
  get_entry (add_entry mixed_manifest "knowledge/new.md" notes_entry) notes_path =
    (if String.eqb "knowledge/new.md" notes_path then Some notes_entry
     else get_entry mixed_manifest notes_path) /\
  keys (add_entry mixed_manifest "knowledge/new.md" notes_entry) =
    (if tracked mixed_manifest "knowledge/new.md" then keys mixed_manifest
     else keys mixed_manifest ++ ["knowledge/new.md"]) /\
  (NoDup (keys mixed_manifest) ->
   NoDup (keys (add_entry mixed_manifest "knowledge/new.md" notes_entry))).
Proof.
  apply (add_entry_then_get mixed_manifest "knowledge/new.md" notes_path notes_entry).
Defined.

Lemma remove_entry_witness :
  get_entry (remove_entry mixed_manifest layering_path) notes_path =
    (if String.eqb layering_path notes_path then None
     else get_entry mixed_manifest notes_path) /\
  (tracked mixed_manifest layering_path = false ->
   remove_entry mixed_manifest layering_path = mixed_manifest) /\
  (tracked mixed_manifest layering_path = false ->
   remove_entry (add_entry mixed_manifest layering_path notes_entry) layering_path
     = mixed_manifest) /\
  (NoDup (keys mixed_manifest) ->
   NoDup (keys (remove_entry mixed_manifest layering_path))).
Proof.
  apply (remove_entry_then_get mixed_manifest layering_path notes_path notes_entry).
Defined.

(** X7 for a URL with two trailing slashes. *)
Lemma api_url_witness :
  Str.starts_with "https://" "https://example.com" = true /\
  Str.ends_with "/" "https://example.com" = false /\
  (Some "https://example.com//" = None -> "https://example.com" = DEFAULT_API_URL).
Proof.
  apply (api_url_is_https_without_trailing_slash (Some "https://example.com//")
           "https://example.com").
  reflexivity.
Defined.

(** X8 where nothing was cloned. *)
Lemma commands_need_manifest_witness :
  cmd_pull digest empty_store =
    (Exit 1%Z, logged empty_store [EvErr MsgNoManifest]) /\
  cmd_status digest empty_store =
    (Exit 1%Z, logged empty_store [EvErr MsgNoManifest]) /\
  cmd_push digest delete_args empty_store =
    (Exit 1%Z, logged empty_store [EvErr MsgNoManifest]).
Proof.
  apply (commands_need_a_readable_manifest digest empty_store delete_args
           (Exit 1%Z, logged empty_store [EvErr MsgNoManifest])).
  left. split; reflexivity.
Defined.

(** A manifest file that is not UTF-8: the three commands die with the
    decoding error and print nothing; a file that is not JSON gives the
    error line. *)
Example commands_on_undecodable_manifest :
  let w := world [(layering_path, Text "A")] Undecodable [layering] in
  let w' := world [(layering_path, Text "A")] BadManifest [layering] in
  cmd_pull digest w = (Raise ManifestDecodeError, w) /\
  cmd_status digest w = (Raise ManifestDecodeError, w) /\
  cmd_push digest plain_args w = (Raise ManifestDecodeError, w) /\
  cmd_status digest w' = (Exit 1%Z, logged w' [EvErr MsgManifestUnreadable]).
Proof. vm_compute. repeat split; reflexivity. Qed.

(** X9 on [clean]. *)
Lemma clone_refuses_witness :
  cmd_clone digest None clean =
    (Exit 1%Z, logged clean [EvErr MsgAlreadyInitialized]).
Proof.
  apply (clone_refuses_initialized_directory digest None clean).
  discriminate.
Defined.

(** X10 for the category [misc]. *)
Lemma unknown_category_witness :
  (disk fresh = NoManifest ->
     cmd_clone digest (Some "misc") fresh =
       (Exit 1%Z, logged fresh [EvErr (MsgUnknownCategory "misc")])) /\
  (forall m (args : push_args),
     disk fresh = Stored m -> args_category args = Some "misc" ->
     cmd_push digest args fresh =
       (Exit 1%Z, logged fresh [EvErr (MsgUnknownCategory "misc")])).
Proof.
  apply (unknown_category_is_rejected_first digest "misc" fresh).
  - discriminate.
  - reflexivity.
Defined.

(** X11 with a store that holds no document. *)
Lemma clone_without_documents_witness :
  exists r w',
    cmd_clone digest None empty_store = (r, w') /\
    fs w' = fs empty_store /\ disk w' = NoManifest /\ remote w' = [] /\
    r = Ret tt /\
    trace w' =
      trace empty_store ++
      [EvOut MsgFetching; EvList None (ApiOk [])] ++ [EvOut MsgNoDocs].
Proof.
  apply (clone_without_documents_leaves_no_trace digest None empty_store
           (ApiOk []) []).
  - reflexivity.
  - reflexivity.
  - reflexivity.
  - exact I.
Defined.

(** X12 on [twins], whose two documents go to the same path. *)
Lemma clone_manifest_witness :
  exists w' m,
    cmd_clone digest None twins = (Ret tt, w') /\
    disk w' = Stored m /\
    saved (new_events twins w') = [m] /\
    NoDup (keys m) /\
    (forall q, q ∈ keys m <-> exists d, d ∈ [twin1; twin2] /\ doc_path d = q) /\
    (forall q e, get_entry m q = Some e ->
       exists d, d ∈ [twin1; twin2] /\ doc_path d = q /\
                 e = entry_of_doc digest d /\
                 fs w' !! q = Some (Text (content_of d))) /\
    (forall q, (forall d, d ∈ [twin1; twin2] -> doc_path d <> q) ->
       fs w' !! q = fs twins !! q).
Proof.
  apply (clone_manifest_matches_files digest None twins [twin1; twin2]
           [twin1; twin2]).
  - reflexivity.
  - reflexivity.
  - reflexivity.
  - discriminate.
  - by split.
Defined.

(** X14 on [mixed]: one file edited, one deleted, one new. *)
Lemma status_report_witness :
  exists evs,
    cmd_status digest mixed = (Ret tt, logged mixed evs) /\
    forall p,
      (EvOut (MsgNewFile p) ∈ evs <->
         is_md p = true /\ is_Some (fs mixed !! p) /\ p ∉ keys mixed_manifest) /\
      (EvOut (MsgModifiedFile p) ∈ evs <->
         exists e raw h,
           get_entry mixed_manifest p = Some e /\
           fs mixed !! p = Some (Text raw) /\
           content_hash e = Some h /\
           digest (Str.universal_newlines raw) <> h) /\
      (EvOut (MsgDeletedFile p) ∈ evs <->
         p ∈ keys mixed_manifest /\ fs mixed !! p = None).
Proof.
  apply (status_report_is_exact digest mixed mixed_manifest).
  - reflexivity.
  - apply Forall_forall. intros p Hp. cbn in Hp.
    elem_cases Hp; subst p; vm_compute; discriminate.
Defined.

(** X15 on [unreadable]. *)
Lemma status_stops_witness :
  exists q,
    q ∈ keys mixed_manifest /\ fs unreadable !! q = Some Unreadable /\
    cmd_status digest unreadable = (Raise (ReadError q), unreadable).
Proof.
  apply (status_stops_at_unreadable_file digest unreadable mixed_manifest
           layering_path).
  - reflexivity.
  - by left.
  - vm_compute. reflexivity.
Defined.


(** Where files are written but cannot be read back, [pull] returns and
    the [status] run next dies on the file [pull] wrote. *)
Example pull_on_write_only_host :
  let w' := snd (cmd_pull (host:=write_only) digest edited) in
  fst (cmd_pull (host:=write_only) digest edited) = Ret tt /\
  fs w' !! layering_path = Some Unreadable /\
  cmd_status digest w' = (Raise (ReadError layering_path), w').
Proof. vm_compute. repeat split; reflexivity. Qed.

Example pull_then_status_on_edited :
  let w' := snd (cmd_pull digest edited) in
  fst (cmd_pull digest edited) = Ret tt /\
  Forall plain_answer (fetched (new_events edited w')) /\
  fs w' !! layering_path = Some (Text "A") /\
  cmd_status digest w' = (Ret tt, logged w' [EvOut MsgNothingToPush]).
Proof.
  cbn zeta. split; [reflexivity|]. split; [|split; vm_compute; reflexivity].
  vm_compute. by repeat constructor.
Qed.

(** X19 on [busy]: one update, one skipped path, two creations. *)
Lemma push_summary_witness :
  exists evs,
    new_events busy (snd (cmd_push digest plain_args busy)) =
      evs ++
      [EvOut (summary_of (count is_created evs) (count is_updated evs)
                (count is_deleted_remotely evs) (count is_error_line evs))].
Proof.
  apply (push_summary_counts_the_calls digest plain_args busy
           (snd (cmd_push digest plain_args busy))).
  vm_compute. reflexivity.
Defined.

Example push_on_busy :
  new_events busy (snd (cmd_push digest plain_args busy)) =
    [EvGet "d1" (ApiOk layering);
     EvUpdate "d1" "layering.md" "B" "architecture" None
       (ApiOk (mkDoc "d1" 2%Z "architecture" "layering.md" (Some "B")));
     EvSave [(layering_path,
              mkEntry "d1" 2%Z "architecture" "layering.md" (Some (digest "B")));
             (notes_path, notes_entry)];
     EvOut (MsgUpdated layering_path 2%Z);
     EvOut (MsgSkipped notes_path);
     EvCreate "extra.md" "E" "general"
       (ApiOk (mkDoc "new-extra.md" 1%Z "general" "extra.md" (Some "E")));
     EvSave [(layering_path,
              mkEntry "d1" 2%Z "architecture" "layering.md" (Some (digest "B")));
             (notes_path, notes_entry);
             ("knowledge/general/extra.md",
              mkEntry "new-extra.md" 1%Z "general" "extra.md" (Some (digest "E")))];
     EvOut (MsgCreated "knowledge/general/extra.md");
     EvCreate "keys.md" "K" "security"
       (ApiOk (mkDoc "new-keys.md" 1%Z "security" "keys.md" (Some "K")));
     EvSave [(layering_path,
              mkEntry "d1" 2%Z "architecture" "layering.md" (Some (digest "B")));
             (notes_path, notes_entry);
             ("knowledge/general/extra.md",
              mkEntry "new-extra.md" 1%Z "general" "extra.md" (Some (digest "E")));
             ("knowledge/security/keys.md",
              mkEntry "new-keys.md" 1%Z "security" "keys.md" (Some (digest "K")))];
     EvOut (MsgCreated "knowledge/security/keys.md");
     EvOut (MsgPushComplete 2 1 0 0)].
Proof. vm_compute. reflexivity. Qed.

(** X20 on [busy], with and without [--delete]. *)
Lemma push_again_witness :
  let w1 := snd (cmd_push digest plain_args busy) in
  let again := deletable plain_args (loaded (disk w1)) (fs w1) in
  quiet again w1 (snd (cmd_push digest plain_args w1)) /\
  (~ again -> fst (cmd_push digest plain_args w1) = Ret tt).
Proof.
  apply (push_again_has_nothing_to_send digest plain_args busy mixed_manifest
           (snd (cmd_push digest plain_args busy))).
  - reflexivity.
  - vm_compute. repeat constructor; intros H; elem_cases H; discriminate.
  - vm_compute. reflexivity.
  - vm_compute. reflexivity.
Defined.

Example push_again_on_busy :
  let w1 := snd (cmd_push digest plain_args busy) in
  new_events w1 (snd (cmd_push digest plain_args w1)) =
    [EvOut (MsgSkipped notes_path); EvOut MsgNothingToPush].
Proof. vm_compute. reflexivity. Qed.


(** A run that meets a 401: [pull] stops at the first fetch, the manifest
    is not saved and no file is written. *)
Example pull_on_locked_store :
  cmd_pull (store:=locked) digest
    (offline [(layering_path, Text "B")] (Stored mixed_manifest)) =
  (Exit 1%Z,
   logged (offline [(layering_path, Text "B")] (Stored mixed_manifest))
     [EvGet "d1" ApiExit]).
Proof. vm_compute. reflexivity. Qed.

(** And one that meets a 500 at every call: every entry is tried. *)
Example push_on_down_store :
  new_events
    (offline [(layering_path, Text "B"); ("knowledge/new.md", Text "X")]
       (Stored mixed_manifest))
    (snd (cmd_push (store:=down) digest delete_args
            (offline [(layering_path, Text "B"); ("knowledge/new.md", Text "X")]
               (Stored mixed_manifest)))) =
  [EvGet "d1" refused; EvErr (MsgErrorChecking layering_path "unavailable");
   EvDelete "d2" refused; EvErr (MsgErrorDeleting notes_path "unavailable");
   EvCreate "new.md" "X" "general" refused;
   EvErr (MsgErrorCreating "knowledge/new.md" "unavailable");
   EvOut (MsgPushComplete 0 0 0 3)].
Proof. vm_compute. reflexivity. Qed.

End MoreRuns.
